(** * The MCP HTTP endpoint: session registry, request adapter, response
      collector and request router

    A shallow embedding of

    - [src/app/api/mcp/lib/helpers.ts]  ([createIncomingMessage],
      [createServerResponse], [setCorsHeaders]),
    - [src/app/api/mcp/route.ts]        ([POST], [DELETE] and the session map
      [transports]),
    - [src/app/api/mcp/tools/countJapaneseChars.ts]
      ([countJapaneseGraphemes]).

    Conventions of the embedding.

    - Text that travels over HTTP (header names and values, body chunks,
      serialized JSON) is a [string] of bytes; a JavaScript string is held
      as its UTF-8 encoding, which is what [Buffer.from(s)] gives.
      [Buffer.concat(..).toString("utf-8")] is the UTF-8 decoder, which
      puts U+FFFD in the place of ill-formed bytes.  The grapheme counter,
      whose results depend on UTF-16 surrogate pairs, works on lists of
      UTF-16 code units.
    - A JavaScript object used as a record of headers is the association
      list of its own properties, in insertion order; the session [Map]
      is a [gmap].
    - The web platform's [Headers] and [Response] constructors normalize
      and check their arguments as the Fetch Standard says, and throw
      where it says so.
    - The protocol engine ([StreamableHTTPServerTransport], [McpServer]) is
      not part of the repository.  What it does during one call is an
      arbitrary finite program over the capabilities the router hands to
      it: the id generator, the lifecycle callbacks, the request stream and
      the response sink. *)

From Stdlib Require Import ZArith Ascii String List.
From stdpp Require Import gmap strings list fin_maps pretty.

Local Open Scope Z_scope.
Local Open Scope string_scope.
Local Open Scope list_scope.

(** ** JavaScript values that cross the router *)

(** A value produced by [JSON.parse] (numbers are the integer-valued ones;
    an object lists its own properties, whose names are distinct). *)
#[warnings="-register-all"]
Inductive json : Type :=
| JNull
| JBool (b : bool)
| JNum (n : Z)
| JStr (s : string)
| JArr (items : list json)
| JObj (fields : list (string * json)).

(** A value raised by [throw]: an [Error] instance with its [name] and
    [message], or any other value, known by what [String(value)] gives. *)
Inductive thrown : Type :=
| ErrorObject (name message : string)
| NonError (as_string : string).

(** [error instanceof Error ? error.message : String(error)] *)
Definition error_text (e : thrown) : string :=
  match e with
  | ErrorObject _ message => message
  | NonError s => s
  end.

Module Js.

(** ToBoolean on parsed JSON. *)
Definition truthy (v : json) : bool :=
  match v with
  | JNull => false
  | JBool b => b
  | JNum n => negb (Z.eqb n 0)
  | JStr s => negb (String.eqb s "")
  | JArr _ | JObj _ => true
  end.

(** ToBoolean on a string that may be [null]. *)
Definition truthy_string (s : option string) : bool :=
  match s with
  | Some s => negb (String.eqb s "")
  | None => false
  end.

Fixpoint assoc {A} (k : string) (l : list (string * A)) : option A :=
  match l with
  | [] => None
  | (k', v) :: l => if String.eqb k k' then Some v else assoc k l
  end.

(** [v.name] for one of the names the router reads ([method], [params],
    [id]); none of them is a property of a number, a string, a boolean or
    an array.  Reading a property of [null] throws a [TypeError]. *)
Definition get (v : json) (name : string) : thrown + option json :=
  match v with
  | JNull =>
      inl (ErrorObject "TypeError"
             ("Cannot read properties of null (reading '" +:+ name +:+ "')"))
  | JObj fields => inr (assoc name fields)
  | _ => inr None
  end.

(** [x || null] where [x] is a property that may be [undefined]. *)
Definition or_null (x : option json) : json :=
  match x with
  | Some v => if truthy v then v else JNull
  | None => JNull
  end.

(** The member [name] of a JSON object, to look into an envelope. *)
Definition field (name : string) (v : json) : option json :=
  match v with
  | JObj fields => assoc name fields
  | _ => None
  end.

End Js.

(** ** [JSON.stringify] *)

Module JSON.

Definition quote : string := String (ascii_of_nat 34) EmptyString.
Definition backslash : string := String (ascii_of_nat 92) EmptyString.

Definition hex_digit (n : nat) : ascii :=
  ascii_of_nat (if Nat.ltb n 10 then 48 + n else 87 + n)%nat.

(** QuoteJSONString, one code unit at a time. *)
Definition escape_char (c : ascii) : string :=
  let n := nat_of_ascii c in
  if Nat.eqb n 34 then backslash +:+ quote
  else if Nat.eqb n 92 then backslash +:+ backslash
  else if Nat.eqb n 8 then backslash +:+ "b"
  else if Nat.eqb n 12 then backslash +:+ "f"
  else if Nat.eqb n 10 then backslash +:+ "n"
  else if Nat.eqb n 13 then backslash +:+ "r"
  else if Nat.eqb n 9 then backslash +:+ "t"
  else if Nat.ltb n 32 then
    backslash +:+ "u00" +:+
      String (hex_digit (n / 16)%nat)
        (String (hex_digit (n mod 16)%nat) EmptyString)
  else String c EmptyString.

Fixpoint escape (s : string) : string :=
  match s with
  | EmptyString => EmptyString
  | String c s => escape_char c +:+ escape s
  end.

Definition quoted (s : string) : string := quote +:+ escape s +:+ quote.

Definition number (n : Z) : string := pretty n.

(** [JSON.stringify(v)] without indentation. *)
Fixpoint stringify (v : json) : string :=
  match v with
  | JNull => "null"
  | JBool true => "true"
  | JBool false => "false"
  | JNum n => number n
  | JStr s => quoted s
  | JArr items =>
      "[" +:+ String.concat "," (map stringify items) +:+ "]"
  | JObj fields =>
      "{" +:+
      String.concat ","
        (map (fun kv => quoted (fst kv) +:+ ":" +:+ stringify (snd kv)) fields)
      +:+ "}"
  end.

End JSON.

(** ** Bytes and text *)

Definition in_range (lo hi : nat) (c : ascii) : bool :=
  (Nat.leb lo (nat_of_ascii c) && Nat.leb (nat_of_ascii c) hi)%bool.

Definition is_byte (n : nat) (c : ascii) : bool := Nat.eqb (nat_of_ascii c) n.

Module Utf8.

(** U+FFFD REPLACEMENT CHARACTER *)
Definition replacement : string :=
  String (ascii_of_nat 239)
    (String (ascii_of_nat 191) (String (ascii_of_nat 189) EmptyString)).

(** The UTF-8 decoder of the Encoding Standard, its output written in
    UTF-8 again: a well-formed sequence is kept, an ill-formed one gives
    U+FFFD and the byte that broke it is read afresh.  [seen] holds the
    bytes of the sequence that is open, [needed] how many more it takes,
    [lower] and [upper] bound the next one. *)
Fixpoint decode_from (seen : string) (needed lower upper : nat) (s : string)
  : string :=
  match s with
  | EmptyString =>
      match needed with
      | O => EmptyString
      | S _ => replacement
      end
  | String b rest =>
      let afresh :=
        if in_range 0 127 b then String b (decode_from "" 0 128 191 rest)
        else if in_range 194 223 b
        then decode_from (String b "") 1 128 191 rest
        else if in_range 224 239 b
        then decode_from (String b "") 2
               (if is_byte 224 b then 160 else 128)
               (if is_byte 237 b then 159 else 191) rest
        else if in_range 240 244 b
        then decode_from (String b "") 3
               (if is_byte 240 b then 144 else 128)
               (if is_byte 244 b then 143 else 191) rest
        else replacement +:+ decode_from "" 0 128 191 rest in
      match needed with
      | O => afresh
      | S more =>
          if in_range lower upper b
          then
            match more with
            | O => seen +:+ String b (decode_from "" 0 128 191 rest)
            | S _ => decode_from (seen +:+ String b "") more 128 191 rest
            end
          else replacement +:+ afresh
      end
  end.

(** [buffer.toString("utf-8")] *)
Definition decode (bytes : string) : string := decode_from "" 0 128 191 bytes.

(** The decoder behind [response.text()] leaves out a byte order mark at
    the start. *)
Definition strip_bom (s : string) : string :=
  match s with
  | String a (String b (String c rest)) =>
      if (is_byte 239 a && is_byte 187 b && is_byte 191 c)%bool then rest else s
  | _ => s
  end.

(** Well-formed UTF-8, as the Unicode Standard tabulates it (table 3-7). *)
Fixpoint well_formed (s : string) : bool :=
  match s with
  | EmptyString => true
  | String b0 r0 =>
      if in_range 0 127 b0 then well_formed r0
      else
        match r0 with
        | EmptyString => false
        | String b1 r1 =>
            if in_range 194 223 b0
            then (in_range 128 191 b1 && well_formed r1)%bool
            else
              match r1 with
              | EmptyString => false
              | String b2 r2 =>
                  if in_range 224 239 b0
                  then
                    (in_range (if is_byte 224 b0 then 160 else 128)
                       (if is_byte 237 b0 then 159 else 191) b1
                     && in_range 128 191 b2 && well_formed r2)%bool
                  else
                    match r2 with
                    | EmptyString => false
                    | String b3 r3 =>
                        (in_range 240 244 b0
                         && in_range (if is_byte 240 b0 then 144 else 128)
                              (if is_byte 244 b0 then 143 else 191) b1
                         && in_range 128 191 b2 && in_range 128 191 b3
                         && well_formed r3)%bool
                    end
              end
        end
  end.

End Utf8.

(** ** The web platform's [Headers] and [NextResponse] *)

Definition ascii_lower (c : ascii) : ascii :=
  let n := nat_of_ascii c in
  if (Nat.leb 65 n && Nat.leb n 90)%bool then ascii_of_nat (n + 32) else c.

Fixpoint lower (s : string) : string :=
  match s with
  | EmptyString => EmptyString
  | String c s => String (ascii_lower c) (lower s)
  end.

(** What the constructors of the platform refuse.  The first three are
    thrown as a [TypeError] by [new Headers(..)], the last two by
    [new Response(..)], as a [RangeError] and a [TypeError]. *)
Inductive failure : Type :=
| NotByteString (text : string)
| InvalidHeaderName (name : string)
| InvalidHeaderValue (value : string)
| StatusOutOfRange (status : Z)
| NullBodyStatus (status : Z).

Module Headers.

(** A header list, grouped by lower-cased name; the values of a name are
    in the order they were appended. *)
Abbreviation t := (gmap string (list string)).

Definition combine (vs : list string) : string := String.concat ", " vs.

(** HTTP whitespace: tab, line feed, carriage return, space. *)
Definition http_whitespace (c : ascii) : bool :=
  (is_byte 9 c || is_byte 10 c || is_byte 13 c || is_byte 32 c)%bool.

Fixpoint strip_leading (s : string) : string :=
  match s with
  | EmptyString => EmptyString
  | String c rest => if http_whitespace c then strip_leading rest else s
  end.

Fixpoint strip_trailing (s : string) : string :=
  match s with
  | EmptyString => EmptyString
  | String c rest =>
      match strip_trailing rest with
      | EmptyString => if http_whitespace c then EmptyString else String c EmptyString
      | kept => String c kept
      end
  end.

(** To normalize a value: its leading and trailing HTTP whitespace goes. *)
Definition normalize (value : string) : string :=
  strip_trailing (strip_leading value).

(** The characters of an HTTP token. *)
Definition token_char (c : ascii) : bool :=
  (in_range 48 57 c || in_range 65 90 c || in_range 97 122 c
   || existsb (fun n => is_byte n c)
        [33; 35; 36; 37; 38; 39; 42; 43; 45; 46; 94; 95; 96; 124; 126]%nat)%bool.

(** A header name is a token. *)
Definition is_name (name : string) : bool :=
  (negb (String.eqb name "")
   && forallb token_char (list_ascii_of_string name))%bool.

(** A header value holds no NUL, line feed or carriage return ([normalize]
    has taken the blanks at its ends, which it may not have either). *)
Definition is_value (value : string) : bool :=
  forallb (fun c => negb (is_byte 0 c || is_byte 10 c || is_byte 13 c))
    (list_ascii_of_string value).

(** The conversion of a JavaScript string to a WebIDL [ByteString] accepts
    the code points up to U+00FF: in UTF-8, the bytes below 0x80 and the
    two-byte sequences led by 0xC2 or 0xC3. *)
Fixpoint is_byte_string (s : string) : bool :=
  match s with
  | EmptyString => true
  | String c rest =>
      if in_range 0 127 c then is_byte_string rest
      else
        match rest with
        | String c' rest' =>
            (in_range 194 195 c && in_range 128 191 c' && is_byte_string rest')%bool
        | EmptyString => false
        end
  end.

(** A header put into the list as it is. *)
Definition add (name value : string) (h : t) : t :=
  <[lower name := default [] (h !! lower name) ++ [value]]> h.

(** [headers.append(name, value)]: the value is normalized, then name and
    value are checked. *)
Definition append (name value : string) (h : t) : failure + t :=
  let value := normalize value in
  if negb (is_name name) then inl (InvalidHeaderName name)
  else if negb (is_value value) then inl (InvalidHeaderValue value)
  else inr (add name value h).

(** [headers.set(name, value)] with a name and a value that pass these
    checks unchanged, as the constants of [setCorsHeaders] do. *)
Definition set (name value : string) (h : t) : t :=
  <[lower name := [value]]> h.

Definition get (name : string) (h : t) : option string :=
  combine <$> h !! lower name.

Definition has (name : string) (h : t) : bool :=
  bool_decide (is_Some (h !! lower name)).

(** The first string of an array of pairs that is no [ByteString]. *)
Fixpoint not_byte_string (entries : list (string * string)) : option string :=
  match entries with
  | [] => None
  | (name, value) :: entries =>
      if negb (is_byte_string name) then Some name
      else if negb (is_byte_string value) then Some value
      else not_byte_string entries
  end.

Fixpoint fill (h : t) (entries : list (string * string)) : failure + t :=
  match entries with
  | [] => inr h
  | (name, value) :: entries =>
      match append name value h with
      | inl f => inl f
      | inr h' => fill h' entries
      end
  end.

(** [new Headers(entries)] for an array of name/value pairs: the array is
    converted as a whole, then its pairs are appended one by one. *)
Definition of_entries (entries : list (string * string)) : failure + t :=
  match not_byte_string entries with
  | Some text => inl (NotByteString text)
  | None => fill ∅ entries
  end.

(** [new Headers(h)] for an existing [Headers] object: its iterator yields
    one combined entry per name, except for [set-cookie]. *)
Definition copy (h : t) : t :=
  map_imap
    (fun name vs =>
       Some (if String.eqb name "set-cookie" then vs else [combine vs]))
    h.

(** The values among [entries] whose lower-cased name is [key], in order. *)
Definition values_of (key : string) (entries : list (string * string))
  : list string :=
  map snd (filter (fun e => lower (fst e) = key) entries).

End Headers.

(** The Buffered Response: what [new NextResponse(body, {status, headers})]
    holds. *)
Record NextResponse : Type := mkResponse {
  status : Z;
  headers : Headers.t;
  body : option string
}.

Module Response.

(** The status is a WebIDL [unsigned short]: an integer is taken modulo
    2^16. *)
Definition unsigned_short (n : Z) : Z := n mod 65536.

(** The statuses of a response that has no body. *)
Definition null_body_status (status : Z) : bool :=
  ((status =? 101) || (status =? 103) || (status =? 204) || (status =? 205)
   || (status =? 304))%Z%bool.

(** The response the constructor gives when it accepts its arguments.  A
    body given as a string brings [content-type: text/plain] unless the
    init headers already name a content type. *)
Definition make (body : option string) (status : Z) (h : Headers.t)
  : NextResponse :=
  {| status := status;
     headers :=
       match body with
       | Some _ =>
           if Headers.has "content-type" h then h
           else Headers.add "content-type" "text/plain;charset=UTF-8" h
       | None => h
       end;
     body := body |}.

(** [new NextResponse(body, {status, headers})]: a status outside 200..599
    is refused, and so is a body with a status that has none. *)
Definition new (body : option string) (status : Z) (h : Headers.t)
  : failure + NextResponse :=
  let status := unsigned_short status in
  if ((status <? 200) || (599 <? status))%Z%bool
  then inl (StatusOutOfRange status)
  else
    match body with
    | Some _ =>
        if null_body_status status then inl (NullBodyStatus status)
        else inr (make body status h)
    | None => inr (make body status h)
    end.

(** [NextResponse.json(value, {status})], for the statuses the route gives
    it: 200, 400, 404 and 500. *)
Definition json (value : json) (status : Z) : NextResponse :=
  {| status := status;
     headers := Headers.set "content-type" "application/json" ∅;
     body := Some (JSON.stringify value) |}.

(** [await response.text()]: the body, given as a string, decoded from
    its bytes. *)
Definition text (r : NextResponse) : string :=
  Utf8.strip_bom (default "" (body r)).

End Response.

(** [setCorsHeaders] *)
Definition setCorsHeaders (response : NextResponse) : NextResponse :=
  {| status := status response;
     headers :=
       Headers.set "Access-Control-Expose-Headers" "Mcp-Session-Id"
         (Headers.set "Access-Control-Allow-Headers"
            "Content-Type, Mcp-Session-Id, Authorization"
            (Headers.set "Access-Control-Allow-Methods"
               "GET, POST, DELETE, OPTIONS"
               (Headers.set "Access-Control-Allow-Origin" "*"
                  (headers response))));
     body := body response |}.

(** ** The response collector ([createServerResponse]) *)

(** What the engine passes to [write] and [end]: a string or a [Buffer]. *)
Inductive chunk : Type :=
| Text (s : string)
| Bytes (b : string).

Definition Buffer_from (c : chunk) : string :=
  match c with
  | Text s => s
  | Bytes b => b
  end.

(** [if (chunk)]: the empty string is falsy, a [Buffer] is an object. *)
Definition chunk_truthy (c : chunk) : bool :=
  match c with
  | Text s => negb (String.eqb s "")
  | Bytes _ => true
  end.

(** [string | string[]] *)
Inductive header_value : Type :=
| Single (v : string)
| Multiple (vs : list string).

(** [Record<string, string | string[]>]: the own properties of the object,
    in the order of their creation.  What the object inherits is not in
    the list. *)
Abbreviation header_record := (list (string * header_value)).

Module HeaderRecord.

(** The number a property name stands for when it is an array index: the
    decimal digits, without a leading zero, of a number below 2^32 - 1. *)
Fixpoint digits_value (acc : N) (s : string) : option N :=
  match s with
  | EmptyString => Some acc
  | String c rest =>
      if in_range 48 57 c
      then digits_value (acc * 10 + N.of_nat (nat_of_ascii c - 48)) rest
      else None
  end.

Definition array_index (k : string) : option N :=
  match k with
  | EmptyString => None
  | String c rest =>
      if is_byte 48 c
      then match rest with EmptyString => Some 0%N | _ => None end
      else
        match digits_value 0 k with
        | Some n => if (n <=? 4294967294)%N then Some n else None
        | None => None
        end
  end.

Fixpoint insert_index (n : N) (e : string * header_value)
    (sorted : list (N * (string * header_value)))
  : list (N * (string * header_value)) :=
  match sorted with
  | [] => [(n, e)]
  | (m, e') :: rest =>
      if (n <? m)%N then (n, e) :: sorted else (m, e') :: insert_index n e rest
  end.

(** The order in which the properties are enumerated ([Object.entries],
    the spread of an object): the array indices first, in ascending
    order, then the other names in the order of their creation. *)
Definition ordered (r : header_record) : header_record :=
  map snd
    (foldl
       (fun sorted e =>
          match array_index (fst e) with
          | Some n => insert_index n e sorted
          | None => sorted
          end)
       [] r)
  ++ filter (fun e => array_index (fst e) = None) r.

(** The property [k] is given the value [v]. *)
Fixpoint put (k : string) (v : header_value) (r : header_record)
  : header_record :=
  match r with
  | [] => [(k, v)]
  | (k', v') :: r =>
      if String.eqb k k' then (k, v) :: r else (k', v') :: put k v r
  end.

(** [r[k] = v]: an assignment to [__proto__] goes to the accessor the
    object inherits and makes no property of its own. *)
Definition set (k : string) (v : header_value) (r : header_record)
  : header_record :=
  if String.eqb k "__proto__" then r else put k v r.

(** [delete r[k]] *)
Definition delete (k : string) (r : header_record) : header_record :=
  filter (fun e => String.eqb k (fst e) = false) r.

(** [Object.assign(target, source)] *)
Definition assign (target source : header_record) : header_record :=
  foldl (fun t e => set (fst e) (snd e) t) target source.

(** The pairs a property gives to the array built in [end]: an array
    value gives one per element. *)
Definition pairs_of (e : string * header_value) : list (string * string) :=
  match snd e with
  | Multiple vs => map (pair (fst e)) vs
  | Single v => [(fst e, v)]
  end.

(** The array built from [Object.entries(r)] in [end]. *)
Definition entries (r : header_record) : list (string * string) :=
  flat_map pairs_of (ordered r).

End HeaderRecord.

Module Collector.

(** The closure of one [createServerResponse()] call: the four local
    variables, the promise ([None] while it is pending) and the two
    mutable properties of the [response] object. *)
Record state : Type := mkState {
  statusCode : Z;
  headers : header_record;
  chunks : list string;
  headersSent : bool;
  responsePromise : option NextResponse;
  response_statusCode : Z;
  response_statusMessage : string
}.

Definition createServerResponse : state :=
  {| statusCode := 200;
     headers := [];
     chunks := [];
     headersSent := false;
     responsePromise := None;
     response_statusCode := 200;
     response_statusMessage := "OK" |}.

(** Calling the [resolve] function of a promise settles it the first
    time only. *)
Definition resolveResponse (value : NextResponse) (p : option NextResponse)
  : option NextResponse :=
  match p with
  | None => Some value
  | Some _ => p
  end.

Definition setHeader (name : string) (value : header_value) (s : state)
  : state :=
  {| statusCode := statusCode s;
     headers := HeaderRecord.set name value (headers s);
     chunks := chunks s;
     headersSent := headersSent s;
     responsePromise := responsePromise s;
     response_statusCode := response_statusCode s;
     response_statusMessage := response_statusMessage s |}.

Definition getHeader (name : string) (s : state) : option header_value :=
  Js.assoc name (headers s).

Definition getHeaders (s : state) : header_record :=
  HeaderRecord.ordered (headers s).

Definition hasHeader (name : string) (s : state) : bool :=
  match Js.assoc name (headers s) with
  | Some _ => true
  | None => false
  end.

Definition removeHeader (name : string) (s : state) : state :=
  {| statusCode := statusCode s;
     headers := HeaderRecord.delete name (headers s);
     chunks := chunks s;
     headersSent := headersSent s;
     responsePromise := responsePromise s;
     response_statusCode := response_statusCode s;
     response_statusMessage := response_statusMessage s |}.

(** [write(chunk, ..)]; the callback, when given, is the caller's. *)
Definition write (c : chunk) (s : state) : state :=
  {| statusCode := statusCode s;
     headers := headers s;
     chunks := chunks s ++ [Buffer_from c];
     headersSent := headersSent s;
     responsePromise := responsePromise s;
     response_statusCode := response_statusCode s;
     response_statusMessage := response_statusMessage s |}.

(** The body handed to [new NextResponse]:
    [chunks.length > 0 ? Buffer.concat(chunks).toString("utf-8") : undefined] *)
Definition body_of (chunks : list string) : option string :=
  match chunks with
  | [] => None
  | _ => Some (Utf8.decode (String.concat "" chunks))
  end.

(** [new NextResponse(body, {status: statusCode, headers: new Headers(..)})]
    as [end] evaluates it: the headers are made first. *)
Definition build (statusCode : Z) (headers : header_record)
    (chunks : list string) : failure + NextResponse :=
  match Headers.of_entries (HeaderRecord.entries headers) with
  | inl f => inl f
  | inr h => Response.new (body_of chunks) statusCode h
  end.

(** The chunks after [if (chunk) chunks.push(Buffer.from(chunk))]. *)
Definition push_final (c : option chunk) (chunks : list string) : list string :=
  match c with
  | Some c => if chunk_truthy c then chunks ++ [Buffer_from c] else chunks
  | None => chunks
  end.

(** [end(chunk?, ..)]: when a constructor throws, the call ends there and
    the promise stays as it is. *)
Definition end_ (c : option chunk) (s : state) : state :=
  let chunks' := push_final c (chunks s) in
  {| statusCode := statusCode s;
     headers := headers s;
     chunks := chunks';
     headersSent := true;
     responsePromise :=
       match build (statusCode s) (headers s) chunks' with
       | inr nextResponse => resolveResponse nextResponse (responsePromise s)
       | inl _ => responsePromise s
       end;
     response_statusCode := response_statusCode s;
     response_statusMessage := response_statusMessage s |}.

(** [writeHead(code, messageOrHeaders?, responseHeaders?)] *)
Definition writeHead (code : Z)
    (messageOrHeaders : option (string + header_record))
    (responseHeaders : option header_record) (s : state) : state :=
  {| statusCode := code;
     headers :=
       match messageOrHeaders with
       | Some (inl _) =>
           match responseHeaders with
           | Some hs => HeaderRecord.assign (headers s) hs
           | None => headers s
           end
       | Some (inr hs) => HeaderRecord.assign (headers s) hs
       | None => headers s
       end;
     chunks := chunks s;
     headersSent := true;
     responsePromise := responsePromise s;
     response_statusCode := code;
     response_statusMessage :=
       match messageOrHeaders with
       | Some (inl message) => message
       | _ => response_statusMessage s
       end |}.

(** [response.statusCode = code], the property assigned from outside. *)
Definition assign_statusCode (code : Z) (s : state) : state :=
  {| statusCode := statusCode s;
     headers := headers s;
     chunks := chunks s;
     headersSent := headersSent s;
     responsePromise := responsePromise s;
     response_statusCode := code;
     response_statusMessage := response_statusMessage s |}.

(** The calls of a client of the sink that change it. *)
Inductive call : Type :=
| CallSetHeader (name : string) (value : header_value)
| CallRemoveHeader (name : string)
| CallWrite (c : chunk)
| CallEnd (c : option chunk)
| CallWriteHead (code : Z)
    (messageOrHeaders : option (string + header_record))
    (responseHeaders : option header_record)
| CallAssignStatusCode (code : Z).

Definition step (s : state) (c : call) : state :=
  match c with
  | CallSetHeader name value => setHeader name value s
  | CallRemoveHeader name => removeHeader name s
  | CallWrite c => write c s
  | CallEnd c => end_ c s
  | CallWriteHead code m hs => writeHead code m hs s
  | CallAssignStatusCode code => assign_statusCode code s
  end.

Definition run (calls : list call) (s : state) : state := foldl step s calls.

(** What a call throws to its caller: only [end] can throw, what a
    constructor has refused. *)
Definition throws (s : state) (c : call) : option failure :=
  match c with
  | CallEnd ch =>
      match build (statusCode s) (headers s) (push_final ch (chunks s)) with
      | inl f => Some f
      | inr _ => None
      end
  | _ => None
  end.

(** [getResponse()]: the promise, settled or not. *)
Definition getResponse (s : state) : option NextResponse := responsePromise s.

(** Observations on a list of calls, used to state what the sink holds. *)
Definition is_end (c : call) : bool :=
  match c with
  | CallEnd _ => true
  | _ => false
  end.

(** The bytes a call adds to the buffer: those of the string or of the
    [Buffer] given to [write], and those given to [end] unless it is given
    nothing or the empty string. *)
Definition written (c : call) : list string :=
  match c with
  | CallWrite (Text s) => [s]
  | CallWrite (Bytes b) => [b]
  | CallEnd (Some (Text EmptyString)) => []
  | CallEnd (Some (Text s)) => [s]
  | CallEnd (Some (Bytes b)) => [b]
  | _ => []
  end.

(** The code of the last [writeHead] among the calls, [d] without one. *)
Definition last_writeHead (d : Z) (calls : list call) : Z :=
  foldl (fun acc c => match c with CallWriteHead code _ _ => code | _ => acc end)
    d calls.

Definition is_writeHead (c : call) : bool :=
  match c with
  | CallWriteHead _ _ _ => true
  | _ => false
  end.

(** Two closures that differ at most in the [statusCode] property of the
    [response] object. *)
Definition same_closure (s s' : state) : Prop :=
  statusCode s = statusCode s' /\ headers s = headers s'
  /\ chunks s = chunks s' /\ headersSent s = headersSent s'
  /\ responsePromise s = responsePromise s'
  /\ response_statusMessage s = response_statusMessage s'.

End Collector.

(** ** The request adapter ([createIncomingMessage]) *)

Module Request.

(** A [NextRequest]; [json] is what [await req.json()] gives, the decoded
    body or the error it rejects with. *)
Record t : Type := mk {
  method : string;
  url : string;
  headers : Headers.t;
  json : thrown + json
}.

End Request.

(** The [Readable] objects of the process: each holds the chunks it has not
    yielded yet and is known by the position at which it was allocated. *)
Abbreviation readables := (list (list string)).

Module Adapter.

Record Socket : Type := {
  remoteAddress : string;
  remotePort : Z;
  encrypted : bool
}.

(** The [Readable] cast to [IncomingMessage], with the properties copied
    onto it by [Object.assign]. *)
Record IncomingMessage : Type := {
  stream : nat;
  headers : gmap string string;
  method : string;
  url : string;
  httpVersion : string;
  httpVersionMajor : Z;
  httpVersionMinor : Z;
  aborted : bool;
  complete : bool;
  readable : bool;
  socket : Socket;
  connection : option Socket
}.

(** [req.headers.forEach((value, key) => { headers[key] = value })]: the
    own properties of the object that is filled.  The assignment to the
    key [__proto__] makes none. *)
Definition headers_record (h : Headers.t) : gmap string string :=
  map_imap
    (fun name vs =>
       if String.eqb name "__proto__" then None
       else if String.eqb name "set-cookie" then last vs
       else Some (Headers.combine vs))
    h.

(** [body ? JSON.stringify(body) : ""]; [None] is a call without the
    optional argument. *)
Definition bodyString (body : option json) : string :=
  match body with
  | Some b => if Js.truthy b then JSON.stringify b else ""
  | None => ""
  end.

(** [Readable.from([bodyString])]: a new stream that yields the one element
    of the array and then ends. *)
Definition Readable_from (items : list string) (heap : readables)
  : nat * readables :=
  (length heap, heap ++ [items]).

Definition createIncomingMessage (req : Request.t) (body : option json)
    (heap : readables) : IncomingMessage * readables :=
  let '(r, heap') := Readable_from [bodyString body] heap in
  ({| stream := r;
      headers := headers_record (Request.headers req);
      method := Request.method req;
      url := Request.url req;
      httpVersion := "1.1";
      httpVersionMajor := 1;
      httpVersionMinor := 1;
      aborted := false;
      complete := true;
      readable := true;
      socket :=
        {| remoteAddress := "127.0.0.1"; remotePort := 0; encrypted := false |};
      connection := None
   |}, heap').

(** [for await (const chunk of message)]: the chunks the stream still holds,
    after which it has ended and yields nothing more. *)
Definition read_all (r : nat) (heap : readables) : list string * readables :=
  (default [] (heap !! r), <[r := []]> heap).

End Adapter.

(** ** The session registry and the request router ([route.ts]) *)

(** What the module does that can be seen from outside a call, in order:
    the mutations of the session map and the entries into the SDK. *)
Inductive event : Type :=
| RegistrySet (sid : string) (transport : nat)
| RegistryDelete (sid : string)
| SdkNewTransport (transport : nat)
| SdkConnect (transport : nat)
| SdkHandleRequest (transport : nat) (message : nat).

(** The state of the process: the module-level [transports] map (a
    transport object is known by the position at which it was allocated),
    the number of transports and of UUIDs created so far, the streams, and
    the events so far. *)
Record world : Type := mkWorld {
  transports : gmap string nat;
  transportCount : nat;
  uuidCount : nat;
  streams : readables;
  trace : list event
}.

Definition log (e : event) (w : world) : world :=
  {| transports := transports w;
     transportCount := transportCount w;
     uuidCount := uuidCount w;
     streams := streams w;
     trace := trace w ++ [e] |}.

(** [transports.has(sid)] *)
Definition transports_has (sid : string) (w : world) : bool :=
  bool_decide (is_Some (transports w !! sid)).

(** [transports.set(sid, transport)] *)
Definition transports_set (sid : string) (transport : nat) (w : world) : world :=
  log (RegistrySet sid transport)
    {| transports := <[sid := transport]> (transports w);
       transportCount := transportCount w;
       uuidCount := uuidCount w;
       streams := streams w;
       trace := trace w |}.

(** [transports.delete(sid)] *)
Definition transports_delete (sid : string) (w : world) : world :=
  log (RegistryDelete sid)
    {| transports := delete sid (transports w);
       transportCount := transportCount w;
       uuidCount := uuidCount w;
       streams := streams w;
       trace := trace w |}.

Definition set_streams (heap : readables) (w : world) : world :=
  {| transports := transports w;
     transportCount := transportCount w;
     uuidCount := uuidCount w;
     streams := heap;
     trace := trace w |}.

(** What the module takes from its environment: the SDK's
    [isInitializeRequest], the values [crypto.randomUUID()] returns (the
    [n]-th call gives [randomUUID n]), [process.env.NODE_ENV], and the
    wording of the errors the platform's constructors throw. *)
Class Platform : Type := {
  isInitializeRequest : json -> bool;
  randomUUID : nat -> string;
  NODE_ENV : option string;
  failure_message : failure -> string
}.

(** The error thrown for what a constructor refuses. *)
Definition raise `{Platform} (f : failure) : thrown :=
  ErrorObject
    match f with
    | StatusOutOfRange _ => "RangeError"
    | _ => "TypeError"
    end
    (failure_message f).

(** *** The protocol engine, seen from the router *)

(** The capabilities the engine holds during [handleRequest]: the options
    given to the transport's constructor, the [onclose] handler (it reads
    [transport.sessionId], which the engine owns), the request stream and
    the response sink.  A call of a method of the sink tells the engine
    what it has thrown, if anything. *)
Inductive op : Type -> Type :=
| sessionIdGenerator : op string
| onsessioninitialized (sid : string) : op unit
| onsessionclosed (sid : string) : op unit
| onclose (sessionId : option string) : op unit
| readRequest : op (list string)
| respond (c : Collector.call) : op (option thrown)
| getHeader (name : string) : op (option header_value)
| getHeaders : op header_record
| hasHeader (name : string) : op bool
| headersSent : op bool.

(** One run of [handleRequest], as far as the router can tell: it settles,
    or it uses a capability and goes on from the answer. *)
Inductive engine : Type :=
| Resolve
| Reject (e : thrown)
| Do {A : Type} (o : op A) (k : A -> engine).

(** The engine during one call: whether [server.connect(transport)]
    rejects, and the run of [transport.handleRequest]. *)
Record behaviour : Type := {
  connect : option thrown;
  handleRequest : engine
}.

Record call_state : Type := {
  cs_world : world;
  cs_response : Collector.state
}.

Definition on_world (f : world -> world) (st : call_state) : call_state :=
  {| cs_world := f (cs_world st); cs_response := cs_response st |}.

(** The router's side of each capability, for the transport object
    [transport] serving the message [message]. *)
Definition perform `{Platform} (transport : nat)
    (message : Adapter.IncomingMessage) {A : Type} (o : op A)
    (st : call_state) : A * call_state :=
  match o in op T return T * call_state with
  | sessionIdGenerator =>
      (randomUUID (uuidCount (cs_world st)),
       on_world
         (fun w =>
            {| transports := transports w;
               transportCount := transportCount w;
               uuidCount := S (uuidCount w);
               streams := streams w;
               trace := trace w |})
         st)
  | onsessioninitialized sid =>
      (tt, on_world (transports_set sid transport) st)
  | onsessionclosed sid =>
      (tt, on_world (transports_delete sid) st)
  | onclose sessionId =>
      (tt,
       match sessionId with
       | Some sid =>
           if Js.truthy_string sessionId
           then on_world (transports_delete sid) st
           else st
       | None => st
       end)
  | readRequest =>
      let '(chunks, heap) :=
        Adapter.read_all (Adapter.stream message) (streams (cs_world st)) in
      (chunks, on_world (set_streams heap) st)
  | respond c =>
      (raise <$> Collector.throws (cs_response st) c,
       {| cs_world := cs_world st;
          cs_response := Collector.step (cs_response st) c |})
  | getHeader name => (Collector.getHeader name (cs_response st), st)
  | getHeaders => (Collector.getHeaders (cs_response st), st)
  | hasHeader name => (Collector.hasHeader name (cs_response st), st)
  | headersSent => (Collector.headersSent (cs_response st), st)
  end.

(** [await transport.handleRequest(message, response)]: [None] when the
    promise resolves, [Some e] when it rejects with [e]. *)
Fixpoint handle `{Platform} (transport : nat)
    (message : Adapter.IncomingMessage) (e : engine) (st : call_state)
  : option thrown * call_state :=
  match e with
  | Resolve => (None, st)
  | Reject err => (Some err, st)
  | Do o k =>
      let '(a, st') := perform transport message o st in
      handle transport message (k a) st'
  end.

(** *** The handlers *)

(** What a handler gives back: a response, or nothing yet because it awaits
    a promise that is still pending when the engine has settled. *)
Inductive outcome : Type :=
| Responded (r : NextResponse)
| Pending.

(** The envelope of the "invalid session" answer. *)
Definition session_error (id : json) : json :=
  JObj
    [("jsonrpc", JStr "2.0");
     ("error",
      JObj
        [("code", JNum (-32000));
         ("message",
          JStr "Bad Request: No valid session ID provided or session not found");
         ("data", JObj [("hint", JStr "Please send an initialize request first")])]);
     ("id", id)].

Definition transport_not_found_error (id : json) : json :=
  JObj
    [("jsonrpc", JStr "2.0");
     ("error",
      JObj
        [("code", JNum (-32000));
         ("message", JStr "Bad Request: Transport not found")]);
     ("id", id)].

(** [process.env.NODE_ENV === "development"] *)
Definition development `{Platform} : bool :=
  match NODE_ENV with
  | Some env => String.eqb env "development"
  | None => false
  end.

(** The envelope built in the [catch] block of [POST]. *)
Definition internal_error `{Platform} (error : thrown) : json :=
  JObj
    [("jsonrpc", JStr "2.0");
     ("error",
      JObj
        ([("code", JNum (-32603)); ("message", JStr "Internal server error")]
         ++ (if development
             then [("data", JObj [("error", JStr (error_text error))])]
             else [])));
     ("id", JNull)].

(** [await getResponse()], [await nextResponse.text()] and the response
    rebuilt from them, with the CORS headers; the constructor throws when
    the status admits no body, as the text is never [null]. *)
Definition deliver `{Platform} (response : Collector.state) : thrown + outcome :=
  match Collector.getResponse response with
  | None => inr Pending
  | Some nextResponse =>
      let responseBody := Response.text nextResponse in
      match
        Response.new (Some responseBody) (status nextResponse)
          (Headers.copy (headers nextResponse))
      with
      | inl f => inl (raise f)
      | inr finalResponse => inr (Responded (setCorsHeaders finalResponse))
      end
  end.

(** The clean-up of an existing session at the start of an initialization. *)
Definition discard_existing (sessionId : option string) (w : world) : world :=
  match sessionId with
  | Some sid =>
      if (Js.truthy_string sessionId && transports_has sid w)%bool
      then transports_delete sid w
      else w
  | None => w
  end.

(** [new StreamableHTTPServerTransport({..})] *)
Definition new_transport (w : world) : nat * world :=
  (transportCount w,
   log (SdkNewTransport (transportCount w))
     {| transports := transports w;
        transportCount := S (transportCount w);
        uuidCount := uuidCount w;
        streams := streams w;
        trace := trace w |}).

(** The initialization branch from [server.connect] having resolved up to
    the call of [transport.handleRequest]: the adapter and the collector
    are created, the first stream is read for the log, and a second adapter
    is created for the SDK. *)
Definition prepare_initialize (req : Request.t) (body : json)
    (transport : nat) (w : world) : Adapter.IncomingMessage * call_state :=
  let '(incomingMessage, heap1) :=
    Adapter.createIncomingMessage req (Some body) (streams w) in
  let response := Collector.createServerResponse in
  let '(_, heap2) := Adapter.read_all (Adapter.stream incomingMessage) heap1 in
  let '(incomingMessage2, heap3) :=
    Adapter.createIncomingMessage req (Some body) heap2 in
  (incomingMessage2,
   {| cs_world :=
        log (SdkHandleRequest transport (Adapter.stream incomingMessage2))
          (set_streams heap3 w);
      cs_response := response |}).

(** The same for a call on an existing session. *)
Definition prepare_continue (req : Request.t) (body : json)
    (transport : nat) (w : world) : Adapter.IncomingMessage * call_state :=
  let '(incomingMessage, heap) :=
    Adapter.createIncomingMessage req (Some body) (streams w) in
  (incomingMessage,
   {| cs_world :=
        log (SdkHandleRequest transport (Adapter.stream incomingMessage))
          (set_streams heap w);
      cs_response := Collector.createServerResponse |}).

(** [await transport.handleRequest(..)] and what follows it in the [try]
    block: a rejection is thrown on, a resolution leads to [deliver],
    which may throw as well. *)
Definition dispatch `{Platform} (transport : nat) (e : engine)
    (prepared : Adapter.IncomingMessage * call_state)
  : (thrown + outcome) * world :=
  match handle transport (fst prepared) e (snd prepared) with
  | (Some err, st) => (inl err, cs_world st)
  | (None, st) => (deliver (cs_response st), cs_world st)
  end.

Definition POST_initialize `{Platform} (req : Request.t) (body : json)
    (sessionId : option string) (b : behaviour) (w : world)
  : (thrown + outcome) * world :=
  let w1 := discard_existing sessionId w in
  let '(transport, w2) := new_transport w1 in
  let w3 := log (SdkConnect transport) w2 in
  match connect b with
  | Some err => (inl err, w3)
  | None =>
      dispatch transport (handleRequest b)
        (prepare_initialize req body transport w3)
  end.

(** The body of the [try] block of [POST]: [inl e] when [e] is thrown. *)
Definition POST_try `{Platform} (req : Request.t) (b : behaviour) (w : world)
  : (thrown + outcome) * world :=
  let sessionId := Headers.get "mcp-session-id" (Request.headers req) in
  match Request.json req with
  | inl err => (inl err, w)
  | inr body =>
      (* the request log reads [body.method], then [body.params] *)
      match Js.get body "method" with
      | inl err => (inl err, w)
      | inr _ =>
          if isInitializeRequest body
          then POST_initialize req body sessionId b w
          else
            match sessionId with
            | Some sid =>
                if (Js.truthy_string sessionId && transports_has sid w)%bool
                then
                  match transports w !! sid with
                  | Some transport =>
                      dispatch transport (handleRequest b)
                        (prepare_continue req body transport w)
                  | None =>
                      match Js.get body "id" with
                      | inl err => (inl err, w)
                      | inr id =>
                          (inr
                             (Responded
                                (setCorsHeaders
                                   (Response.json
                                      (transport_not_found_error (Js.or_null id))
                                      400))), w)
                      end
                  end
                else
                  match Js.get body "id" with
                  | inl err => (inl err, w)
                  | inr id =>
                      (inr
                         (Responded
                            (setCorsHeaders
                               (Response.json (session_error (Js.or_null id))
                                  400))), w)
                  end
            | None =>
                match Js.get body "id" with
                | inl err => (inl err, w)
                | inr id =>
                    (inr
                       (Responded
                          (setCorsHeaders
                             (Response.json (session_error (Js.or_null id)) 400))),
                     w)
                end
            end
      end
  end.

(** [POST]: the [try] block and its [catch]. *)
Definition POST `{Platform} (req : Request.t) (b : behaviour) (w : world)
  : outcome * world :=
  match POST_try req b w with
  | (inl error, w') =>
      (Responded (setCorsHeaders (Response.json (internal_error error) 500)), w')
  | (inr out, w') => (out, w')
  end.

(** [DELETE]; nothing in its [try] block throws. *)
Definition DELETE (req : Request.t) (w : world) : NextResponse * world :=
  let sessionId := Headers.get "mcp-session-id" (Request.headers req) in
  match sessionId with
  | Some sid =>
      if negb (Js.truthy_string sessionId)
      then
        (setCorsHeaders
           (Response.json
              (JObj [("status", JStr "error");
                     ("message", JStr "No session ID provided")]) 400), w)
      else if negb (transports_has sid w)
      then
        (setCorsHeaders
           (Response.json
              (JObj [("status", JStr "error");
                     ("message", JStr "Session not found")]) 404), w)
      else
        (setCorsHeaders
           (Response.json
              (JObj [("status", JStr "ok");
                     ("message", JStr "Session deleted successfully");
                     ("sessionId", JStr sid)]) 200),
         transports_delete sid w)
  | None =>
      (setCorsHeaders
         (Response.json
            (JObj [("status", JStr "error");
                   ("message", JStr "No session ID provided")]) 400), w)
  end.

(** [GET]: the health check. *)
Definition GET (req : Request.t) (w : world) : NextResponse :=
  let sessionId := Headers.get "mcp-session-id" (Request.headers req) in
  match sessionId with
  | Some sid =>
      if (Js.truthy_string sessionId && transports_has sid w)%bool
      then
        setCorsHeaders
          (Response.json
             (JObj [("status", JStr "ok");
                    ("sessionId", JStr sid);
                    ("message", JStr "Session is active")]) 200)
      else if Js.truthy_string sessionId
      then
        setCorsHeaders
          (Response.json
             (JObj [("status", JStr "error");
                    ("message", JStr "Session not found")]) 404)
      else
        setCorsHeaders
          (Response.json
             (JObj [("status", JStr "ok");
                    ("message", JStr "Server is running. No session provided.")])
             200)
  | None =>
      setCorsHeaders
        (Response.json
           (JObj [("status", JStr "ok");
                  ("message", JStr "Server is running. No session provided.")])
           200)
  end.

(** *** Observations on a run of the engine *)

(** The call a capability makes on the response sink, if it is one. *)
Definition call_of {A : Type} (o : op A) : list Collector.call :=
  match o with
  | respond c => [c]
  | _ => []
  end.

(** The calls the engine makes on the response sink during a run, in
    order. *)
Fixpoint responds `{Platform} (transport : nat)
    (message : Adapter.IncomingMessage) (e : engine) (st : call_state)
  : list Collector.call :=
  match e with
  | Resolve | Reject _ => []
  | Do o k =>
      call_of o
      ++ responds transport message
           (k (fst (perform transport message o st)))
           (snd (perform transport message o st))
  end.

(** The transport created by an initialization, with the message and the
    state in which [transport.handleRequest] is called. *)
Definition initialize_call (req : Request.t) (body : json)
    (sessionId : option string) (w : world)
  : nat * (Adapter.IncomingMessage * call_state) :=
  let '(transport, w2) := new_transport (discard_existing sessionId w) in
  (transport, prepare_initialize req body transport (log (SdkConnect transport) w2)).




(** *** The registry over the life of the process *)

(** Every registered id was given by the generator, and every registered
    transport is one that was created. *)
Definition registry_sound `{Platform} (w : world) : Prop :=
  forall (sid : string) (t : nat),
    transports w !! sid = Some t ->
    (t < transportCount w)%nat
    /\ exists n : nat, (n < uuidCount w)%nat /\ sid = randomUUID n.

(** The registry is sound and the transport of the call has been created. *)
Definition sound_during `{Platform} (transport : nat) (st : call_state) : Prop :=
  registry_sound (cs_world st)
  /\ (transport < transportCount (cs_world st))%nat.

(** A run in which the engine announces only ids that the generator has
    given, as the SDK's transport does ([sessionId = sessionIdGenerator()]
    followed by [onsessioninitialized(sessionId)]). *)
Fixpoint announces_drawn_ids `{Platform} (transport : nat)
    (message : Adapter.IncomingMessage) (e : engine) (st : call_state) : Prop :=
  match e with
  | Resolve | Reject _ => True
  | Do o k =>
      match o with
      | onsessioninitialized sid =>
          exists n : nat, (n < uuidCount (cs_world st))%nat /\ sid = randomUUID n
      | _ => True
      end
      /\ announces_drawn_ids transport message
           (k (fst (perform transport message o st)))
           (snd (perform transport message o st))
  end.

(** The same for a whole [POST]: the run of [handleRequest], when the call
    gets that far, is of this kind. *)
Definition engine_announces_drawn_ids `{Platform} (req : Request.t)
    (b : behaviour) (w : world) : Prop :=
  match Request.json req with
  | inl _ => True
  | inr body =>
      let sessionId := Headers.get "mcp-session-id" (Request.headers req) in
      if isInitializeRequest body
      then
        let '(transport, prepared) := initialize_call req body sessionId w in
        announces_drawn_ids transport (fst prepared) (handleRequest b)
          (snd prepared)
      else
        match sessionId with
        | Some sid =>
            match transports w !! sid with
            | Some transport =>
                announces_drawn_ids transport
                  (fst (prepare_continue req body transport w))
                  (handleRequest b)
                  (snd (prepare_continue req body transport w))
            | None => True
            end
        | None => True
        end
  end.

(** The entries put into the session map, among some events. *)
Definition registrations (events : list event) : list (string * nat) :=
  flat_map
    (fun e =>
       match e with
       | RegistrySet sid t => [(sid, t)]
       | _ => []
       end)
    events.

(** Is an event an entry into the SDK? *)
Definition is_sdk (e : event) : bool :=
  match e with
  | SdkNewTransport _ | SdkConnect _ | SdkHandleRequest _ _ => true
  | _ => false
  end.

(** The events a handler has added to those of [w]. *)
Definition events_since (w w' : world) : list event :=
  drop (length (trace w)) (trace w').

(** The engine raises [err] while [POST] serves the decoded body [body]:
    in an initialization [connect] or [handleRequest] rejects with it, in a
    call on a registered session [handleRequest] does. *)
Definition engine_raises `{Platform} (req : Request.t) (body : json)
    (b : behaviour) (w : world) (err : thrown) : Prop :=
  let sessionId := Headers.get "mcp-session-id" (Request.headers req) in
  if isInitializeRequest body
  then
    let '(transport, prepared) := initialize_call req body sessionId w in
    connect b = Some err
    \/ (connect b = None
        /\ fst (handle transport (fst prepared) (handleRequest b) (snd prepared))
           = Some err)
  else
    exists (sid : string) (transport : nat),
      sessionId = Some sid /\ sid <> ""
      /\ transports w !! sid = Some transport
      /\ fst (handle transport (fst (prepare_continue req body transport w))
                (handleRequest b) (snd (prepare_continue req body transport w)))
         = Some err.

(** ** The grapheme counter ([countJapaneseGraphemes]) *)

Module Graphemes.

Local Open Scope Z_scope.

(** A JavaScript string: its UTF-16 code units. *)
Abbreviation js_string := (list Z).

Definition high_surrogate (u : Z) : bool := (0xD800 <=? u) && (u <=? 0xDBFF).
Definition low_surrogate (u : Z) : bool := (0xDC00 <=? u) && (u <=? 0xDFFF).

(** The string iterator behind [Array.from(text)]: a surrogate pair is one
    code point, any other code unit stands alone. *)
Fixpoint code_points (s : js_string) : list Z :=
  match s with
  | [] => []
  | u :: rest =>
      match rest with
      | v :: rest' =>
          if high_surrogate u && low_surrogate v
          then (0x10000 + (u - 0xD800) * 0x400 + (v - 0xDC00)) :: code_points rest'
          else u :: code_points rest
      | [] => [u]
      end
  end.

(** The values of the Unicode property Grapheme_Cluster_Break. *)
Inductive GCB : Type :=
| CR | LF | Control | Extend | ZWJ | Regional_Indicator | Prepend
| SpacingMark | L | V | T | LV | LVT | Other.

(** The values of Indic_Conjunct_Break. *)
Inductive InCB : Type :=
| InCB_None | InCB_Consonant | InCB_Extend | InCB_Linker.

(** The character data of the runtime's ICU. *)
Record UnicodeData : Type := {
  Grapheme_Cluster_Break : Z -> GCB;
  Extended_Pictographic : Z -> bool;
  Indic_Conjunct_Break : Z -> InCB
}.

Definition GCB_eqb (a b : GCB) : bool :=
  match a, b with
  | CR, CR | LF, LF | Control, Control | Extend, Extend | ZWJ, ZWJ
  | Regional_Indicator, Regional_Indicator | Prepend, Prepend
  | SpacingMark, SpacingMark | L, L | V, V | T, T | LV, LV | LVT, LVT
  | Other, Other => true
  | _, _ => false
  end.

Definition is_control (g : GCB) : bool :=
  match g with
  | CR | LF | Control => true
  | _ => false
  end.

Inductive emoji_state : Type :=
| NoEmoji      (* not inside ExtPict Extend* *)
| EmojiExtend  (* after ExtPict Extend* *)
| EmojiZwj.    (* after ExtPict Extend* ZWJ *)

Inductive conjunct_state : Type :=
| NoConsonant
| Consonant        (* after Consonant {Extend}* *)
| ConsonantLinked. (* after Consonant {Extend|Linker}* with a Linker *)

(** What the boundary rules need to know of the text before a position. *)
Record context : Type := {
  last_break : GCB;
  ri_odd : bool;
  emoji : emoji_state;
  conjunct : conjunct_state
}.

Definition advance (ucd : UnicodeData) (ctx : option context) (c : Z)
  : context :=
  let g := Grapheme_Cluster_Break ucd c in
  {| last_break := g;
     ri_odd :=
       match g with
       | Regional_Indicator =>
           negb (match ctx with Some x => ri_odd x | None => false end)
       | _ => false
       end;
     emoji :=
       if Extended_Pictographic ucd c then EmojiExtend
       else
         match ctx with
         | Some x =>
             match emoji x, g with
             | EmojiExtend, Extend => EmojiExtend
             | EmojiExtend, ZWJ => EmojiZwj
             | _, _ => NoEmoji
             end
         | None => NoEmoji
         end;
     conjunct :=
       match Indic_Conjunct_Break ucd c with
       | InCB_Consonant => Consonant
       | InCB_Extend =>
           match ctx with
           | Some x => conjunct x
           | None => NoConsonant
           end
       | InCB_Linker =>
           match ctx with
           | Some x =>
               match conjunct x with
               | NoConsonant => NoConsonant
               | _ => ConsonantLinked
               end
           | None => NoConsonant
           end
       | InCB_None => NoConsonant
       end |}.

(** The boundary rules of extended grapheme clusters, GB3 to GB999 of
    Unicode Standard Annex 29: is there a boundary before [c]? *)
Definition boundary (ucd : UnicodeData) (ctx : context) (c : Z) : bool :=
  let p := last_break ctx in
  let g := Grapheme_Cluster_Break ucd c in
  if GCB_eqb p CR && GCB_eqb g LF then false                        (* GB3 *)
  else if is_control p then true                                     (* GB4 *)
  else if is_control g then true                                     (* GB5 *)
  else if GCB_eqb p L
          && (GCB_eqb g L || GCB_eqb g V || GCB_eqb g LV || GCB_eqb g LVT)
       then false                                                    (* GB6 *)
  else if (GCB_eqb p LV || GCB_eqb p V) && (GCB_eqb g V || GCB_eqb g T)
       then false                                                    (* GB7 *)
  else if (GCB_eqb p LVT || GCB_eqb p T) && GCB_eqb g T then false   (* GB8 *)
  else if GCB_eqb g Extend || GCB_eqb g ZWJ then false               (* GB9 *)
  else if GCB_eqb g SpacingMark then false                           (* GB9a *)
  else if GCB_eqb p Prepend then false                               (* GB9b *)
  else if match conjunct ctx, Indic_Conjunct_Break ucd c with
          | ConsonantLinked, InCB_Consonant => true
          | _, _ => false
          end then false                                             (* GB9c *)
  else if match emoji ctx with EmojiZwj => true | _ => false end
          && Extended_Pictographic ucd c then false                  (* GB11 *)
  else if GCB_eqb p Regional_Indicator && GCB_eqb g Regional_Indicator
          && ri_odd ctx then false                               (* GB12, GB13 *)
  else true.                                                         (* GB999 *)

Fixpoint segments_from (ucd : UnicodeData) (ctx : context)
    (current : list Z) (rest : list Z) : list (list Z) :=
  match rest with
  | [] => [rev current]
  | c :: rest =>
      if boundary ucd ctx c
      then rev current :: segments_from ucd (advance ucd (Some ctx) c) [c] rest
      else segments_from ucd (advance ucd (Some ctx) c) (c :: current) rest
  end.

(** [Array.from(new Intl.Segmenter("ja", {granularity: "grapheme"})
    .segment(text))], each segment given by its code points. *)
Definition segment (ucd : UnicodeData) (text : js_string) : list (list Z) :=
  match code_points text with
  | [] => []
  | c :: rest => segments_from ucd (advance ucd None c) [c] rest
  end.

(** [countJapaneseGraphemes]; [Segmenter] is [globalThis.Intl?.Segmenter],
    [None] in a runtime that does not have it. *)
Definition countJapaneseGraphemes (Segmenter : option UnicodeData)
    (text : js_string) : nat :=
  match Segmenter with
  | None => length (code_points text)
  | Some ucd => length (segment ucd text)
  end.

(** The texts of the documented test cases. *)
Definition konnichiwa : js_string := [0x3053; 0x3093; 0x306B; 0x3061; 0x306F].
Definition konnichiwa_wave : js_string := konnichiwa ++ [0xD83D; 0xDC4B].
Definition flag_jp : js_string := [0xD83C; 0xDDEF; 0xD83C; 0xDDF5].
Definition family : js_string :=
  [0xD83D; 0xDC68; 0x200D; 0xD83D; 0xDC69; 0x200D;
   0xD83D; 0xDC67; 0x200D; 0xD83D; 0xDC66].
Definition yoshinoya : js_string := [0xD842; 0xDFB7; 0x91CE; 0x5BB6].

(** The character properties of the code points of these texts, as the
    Unicode Character Database gives them. *)
Definition documented_properties : list (Z * GCB * bool) :=
  [(0x3053, Other, false); (0x3093, Other, false); (0x306B, Other, false);
   (0x3061, Other, false); (0x306F, Other, false);
   (0x1F44B, Other, true);
   (0x1F1EF, Regional_Indicator, false); (0x1F1F5, Regional_Indicator, false);
   (0x1F468, Other, true); (0x1F469, Other, true);
   (0x1F467, Other, true); (0x1F466, Other, true);
   (0x200D, ZWJ, false);
   (0x20BB7, Other, false); (0x91CE, Other, false); (0x5BB6, Other, false)].

(** A table gives these properties to a code point.  Of
    Indic_Conjunct_Break, which came with Unicode 15.1, the code points of
    the texts have none, except ZERO WIDTH JOINER, which has had [Extend]
    since then: nothing is asked of a table about it. *)
Definition agrees (ucd : UnicodeData) (entry : Z * GCB * bool) : Prop :=
  Grapheme_Cluster_Break ucd (fst (fst entry)) = snd (fst entry)
  /\ Extended_Pictographic ucd (fst (fst entry)) = snd entry
  /\ (fst (fst entry) <> 0x200D ->
      Indic_Conjunct_Break ucd (fst (fst entry)) = InCB_None).

(** Two tables give a code point the same properties. *)
Definition same_at (ucd ucd' : UnicodeData) (c : Z) : Prop :=
  Grapheme_Cluster_Break ucd c = Grapheme_Cluster_Break ucd' c
  /\ Extended_Pictographic ucd c = Extended_Pictographic ucd' c
  /\ Indic_Conjunct_Break ucd c = Indic_Conjunct_Break ucd' c.

(** A table with the blocks the documented texts draw on, as Unicode had
    them up to version 15.0. *)
Definition sample_ucd : UnicodeData :=
  {| Grapheme_Cluster_Break := fun c =>
       if c =? 0x0D then CR
       else if c =? 0x0A then LF
       else if c <? 0x20 then Control
       else if c =? 0x200D then ZWJ
       else if (0x1F1E6 <=? c) && (c <=? 0x1F1FF) then Regional_Indicator
       else if (0x3099 <=? c) && (c <=? 0x309A) then Extend
       else if (0xFE00 <=? c) && (c <=? 0xFE0F) then Extend
       else if (0x1F3FB <=? c) && (c <=? 0x1F3FF) then Extend
       else Other;
     Extended_Pictographic := fun c => (0x1F400 <=? c) && (c <=? 0x1F4FF);
     Indic_Conjunct_Break := fun _ => InCB_None |}.

(** The same table with a value of Indic_Conjunct_Break for ZERO WIDTH
    JOINER; with [InCB_Extend] it is as Unicode has it from version 15.1
    on. *)
Definition sample_ucd_zwj (joiner : InCB) : UnicodeData :=
  {| Grapheme_Cluster_Break := Grapheme_Cluster_Break sample_ucd;
     Extended_Pictographic := Extended_Pictographic sample_ucd;
     Indic_Conjunct_Break := fun c => if c =? 0x200D then joiner else InCB_None |}.

End Graphemes.

(** ** Sample environment, used to run the handlers on concrete calls *)

Definition sample_isInitializeRequest (v : json) : bool :=
  match v with
  | JObj fields =>
      match Js.assoc "method" fields with
      | Some (JStr m) => String.eqb m "initialize"
      | _ => false
      end
  | _ => false
  end.

Definition sample_randomUUID (n : nat) : string :=
  "00000000-0000-4000-8000-" +:+ pretty n.

Definition sample_failure_message (f : failure) : string :=
  match f with
  | NotByteString text => "Cannot convert argument to a ByteString: " +:+ text
  | InvalidHeaderName name => "Headers.append: invalid header name: " +:+ name
  | InvalidHeaderValue value => "Headers.append: invalid header value: " +:+ value
  | StatusOutOfRange _ =>
      "init.status must be in the range of 200 to 599, inclusive."
  | NullBodyStatus status =>
      "Response constructor: Invalid response status code " +:+ pretty status
  end.

Definition production : Platform :=
  {| isInitializeRequest := sample_isInitializeRequest;
     randomUUID := sample_randomUUID;
     NODE_ENV := Some "production";
     failure_message := sample_failure_message |}.

Definition dev : Platform :=
  {| isInitializeRequest := sample_isInitializeRequest;
     randomUUID := sample_randomUUID;
     NODE_ENV := Some "development";
     failure_message := sample_failure_message |}.

Definition no_sessions : world :=
  {| transports := ∅;
     transportCount := 0;
     uuidCount := 0;
     streams := [];
     trace := [] |}.

(** The process after one initialization: one session, held by the first
    transport under the first id of the generator. *)
Definition one_session : world :=
  {| transports := {[sample_randomUUID 0 := 0%nat]};
     transportCount := 1;
     uuidCount := 1;
     streams := [];
     trace := [] |}.

Definition initialize_body : json :=
  JObj
    [("jsonrpc", JStr "2.0");
     ("id", JNum 1);
     ("method", JStr "initialize");
     ("params",
      JObj
        [("protocolVersion", JStr "2025-03-26");
         ("capabilities", JObj []);
         ("clientInfo",
          JObj [("name", JStr "client"); ("version", JStr "1.0.0")])])].

Definition tools_list_body : json :=
  JObj [("jsonrpc", JStr "2.0"); ("id", JNum 2); ("method", JStr "tools/list")].

Definition post_request (sessionId : option string) (body : thrown + json)
  : Request.t :=
  {| Request.method := "POST";
     Request.url := "http://localhost:3000/api/mcp";
     Request.headers :=
       match sessionId with
       | Some sid =>
           Headers.add "mcp-session-id" sid
             (Headers.add "content-type" "application/json" ∅)
       | None => Headers.add "content-type" "application/json" ∅
       end;
     Request.json := body |}.

Definition delete_request (sessionId : option string) : Request.t :=
  {| Request.method := "DELETE";
     Request.url := "http://localhost:3000/api/mcp";
     Request.headers :=
       match sessionId with
       | Some sid => Headers.add "mcp-session-id" sid ∅
       | None => ∅
       end;
     Request.json := inl (ErrorObject "SyntaxError" "Unexpected end of JSON input") |}.

(** An engine run shaped like the SDK's answer to [initialize] in JSON
    response mode: it reads the request, draws a session id, announces it,
    and answers with the id in the [mcp-session-id] header. *)
Definition announce_session (result : string) : engine :=
  Do readRequest (fun _ =>
  Do sessionIdGenerator (fun sid =>
  Do (onsessioninitialized sid) (fun _ =>
  Do (respond
        (Collector.CallWriteHead 200
           (Some (inr [("Content-Type", Single "application/json");
                       ("mcp-session-id", Single sid)]))
           None)) (fun _ =>
  Do (respond (Collector.CallEnd (Some (Text result)))) (fun _ =>
  Resolve))))).

(** An engine run that answers a request on an open session. *)
Definition answer (result : string) : engine :=
  Do readRequest (fun _ =>
  Do (respond
        (Collector.CallWriteHead 200
           (Some (inr [("Content-Type", Single "application/json")])) None))
     (fun _ =>
  Do (respond (Collector.CallEnd (Some (Text result)))) (fun _ =>
  Resolve))).

(** The run of the SDK's transport on an initialization when the response
    object is the one of [createServerResponse]: it reads the request,
    draws the session id and announces it; it then asks the response
    object for its [close] event ([res.on]), a method that object does not
    have, and its error handler answers 400 with a text that reports the
    error. *)
Definition initialize_without_on (report : string) : engine :=
  Do readRequest (fun _ =>
  Do sessionIdGenerator (fun sid =>
  Do (onsessioninitialized sid) (fun _ =>
  Do (respond (Collector.CallWriteHead 400 None None)) (fun _ =>
  Do (respond (Collector.CallEnd (Some (Text report)))) (fun _ =>
  Resolve))))).

(** An engine run that fails before it has drawn a session id. *)
Definition fail_early (e : thrown) : engine :=
  Do readRequest (fun _ => Reject e).

Definition engine_ok (e : engine) : behaviour :=
  {| connect := None; handleRequest := e |}.

(** ** The rest of the route and of the helpers *)

(** [OPTIONS]: [new NextResponse(null, { status: 204 })], which the
    constructor accepts, with the CORS headers. *)
Definition OPTIONS : NextResponse := setCorsHeaders (Response.make None 204 ∅).

(** The four headers [setCorsHeaders] sets, by lower-cased name. *)
Definition cors_headers : list (string * string) :=
  [("access-control-allow-origin", "*");
   ("access-control-allow-methods", "GET, POST, DELETE, OPTIONS");
   ("access-control-allow-headers", "Content-Type, Mcp-Session-Id, Authorization");
   ("access-control-expose-headers", "Mcp-Session-Id")].

(** Does a list of calls hold a [writeHead] or an [end]? *)
Definition sends_headers (c : Collector.call) : bool :=
  match c with
  | Collector.CallWriteHead _ _ _ | Collector.CallEnd _ => true
  | _ => false
  end.

(** The earlier collector, whose [getResponse] builds the response from the
    closure at the time it is called ([end] only notes that the headers
    are sent). *)
Module Collector0.

Record state : Type := mkState {
  statusCode : Z;
  headers : header_record;
  chunks : list string;
  headersSent : bool;
  response_statusCode : Z;
  response_statusMessage : string
}.

Definition createServerResponse : state :=
  {| statusCode := 200;
     headers := [];
     chunks := [];
     headersSent := false;
     response_statusCode := 200;
     response_statusMessage := "OK" |}.

Definition setHeader (name : string) (value : header_value) (s : state)
  : state :=
  {| statusCode := statusCode s;
     headers := HeaderRecord.set name value (headers s);
     chunks := chunks s;
     headersSent := headersSent s;
     response_statusCode := response_statusCode s;
     response_statusMessage := response_statusMessage s |}.

Definition removeHeader (name : string) (s : state) : state :=
  {| statusCode := statusCode s;
     headers := HeaderRecord.delete name (headers s);
     chunks := chunks s;
     headersSent := headersSent s;
     response_statusCode := response_statusCode s;
     response_statusMessage := response_statusMessage s |}.

Definition write (c : chunk) (s : state) : state :=
  {| statusCode := statusCode s;
     headers := headers s;
     chunks := chunks s ++ [Buffer_from c];
     headersSent := headersSent s;
     response_statusCode := response_statusCode s;
     response_statusMessage := response_statusMessage s |}.

Definition end_ (c : option chunk) (s : state) : state :=
  {| statusCode := statusCode s;
     headers := headers s;
     chunks :=
       match c with
       | Some c => if chunk_truthy c then chunks s ++ [Buffer_from c] else chunks s
       | None => chunks s
       end;
     headersSent := true;
     response_statusCode := response_statusCode s;
     response_statusMessage := response_statusMessage s |}.

Definition writeHead (code : Z)
    (messageOrHeaders : option (string + header_record))
    (responseHeaders : option header_record) (s : state) : state :=
  {| statusCode := code;
     headers :=
       match messageOrHeaders with
       | Some (inl _) =>
           match responseHeaders with
           | Some hs => HeaderRecord.assign (headers s) hs
           | None => headers s
           end
       | Some (inr hs) => HeaderRecord.assign (headers s) hs
       | None => headers s
       end;
     chunks := chunks s;
     headersSent := true;
     response_statusCode := code;
     response_statusMessage :=
       match messageOrHeaders with
       | Some (inl message) => message
       | _ => response_statusMessage s
       end |}.

Definition assign_statusCode (code : Z) (s : state) : state :=
  {| statusCode := statusCode s;
     headers := headers s;
     chunks := chunks s;
     headersSent := headersSent s;
     response_statusCode := code;
     response_statusMessage := response_statusMessage s |}.

Definition step (s : state) (c : Collector.call) : state :=
  match c with
  | Collector.CallSetHeader name value => setHeader name value s
  | Collector.CallRemoveHeader name => removeHeader name s
  | Collector.CallWrite c => write c s
  | Collector.CallEnd c => end_ c s
  | Collector.CallWriteHead code m hs => writeHead code m hs s
  | Collector.CallAssignStatusCode code => assign_statusCode code s
  end.

Definition run (calls : list Collector.call) (s : state) : state :=
  foldl step s calls.

(** [await getResponse()]: the response, or what its constructors throw. *)
Definition getResponse (s : state) : failure + NextResponse :=
  Collector.build (statusCode s) (headers s) (chunks s).

(** What the later collector keeps of this closure. *)
Definition closure (s : Collector.state) : state :=
  {| statusCode := Collector.statusCode s;
     headers := Collector.headers s;
     chunks := Collector.chunks s;
     headersSent := Collector.headersSent s;
     response_statusCode := Collector.response_statusCode s;
     response_statusMessage := Collector.response_statusMessage s |}.

End Collector0.

(** The earlier adapter: a [Readable] whose [read()] pushes the serialized
    body when there is one, then the end of the stream. *)
Module Adapter0.

Record IncomingMessage : Type := {
  stream : nat;
  headers : gmap string string;
  method : string;
  url : string;
  httpVersion : string;
  httpVersionMajor : Z;
  httpVersionMinor : Z;
  aborted : bool;
  complete : bool;
  readable : bool
}.

(** The chunks [read()] pushes: [if (body) this.push(JSON.stringify(body))]. *)
Definition pushed (body : option json) : list string :=
  match body with
  | Some b => if Js.truthy b then [JSON.stringify b] else []
  | None => []
  end.

Definition createIncomingMessage (req : Request.t) (body : option json)
    (heap : readables) : IncomingMessage * readables :=
  let '(r, heap') := Adapter.Readable_from (pushed body) heap in
  ({| stream := r;
      headers := Adapter.headers_record (Request.headers req);
      method := Request.method req;
      url := Request.url req;
      httpVersion := "1.1";
      httpVersionMajor := 1;
      httpVersionMinor := 1;
      aborted := false;
      complete := false;
      readable := true |}, heap').

End Adapter0.

(** The property names every object inherits from [Object.prototype]; a
    header record answers for them whether or not they were set. *)
Definition Object_prototype_names : list string :=
  ["constructor"; "__defineGetter__"; "__defineSetter__"; "hasOwnProperty";
   "__lookupGetter__"; "__lookupSetter__"; "isPrototypeOf";
   "propertyIsEnumerable"; "toString"; "valueOf"; "__proto__";
   "toLocaleString"].

(** Is [end] given bytes to add: a [Buffer], or a string other than the
    empty one? *)
Definition final_truthy (c : option chunk) : bool :=
  match c with
  | Some (Text EmptyString) | None => false
  | Some _ => true
  end.

(** Does a call add a chunk to the buffer: a [write], or an [end] that is
    given bytes? *)
Definition adds_chunk (c : Collector.call) : bool :=
  match c with
  | Collector.CallWrite _ => true
  | Collector.CallEnd c => final_truthy c
  | _ => false
  end.

(** Is there a chunk in the buffer after the calls [pre] and the [end]
    that follows them? *)
Definition with_body (pre : list Collector.call) (c : option chunk) : bool :=
  existsb adds_chunk (pre ++ [Collector.CallEnd c]).

(** What [new Headers(..)] accepts of an array of pairs: names and values
    are byte strings, a name is a token, a value without the blanks at its
    ends holds no NUL and no line break. *)
Definition acceptable_entry (e : string * string) : bool :=
  (Headers.is_byte_string (fst e) && Headers.is_byte_string (snd e)
   && Headers.is_name (fst e)
   && Headers.is_value (Headers.normalize (snd e)))%bool.

Definition acceptable_headers (r : header_record) : bool :=
  forallb acceptable_entry (HeaderRecord.entries r).

(** What [new Response(..)] accepts as the status, given from [writeHead]:
    taken modulo 2^16 it lies in 200..599, and is not one of 204, 205 and
    304 when there is a body. *)
Definition acceptable_status (code : Z) (with_body : bool) : bool :=
  ((200 <=? code mod 65536)%Z && (code mod 65536 <=? 599)%Z
   && negb (with_body
            && (((code mod 65536 =? 204) || (code mod 65536 =? 205)
                 || (code mod 65536 =? 304))%Z)))%bool.


(** A code point that is neither a mark, a joiner, a control, a Hangul
    jamo, a regional indicator nor an Indic consonant or linker: a letter,
    a kana, an ideograph, a symbol. *)
Definition plain_code_point (ucd : Graphemes.UnicodeData) (c : Z) : Prop :=
  Graphemes.Grapheme_Cluster_Break ucd c = Graphemes.Other
  /\ Graphemes.Indic_Conjunct_Break ucd c = Graphemes.InCB_None.

(** A regional indicator symbol. *)
Definition regional_indicator (ucd : Graphemes.UnicodeData) (c : Z) : Prop :=
  Graphemes.Grapheme_Cluster_Break ucd c = Graphemes.Regional_Indicator
  /\ Graphemes.Extended_Pictographic ucd c = false
  /\ Graphemes.Indic_Conjunct_Break ucd c = Graphemes.InCB_None.

(** * Properties *)

(** ** Bytes and text *)

Section TextFacts.

Lemma decode_afresh (b : ascii) (rest : string) :
  Utf8.decode_from "" 0 128 191 (String b rest)
  = if in_range 0 127 b then String b (Utf8.decode_from "" 0 128 191 rest)
    else if in_range 194 223 b
    then Utf8.decode_from (String b "") 1 128 191 rest
    else if in_range 224 239 b
    then Utf8.decode_from (String b "") 2
           (if is_byte 224 b then 160 else 128)
           (if is_byte 237 b then 159 else 191) rest
    else if in_range 240 244 b
    then Utf8.decode_from (String b "") 3
           (if is_byte 240 b then 144 else 128)
           (if is_byte 244 b then 143 else 191) rest
    else Utf8.replacement +:+ Utf8.decode_from "" 0 128 191 rest.
Proof. reflexivity. Qed.

Lemma decode_last (seen : string) (lower upper : nat) (b : ascii)
    (rest : string) :
  in_range lower upper b = true ->
  Utf8.decode_from seen 1 lower upper (String b rest)
  = seen +:+ String b (Utf8.decode_from "" 0 128 191 rest).
Proof. intros Hb. cbn [Utf8.decode_from]. rewrite Hb. reflexivity. Qed.

Lemma decode_more (seen : string) (more lower upper : nat) (b : ascii)
    (rest : string) :
  in_range lower upper b = true ->
  Utf8.decode_from seen (S (S more)) lower upper (String b rest)
  = Utf8.decode_from (seen +:+ String b "") (S more) 128 191 rest.
Proof. intros Hb. cbn [Utf8.decode_from]. rewrite Hb. reflexivity. Qed.

Lemma decode_well_formed_bounded (n : nat) (s : string) :
  (String.length s <= n)%nat ->
  Utf8.well_formed s = true ->
  Utf8.decode_from "" 0 128 191 s = s.
Proof.
  revert s. induction n as [|n IH]; intros s Hlen Hwf.
  - destruct s; [reflexivity|simpl in Hlen; lia].
  - destruct s as [|b0 r0]; [reflexivity|].
    rewrite decode_afresh. cbn [Utf8.well_formed] in Hwf. simpl in Hlen.
    destruct (in_range 0 127 b0).
    { rewrite IH; [reflexivity|lia|exact Hwf]. }
    destruct r0 as [|b1 r1]; [discriminate|]. simpl in Hlen.
    destruct (in_range 194 223 b0).
    { apply andb_true_iff in Hwf as [H1 Hwf].
      rewrite (decode_last _ _ _ _ _ H1), IH; [reflexivity|lia|exact Hwf]. }
    destruct r1 as [|b2 r2]; [discriminate|]. simpl in Hlen.
    destruct (in_range 224 239 b0).
    { apply andb_true_iff in Hwf as [Hwf Hr].
      apply andb_true_iff in Hwf as [H1 H2].
      rewrite (decode_more _ _ _ _ _ _ H1), (decode_last _ _ _ _ _ H2), IH;
        [reflexivity|lia|exact Hr]. }
    destruct r2 as [|b3 r3]; [discriminate|]. simpl in Hlen.
    apply andb_true_iff in Hwf as [Hwf Hr].
    apply andb_true_iff in Hwf as [Hwf H3].
    apply andb_true_iff in Hwf as [Hwf H2].
    apply andb_true_iff in Hwf as [H0 H1].
    rewrite H0.
    rewrite (decode_more _ _ _ _ _ _ H1), (decode_more _ _ _ _ _ _ H2),
      (decode_last _ _ _ _ _ H3), IH; [reflexivity|lia|exact Hr].
Qed.

(** Decoding leaves well-formed UTF-8 as it is. *)
Lemma decode_well_formed (s : string) :
  Utf8.well_formed s = true -> Utf8.decode s = s.
Proof. apply (decode_well_formed_bounded (String.length s)). lia. Qed.

End TextFacts.

(** ** Headers *)

Section HeadersFacts.

Lemma get_set_ne (name name' value : string) (h : Headers.t) :
  lower name' <> lower name ->
  Headers.get name (Headers.set name' value h) = Headers.get name h.
Proof.
  intros Hne. unfold Headers.get, Headers.set.
  rewrite lookup_insert_ne by exact Hne. reflexivity.
Qed.

Lemma get_add_ne (name name' value : string) (h : Headers.t) :
  lower name' <> lower name ->
  Headers.get name (Headers.add name' value h) = Headers.get name h.
Proof.
  intros Hne. unfold Headers.get, Headers.add.
  rewrite lookup_insert_ne by exact Hne. reflexivity.
Qed.

Lemma get_copy (name : string) (h : Headers.t) :
  Headers.get name (Headers.copy h) = Headers.get name h.
Proof.
  unfold Headers.get, Headers.copy. rewrite map_lookup_imap.
  destruct (h !! lower name) as [vs|]; [|reflexivity]. simpl.
  destruct (String.eqb (lower name) "set-cookie"); reflexivity.
Qed.

(** The CORS headers leave every other header as it is. *)
Lemma get_setCorsHeaders (name : string) (r : NextResponse) :
  lower name <> "access-control-allow-origin" ->
  lower name <> "access-control-allow-methods" ->
  lower name <> "access-control-allow-headers" ->
  lower name <> "access-control-expose-headers" ->
  Headers.get name (headers (setCorsHeaders r)) = Headers.get name (headers r).
Proof.
  intros H1 H2 H3 H4. unfold setCorsHeaders. simpl.
  rewrite !get_set_ne; [reflexivity| | | |];
    intros E;
    match goal with
    | H : lower name <> _ |- _ => apply H; rewrite <- E; reflexivity
    end.
Qed.

Lemma get_Response_make (name : string) (b : option string) (st : Z)
    (h : Headers.t) :
  lower name <> "content-type" ->
  Headers.get name (headers (Response.make b st h)) = Headers.get name h.
Proof.
  intros Hne. unfold Response.make. simpl.
  destruct b; [|reflexivity].
  destruct (Headers.has "content-type" h); [reflexivity|].
  apply get_add_ne. intros E. apply Hne. rewrite <- E. reflexivity.
Qed.

(** The constructor of a response accepts a status and a body, or refuses
    them, whatever the headers. *)
Lemma new_accepts (b : option string) (code : Z) (h : Headers.t) :
  acceptable_status code (bool_decide (is_Some b)) = true ->
  Response.new b code h = inr (Response.make b (code mod 65536) h).
Proof.
  unfold acceptable_status, Response.new, Response.unsigned_short,
    Response.null_body_status.
  intros Hok. apply andb_true_iff in Hok as [Hrange Hbody].
  apply andb_true_iff in Hrange as [Hlo Hhi].
  apply Z.leb_le in Hlo. apply Z.leb_le in Hhi.
  destruct (Z.ltb_spec (code mod 65536) 200); [lia|].
  destruct (Z.ltb_spec 599 (code mod 65536)); [lia|]. simpl.
  destruct b as [text|]; [|reflexivity].
  rewrite bool_decide_eq_true_2 in Hbody by eauto. simpl in Hbody.
  apply negb_true_iff in Hbody.
  destruct (Z.eqb_spec (code mod 65536) 101); [lia|].
  destruct (Z.eqb_spec (code mod 65536) 103); [lia|]. simpl.
  rewrite Hbody. reflexivity.
Qed.

Lemma new_refuses (b : option string) (code : Z) (h : Headers.t) :
  acceptable_status code (bool_decide (is_Some b)) = false ->
  exists f : failure, Response.new b code h = inl f.
Proof.
  unfold acceptable_status, Response.new, Response.unsigned_short,
    Response.null_body_status.
  intros Hno.
  destruct ((code mod 65536 <? 200)%Z || (599 <? code mod 65536)%Z)%bool eqn:Hr;
    [eauto|].
  apply orb_false_iff in Hr as [Hlo Hhi].
  apply Z.ltb_ge in Hlo. apply Z.ltb_ge in Hhi.
  apply Z.leb_le in Hlo. apply Z.leb_le in Hhi. rewrite Hlo, Hhi in Hno.
  simpl in Hno. apply negb_false_iff in Hno.
  apply andb_true_iff in Hno as [Hb Hnull].
  apply bool_decide_eq_true in Hb as [text ->].
  destruct (code mod 65536 =? 101)%Z; [eauto|].
  destruct (code mod 65536 =? 103)%Z; [eauto|]. simpl.
  rewrite Hnull. eauto.
Qed.

(** [new Headers(entries)]: the pairs it accepts, and what it then
    holds. *)
Lemma not_byte_string_None (entries : list (string * string)) :
  forallb acceptable_entry entries = true ->
  Headers.not_byte_string entries = None.
Proof.
  induction entries as [|[n v] entries IH]; [reflexivity|].
  simpl. unfold acceptable_entry at 1. simpl. intros H.
  apply andb_true_iff in H as [H Hrest].
  apply andb_true_iff in H as [H _]. apply andb_true_iff in H as [H _].
  apply andb_true_iff in H as [Hn Hv]. rewrite Hn, Hv. simpl.
  apply IH, Hrest.
Qed.

Lemma fill_accepts (entries : list (string * string)) (h : Headers.t) :
  forallb acceptable_entry entries = true ->
  Headers.fill h entries
  = inr (foldl (fun h e => Headers.add (fst e) (Headers.normalize (snd e)) h)
           h entries).
Proof.
  revert h. induction entries as [|[n v] entries IH]; intros h; [reflexivity|].
  simpl. unfold acceptable_entry at 1. simpl. intros H.
  apply andb_true_iff in H as [H Hrest].
  apply andb_true_iff in H as [H Hvalue]. apply andb_true_iff in H as [_ Hname].
  unfold Headers.append. rewrite Hname, Hvalue. simpl. apply IH, Hrest.
Qed.

Lemma fill_refuses (entries : list (string * string)) (h : Headers.t) :
  Headers.not_byte_string entries = None ->
  forallb acceptable_entry entries = false ->
  exists f : failure, Headers.fill h entries = inl f.
Proof.
  revert h. induction entries as [|[n v] entries IH]; intros h; [discriminate|].
  simpl. unfold acceptable_entry at 1. simpl.
  destruct (Headers.is_byte_string n); [|discriminate].
  destruct (Headers.is_byte_string v); [|discriminate]. simpl.
  intros Hbytes Hno. unfold Headers.append.
  destruct (Headers.is_name n); simpl; [|eauto].
  destruct (Headers.is_value (Headers.normalize v)); simpl; [|eauto].
  simpl in Hno. apply (IH _ Hbytes Hno).
Qed.

Lemma lookup_foldl_add (key : string) (entries : list (string * string))
    (h : Headers.t) :
  foldl (fun h e => Headers.add (fst e) (Headers.normalize (snd e)) h) h entries
    !! key
  = match Headers.values_of key entries with
    | [] => h !! key
    | vs => Some (default [] (h !! key) ++ map Headers.normalize vs)
    end.
Proof.
  revert h. induction entries as [|[n v] entries IH]; intros h; [reflexivity|].
  simpl foldl. rewrite IH. unfold Headers.values_of. rewrite filter_cons. simpl.
  unfold Headers.add.
  destruct (decide (lower n = key)) as [->|Hne]; simpl.
  - rewrite lookup_insert_eq. simpl.
    destruct (map snd (filter _ entries)) as [|v' vs] eqn:Hvs; simpl.
    + reflexivity.
    + rewrite <- app_assoc. reflexivity.
  - rewrite lookup_insert_ne by exact Hne. reflexivity.
Qed.

Lemma of_entries_accepts (entries : list (string * string)) :
  forallb acceptable_entry entries = true ->
  exists h : Headers.t,
    Headers.of_entries entries = inr h
    /\ forall name : string,
         Headers.get name h
         = match Headers.values_of (lower name) entries with
           | [] => None
           | vs => Some (Headers.combine (map Headers.normalize vs))
           end.
Proof.
  intros Hok. unfold Headers.of_entries.
  rewrite (not_byte_string_None entries Hok), (fill_accepts entries ∅ Hok).
  eexists. split; [reflexivity|]. intros name.
  unfold Headers.get. rewrite lookup_foldl_add, lookup_empty.
  destruct (Headers.values_of (lower name) entries); reflexivity.
Qed.

Lemma of_entries_refuses (entries : list (string * string)) :
  forallb acceptable_entry entries = false ->
  exists f : failure, Headers.of_entries entries = inl f.
Proof.
  intros Hno. unfold Headers.of_entries.
  destruct (Headers.not_byte_string entries) eqn:Hbytes; [eauto|].
  apply (fill_refuses entries ∅ Hbytes Hno).
Qed.

End HeadersFacts.

(** ** The response collector *)

Section CollectorFacts.

Import Collector.

Lemma run_cons (c : call) (calls : list call) (s : state) :
  run (c :: calls) s = run calls (step s c).
Proof. reflexivity. Qed.

Lemma run_app (calls more : list call) (s : state) :
  run (calls ++ more) s = run more (run calls s).
Proof. unfold run. apply foldl_app. Qed.

(** A settled promise stays as it is, whatever is called afterwards. *)
Lemma settled_step (c : call) (s : state) (r : NextResponse) :
  responsePromise s = Some r -> responsePromise (step s c) = Some r.
Proof.
  intros Hs. destruct c; simpl; rewrite ?Hs; try reflexivity.
  destruct (build _ _ _); reflexivity.
Qed.

Lemma settled_run (calls : list call) (s : state) (r : NextResponse) :
  responsePromise s = Some r -> responsePromise (run calls s) = Some r.
Proof.
  revert s. induction calls as [|c calls IH]; intros s Hs; [exact Hs|].
  rewrite run_cons. apply IH, settled_step, Hs.
Qed.

(** Only [end] settles the promise. *)
Lemma pending_step (c : call) (s : state) :
  is_end c = false -> responsePromise (step s c) = responsePromise s.
Proof. destruct c; simpl; intros; congruence. Qed.

Lemma push_final_written (c : option chunk) (chunks : list string) :
  push_final c chunks = chunks ++ written (CallEnd c).
Proof.
  destruct c as [[[|a s]|b]|]; simpl; rewrite ?app_nil_r; reflexivity.
Qed.

Lemma chunks_step (c : call) (s : state) :
  chunks (step s c) = chunks s ++ written c.
Proof.
  destruct c as [| |[t|b]|ch| |]; simpl; rewrite ?app_nil_r; try reflexivity.
  apply push_final_written.
Qed.

Lemma statusCode_step (c : call) (s : state) :
  statusCode (step s c) = last_writeHead (statusCode s) [c].
Proof. destruct c; reflexivity. Qed.

Lemma last_writeHead_cons (d : Z) (c : call) (calls : list call) :
  last_writeHead d (c :: calls) = last_writeHead (last_writeHead d [c]) calls.
Proof. reflexivity. Qed.

Lemma last_writeHead_app (d : Z) (calls more : list call) :
  last_writeHead d (calls ++ more) = last_writeHead (last_writeHead d calls) more.
Proof. unfold last_writeHead. apply foldl_app. Qed.

Lemma last_writeHead_none (d : Z) (calls : list call) :
  forallb (fun x => negb (is_writeHead x)) calls = true ->
  last_writeHead d calls = d.
Proof.
  revert d. induction calls as [|x calls IH]; intros d H; [reflexivity|].
  simpl in H. apply andb_true_iff in H as [Hx Hcalls].
  rewrite last_writeHead_cons, (IH _ Hcalls).
  destruct x; try reflexivity. discriminate.
Qed.

(** What the closure holds after some calls. *)
Lemma chunks_run (calls : list call) (s : state) :
  chunks (run calls s) = chunks s ++ flat_map written calls.
Proof.
  revert s. induction calls as [|c calls IH]; intros s; simpl flat_map.
  - rewrite app_nil_r. reflexivity.
  - rewrite run_cons, IH, chunks_step, <- app_assoc. reflexivity.
Qed.

Lemma statusCode_run (calls : list call) (s : state) :
  statusCode (run calls s) = last_writeHead (statusCode s) calls.
Proof.
  revert s. induction calls as [|c calls IH]; intros s; [reflexivity|].
  rewrite run_cons, IH, statusCode_step. reflexivity.
Qed.

Lemma adds_chunk_flat_map (calls : list call) :
  match flat_map written calls with
  | [] => false
  | _ => true
  end = existsb adds_chunk calls.
Proof.
  induction calls as [|c calls IH]; [reflexivity|]. simpl.
  destruct c as [| |[t|b]|[[[|a t]|b]|]| |]; simpl; try exact IH; reflexivity.
Qed.

Lemma body_of_is_Some (chunks : list string) :
  bool_decide (is_Some (body_of chunks))
  = match chunks with
    | [] => false
    | _ => true
    end.
Proof.
  destruct chunks; unfold body_of.
  - apply bool_decide_eq_false_2. intros [x Hx]. discriminate.
  - apply bool_decide_eq_true_2. eauto.
Qed.

(** What [end] builds, when the platform accepts the headers and the
    status, and that it throws when the platform does not. *)
Lemma build_accepts (code : Z) (hs : header_record) (chunks : list string) :
  acceptable_headers hs = true ->
  acceptable_status code
    match chunks with
    | [] => false
    | _ => true
    end = true ->
  exists h : Headers.t,
    build code hs chunks = inr (Response.make (body_of chunks) (code mod 65536) h)
    /\ forall name : string,
         Headers.get name h
         = match Headers.values_of (lower name) (HeaderRecord.entries hs) with
           | [] => None
           | vs => Some (Headers.combine (map Headers.normalize vs))
           end.
Proof.
  intros Hh Hs. unfold build.
  destruct (of_entries_accepts _ Hh) as (h & -> & Hget).
  exists h. split; [|exact Hget].
  apply new_accepts. rewrite body_of_is_Some. exact Hs.
Qed.

Lemma build_refuses (code : Z) (hs : header_record) (chunks : list string) :
  (acceptable_headers hs
   && acceptable_status code
        match chunks with
        | [] => false
        | _ => true
        end)%bool = false ->
  exists f : failure, build code hs chunks = inl f.
Proof.
  intros Hno. unfold build.
  destruct (acceptable_headers hs) eqn:Hh.
  - destruct (of_entries_accepts _ Hh) as (h & -> & _).
    apply new_refuses. rewrite body_of_is_Some. exact Hno.
  - destruct (of_entries_refuses _ Hh) as [f ->]. eauto.
Qed.

Lemma throws_end (s : state) (c : option chunk) :
  throws s (CallEnd c) = None
  <-> (acceptable_headers (headers s)
       && acceptable_status (statusCode s)
            match chunks s ++ written (CallEnd c) with
            | [] => false
            | _ => true
            end)%bool = true.
Proof.
  unfold throws. rewrite push_final_written.
  destruct (acceptable_headers (headers s)
            && acceptable_status (statusCode s)
                 match chunks s ++ written (CallEnd c) with
                 | [] => false
                 | _ => true
                 end)%bool eqn:Hok.
  - apply andb_true_iff in Hok as [Hh Hs].
    destruct (build_accepts _ _ _ Hh Hs) as (h & -> & _). tauto.
  - destruct (build_refuses _ _ _ Hok) as [f ->]. split; discriminate.
Qed.

(** An [end] that does not throw settles a pending promise with what it
    has built; one that throws leaves the promise as it is. *)
Lemma end_resolves (s : state) (c : option chunk) :
  responsePromise s = None ->
  throws s (CallEnd c) = None ->
  exists h : Headers.t,
    responsePromise (end_ c s)
    = Some (Response.make (body_of (chunks s ++ written (CallEnd c)))
              (statusCode s mod 65536) h)
    /\ forall name : string,
         Headers.get name h
         = match Headers.values_of (lower name)
                   (HeaderRecord.entries (headers s)) with
           | [] => None
           | vs => Some (Headers.combine (map Headers.normalize vs))
           end.
Proof.
  intros Hp Hok. apply throws_end in Hok.
  apply andb_true_iff in Hok as [Hh Hs].
  destruct (build_accepts _ _ _ Hh Hs) as (h & Hbuild & Hget).
  exists h. split; [|exact Hget].
  unfold end_. simpl. rewrite push_final_written, Hbuild, Hp. reflexivity.
Qed.

Lemma end_throws (s : state) (c : option chunk) (f : failure) :
  throws s (CallEnd c) = Some f ->
  responsePromise (end_ c s) = responsePromise s.
Proof.
  unfold throws, end_. simpl.
  destruct (build _ _ _); [reflexivity|discriminate].
Qed.

(** A promise that is settled after some calls was settled by an [end]
    among them that did not throw, before which it was pending. *)
Lemma settled_by_end (calls : list call) (s : state) (r : NextResponse) :
  responsePromise s = None ->
  responsePromise (run calls s) = Some r ->
  exists (pre : list call) (c : option chunk) (post : list call),
    calls = pre ++ CallEnd c :: post
    /\ responsePromise (run pre s) = None
    /\ throws (run pre s) (CallEnd c) = None
    /\ responsePromise (run (pre ++ [CallEnd c]) s) = Some r.
Proof.
  revert s. induction calls as [|x calls IH]; intros s Hp Hr.
  - simpl in Hr. congruence.
  - rewrite run_cons in Hr.
    destruct (responsePromise (step s x)) as [r'|] eqn:Hstep.
    + rewrite (settled_run calls _ _ Hstep) in Hr. injection Hr as ->.
      destruct (is_end x) eqn:Hx;
        [|rewrite (pending_step x s Hx) in Hstep; congruence].
      destruct x as [| | |c| |]; try discriminate.
      exists [], c, calls. split; [reflexivity|]. split; [exact Hp|].
      split; [|exact Hstep].
      change (throws s (CallEnd c) = None).
      destruct (throws s (CallEnd c)) as [f|] eqn:Hthrows; [|reflexivity].
      change (responsePromise (end_ c s) = Some r) in Hstep.
      rewrite (end_throws s c f Hthrows) in Hstep. congruence.
    + destruct (IH _ Hstep Hr) as (pre & c & post & -> & Hpre & Hok & Hres).
      exists (x :: pre), c, post. split; [reflexivity|].
      split; [exact Hpre|]. split; [exact Hok|exact Hres].
Qed.

Lemma same_closure_step (c : call) (s s' : state) :
  same_closure s s' -> same_closure (step s c) (step s' c).
Proof.
  unfold same_closure. intros (H1 & H2 & H3 & H4 & H5 & H6).
  destruct c; simpl; rewrite ?H1, ?H2, ?H3, ?H4, ?H5, ?H6; auto 10.
Qed.

Lemma same_closure_run (calls : list call) (s s' : state) :
  same_closure s s' -> same_closure (run calls s) (run calls s').
Proof.
  revert s s'. induction calls as [|c calls IH]; intros s s' H; [exact H|].
  rewrite !run_cons. apply IH, same_closure_step, H.
Qed.

Lemma same_closure_assign (code : Z) (s : state) :
  same_closure (assign_statusCode code s) s.
Proof. unfold same_closure. simpl. auto 10. Qed.

(** The [end] that follows the calls [pre] on a new collector throws
    exactly when the platform refuses the headers set by then, or the
    status. *)
Lemma throws_after (pre : list call) (c : option chunk) :
  throws (run pre createServerResponse) (CallEnd c) = None
  <-> (acceptable_headers (headers (run pre createServerResponse))
       && acceptable_status (last_writeHead 200 pre) (with_body pre c))%bool
      = true.
Proof.
  rewrite throws_end, chunks_run, statusCode_run. simpl chunks.
  simpl statusCode. unfold with_body.
  rewrite <- adds_chunk_flat_map, flat_map_app. simpl flat_map.
  rewrite app_nil_r. reflexivity.
Qed.

(** The response the [end] after [pre] settles the promise with. *)
Lemma resolved_after (pre : list call) (c : option chunk) (post : list call) :
  getResponse (run pre createServerResponse) = None ->
  throws (run pre createServerResponse) (CallEnd c) = None ->
  exists h : Headers.t,
    getResponse (run (pre ++ CallEnd c :: post) createServerResponse)
    = Some (Response.make
              (body_of (flat_map written (pre ++ [CallEnd c])))
              (last_writeHead 200 pre mod 65536) h)
    /\ forall name : string,
         Headers.get name h
         = match Headers.values_of (lower name)
                   (HeaderRecord.entries
                      (headers (run pre createServerResponse))) with
           | [] => None
           | vs => Some (Headers.combine (map Headers.normalize vs))
           end.
Proof.
  intros Hp Hok.
  destruct (end_resolves _ c Hp Hok) as (h & Hend & Hget).
  exists h. split; [|exact Hget].
  unfold getResponse. rewrite run_app, run_cons.
  change (step (run pre createServerResponse) (CallEnd c))
    with (end_ c (run pre createServerResponse)).
  rewrite (settled_run post _ _ Hend).
  rewrite chunks_run, statusCode_run, flat_map_app.
  simpl chunks. simpl statusCode. simpl flat_map.
  rewrite app_nil_r. reflexivity.
Qed.

End CollectorFacts.

Section CollectorClaims.

Import Collector.

Lemma body_of_with_body (pre : list call) (c : option chunk) :
  body_of (flat_map written (pre ++ [CallEnd c]))
  = if with_body pre c
    then Some (Utf8.decode
                 (String.concat "" (flat_map written (pre ++ [CallEnd c]))))
    else None.
Proof.
  unfold with_body. rewrite <- adds_chunk_flat_map.
  destruct (flat_map written (pre ++ [CallEnd c])); reflexivity.
Qed.

(** The claim as first stated does not hold of a [Buffer] that is not
    UTF-8: the body is made by [toString("utf-8")], which gives U+FFFD
    for the byte 0xFF, and is not the bytes that were written. *)
Lemma ill_formed_chunk_is_not_kept :
  body <$> getResponse
             (run [CallWrite (Bytes (String (ascii_of_nat 255) EmptyString));
                   CallEnd None] createServerResponse)
  <> Some (Some (String.concat ""
                   (flat_map written
                      [CallWrite (Bytes (String (ascii_of_nat 255) EmptyString));
                       CallEnd None]))).
Proof. vm_compute. discriminate. Qed.

(** C6 (amended). After the writes "a" then "b" and [end()] without a
    chunk the promise of the collector is resolved with the body "ab", and
    so it is after the write "a" and [end("b")].  In general an [end] that
    finds the promise pending and does not throw resolves it: the body of
    the response is the UTF-8 decoding of the concatenation, in write
    order, of the chunks written so far and of the chunk given to this
    [end] (the concatenation itself when that is well-formed UTF-8, no
    body when there is no chunk), and no later call, further [end]s
    included, changes the promise.  The promise is resolved by such an
    [end] and by nothing else, and an [end] throws exactly when the
    platform refuses the headers or the status. *)
Theorem collector_resolves_once_with_concatenation :
  body <$> getResponse
             (run [CallWrite (Text "a"); CallWrite (Text "b"); CallEnd None]
                createServerResponse)
  = Some (Some "ab")
  /\ body <$> getResponse
                (run [CallWrite (Text "a"); CallEnd (Some (Text "b"))]
                   createServerResponse)
     = Some (Some "ab")
  /\ (forall (pre : list call) (c : option chunk) (post : list call),
        getResponse (run pre createServerResponse) = None ->
        throws (run pre createServerResponse) (CallEnd c) = None ->
        exists r : NextResponse,
          getResponse (run (pre ++ [CallEnd c]) createServerResponse) = Some r
          /\ body r
             = (if with_body pre c
                then Some (Utf8.decode
                             (String.concat ""
                                (flat_map written (pre ++ [CallEnd c]))))
                else None)
          /\ (with_body pre c = true ->
              Utf8.well_formed
                (String.concat "" (flat_map written (pre ++ [CallEnd c])))
              = true ->
              body r
              = Some (String.concat "" (flat_map written (pre ++ [CallEnd c]))))
          /\ getResponse (run (pre ++ CallEnd c :: post) createServerResponse)
             = Some r)
  /\ (forall (calls : list call) (r : NextResponse),
        getResponse (run calls createServerResponse) = Some r ->
        exists (pre : list call) (c : option chunk) (post : list call),
          calls = pre ++ CallEnd c :: post
          /\ getResponse (run pre createServerResponse) = None
          /\ throws (run pre createServerResponse) (CallEnd c) = None)
  /\ (forall (pre : list call) (c : option chunk),
        throws (run pre createServerResponse) (CallEnd c) = None
        <-> (acceptable_headers (headers (run pre createServerResponse))
             && acceptable_status (last_writeHead 200 pre) (with_body pre c))%bool
            = true).
Proof.
  split; [vm_compute; reflexivity|]. split; [vm_compute; reflexivity|].
  split; [|split].
  - intros pre c post Hp Hok.
    destruct (resolved_after pre c [] Hp Hok) as (h & Hnow & _).
    eexists. split; [exact Hnow|]. simpl body.
    split; [apply body_of_with_body|]. split.
    + intros Hbody Hwf. rewrite body_of_with_body, Hbody.
      rewrite (decode_well_formed _ Hwf). reflexivity.
    + replace (pre ++ CallEnd c :: post) with ((pre ++ [CallEnd c]) ++ post)
        by (rewrite <- app_assoc; reflexivity).
      unfold getResponse. rewrite run_app. apply settled_run, Hnow.
  - intros calls r Hr.
    destruct (settled_by_end calls createServerResponse r eq_refl Hr)
      as (pre & c & post & Hcalls & Hp & Hok & _).
    exists pre, c, post. auto.
  - apply throws_after.
Qed.

Lemma collector_resolves_once_witness :
  exists r : NextResponse,
    getResponse
      (run ([CallWrite (Text "a"); CallWrite (Text "b")] ++ [CallEnd None])
         createServerResponse) = Some r
    /\ body r = Some "ab"
    /\ getResponse
         (run ([CallWrite (Text "a"); CallWrite (Text "b")]
               ++ CallEnd None :: [CallWrite (Text "c"); CallEnd (Some (Text "d"))])
            createServerResponse) = Some r.
Proof.
  destruct collector_resolves_once_with_concatenation as (_ & _ & H & _).
  destruct (H [CallWrite (Text "a"); CallWrite (Text "b")] None
              [CallWrite (Text "c"); CallEnd (Some (Text "d"))]
              eq_refl eq_refl)
    as (r & H1 & _ & H2 & H3).
  exists r. split; [exact H1|]. split; [|exact H3].
  apply H2; reflexivity.
Defined.

(** The claim as first stated does not hold of a code above 65535: the
    platform takes the status modulo 2^16, so that after [writeHead(65736)]
    the response has the status 200. *)
Lemma status_above_65535_is_reduced :
  status <$> getResponse
               (run [CallWriteHead 65736 None None; CallEnd None]
                  createServerResponse)
  <> Some 65736.
Proof. vm_compute. discriminate. Qed.

(** C10 (amended). The response built by an [end] that finds the promise
    pending and does not throw has as its status the code last given to
    [writeHead], taken modulo 2^16 by the platform: the code itself when it
    is below 65536, and 200 when [writeHead] was not called.  A response
    the promise is resolved with was built so.  Assigning the
    [statusCode] property of the response object changes nothing of the
    response that is built.  When the platform accepts the headers, [end]
    throws exactly for a status outside 200..599 and for 204, 205 and 304
    with a body. *)
Theorem collector_status_is_last_writeHead :
  (forall (pre : list call) (c : option chunk) (post : list call),
     getResponse (run pre createServerResponse) = None ->
     throws (run pre createServerResponse) (CallEnd c) = None ->
     exists r : NextResponse,
       getResponse (run (pre ++ CallEnd c :: post) createServerResponse) = Some r
       /\ status r = last_writeHead 200 pre mod 65536
       /\ 200 <= status r <= 599
       /\ (0 <= last_writeHead 200 pre < 65536 ->
           status r = last_writeHead 200 pre))
  /\ (forall (calls : list call) (r : NextResponse),
        getResponse (run calls createServerResponse) = Some r ->
        exists (pre : list call) (c : option chunk) (post : list call),
          calls = pre ++ CallEnd c :: post
          /\ getResponse (run pre createServerResponse) = None
          /\ status r = last_writeHead 200 pre mod 65536)
  /\ (forall (before : list call) (code : Z) m hs (after : list call),
        forallb (fun x => negb (is_writeHead x)) after = true ->
        last_writeHead 200 (before ++ CallWriteHead code m hs :: after) = code)
  /\ (forall calls : list call,
        forallb (fun x => negb (is_writeHead x)) calls = true ->
        last_writeHead 200 calls = 200)
  /\ (forall (before : list call) (code : Z) (after : list call),
        getResponse (run (before ++ CallAssignStatusCode code :: after)
                       createServerResponse)
        = getResponse (run (before ++ after) createServerResponse))
  /\ (forall (pre : list call) (c : option chunk),
        acceptable_headers (headers (run pre createServerResponse)) = true ->
        (throws (run pre createServerResponse) (CallEnd c) = None
         <-> acceptable_status (last_writeHead 200 pre) (with_body pre c) = true)).
Proof.
  split; [|split; [|split; [|split; [|split]]]].
  - intros pre c post Hp Hok.
    destruct (resolved_after pre c post Hp Hok) as (h & Hr & _).
    eexists. split; [exact Hr|]. simpl status. split; [reflexivity|].
    apply throws_after in Hok. apply andb_true_iff in Hok as [_ Hs].
    unfold acceptable_status in Hs.
    apply andb_true_iff in Hs as [Hs _]. apply andb_true_iff in Hs as [Hlo Hhi].
    apply Z.leb_le in Hlo. apply Z.leb_le in Hhi.
    split; [lia|]. intros Hcode. apply Z.mod_small, Hcode.
  - intros calls r Hr.
    destruct (settled_by_end calls createServerResponse r eq_refl Hr)
      as (pre & c & post & Hcalls & Hp & Hok & Hres).
    exists pre, c, post. split; [exact Hcalls|]. split; [exact Hp|].
    destruct (resolved_after pre c [] Hp Hok) as (h & Hr' & _).
    unfold getResponse in Hr'. rewrite Hres in Hr'. injection Hr' as ->.
    reflexivity.
  - intros before code m hs after Hafter.
    rewrite last_writeHead_app, last_writeHead_cons.
    apply last_writeHead_none, Hafter.
  - intros calls. apply last_writeHead_none.
  - intros before code after. unfold getResponse.
    rewrite !run_app, run_cons.
    apply (same_closure_run after (step (run before createServerResponse)
                                     (CallAssignStatusCode code))
             (run before createServerResponse)).
    apply same_closure_assign.
  - intros pre c Hh. rewrite throws_after, Hh. reflexivity.
Qed.

Lemma collector_status_witness :
  status <$> getResponse
               (run [CallAssignStatusCode 404; CallWrite (Text "x"); CallEnd None]
                  createServerResponse) = Some 200
  /\ status <$> getResponse
                  (run [CallWriteHead 404 None None; CallWriteHead 202 None None;
                        CallAssignStatusCode 500; CallEnd None]
                     createServerResponse) = Some 202.
Proof.
  destruct collector_status_is_last_writeHead as (H & _).
  split.
  - destruct (H [CallAssignStatusCode 404; CallWrite (Text "x")] None []
                eq_refl eq_refl) as (r & Hr & _ & _ & Hcode).
    change (status <$> getResponse
              (run ([CallAssignStatusCode 404; CallWrite (Text "x")]
                    ++ [CallEnd None]) createServerResponse) = Some 200).
    rewrite Hr. simpl. f_equal. apply Hcode. simpl. lia.
  - destruct (H [CallWriteHead 404 None None; CallWriteHead 202 None None;
                 CallAssignStatusCode 500] None [] eq_refl eq_refl)
      as (r & Hr & _ & _ & Hcode).
    change (status <$> getResponse
              (run ([CallWriteHead 404 None None; CallWriteHead 202 None None;
                     CallAssignStatusCode 500] ++ [CallEnd None])
                 createServerResponse) = Some 202).
    rewrite Hr. simpl. f_equal. apply Hcode. simpl. lia.
Defined.

End CollectorClaims.

(** ** The request adapter *)

Section AdapterFacts.

Import Adapter.

Lemma Readable_from_fresh (items : list string) (heap : readables) :
  heap !! fst (Readable_from items heap) = None
  /\ snd (Readable_from items heap) !! fst (Readable_from items heap) = Some items
  /\ forall r : nat, (r < length heap)%nat ->
       snd (Readable_from items heap) !! r = heap !! r.
Proof.
  unfold Readable_from. simpl. split; [|split].
  - apply lookup_ge_None. lia.
  - rewrite lookup_app_r by lia. rewrite Nat.sub_diag. reflexivity.
  - intros r Hr. apply lookup_app_l, Hr.
Qed.

Lemma stream_createIncomingMessage (req : Request.t) (body : option json)
    (heap : readables) :
  stream (fst (createIncomingMessage req body heap)) = length heap
  /\ snd (createIncomingMessage req body heap) = heap ++ [[bodyString body]].
Proof. split; reflexivity. Qed.

Lemma read_all_yields (r : nat) (heap : readables) (items : list string) :
  heap !! r = Some items ->
  fst (read_all r heap) = items
  /\ fst (read_all r (snd (read_all r heap))) = []
  /\ forall r' : nat, r' <> r -> snd (read_all r heap) !! r' = heap !! r'.
Proof.
  intros H. unfold read_all. simpl. rewrite H. simpl.
  split; [reflexivity|]. split.
  - rewrite list_lookup_insert_eq; [reflexivity|].
    apply lookup_lt_Some in H. exact H.
  - intros r' Hr'. apply list_lookup_insert_ne. congruence.
Qed.

Lemma concat_single (s : string) : String.concat "" [s] = s.
Proof. reflexivity. Qed.

(** The claim as first stated does not hold of a body that is present but
    falsy: for the decoded body [0] the stream carries no byte, while the
    serialized body is the text "0". *)
Lemma adapter_falsy_body_not_serialized :
  let made :=
    createIncomingMessage (post_request None (inr (JNum 0))) (Some (JNum 0)) [] in
  String.concat "" (fst (read_all (stream (fst made)) (snd made)))
  <> JSON.stringify (JNum 0).
Proof. vm_compute. discriminate. Qed.

(** C5 (amended). Every call of the adapter allocates a stream that did not
    exist before and leaves the existing ones as they are; the stream is
    single-pass (read once it yields its chunks, read again it yields
    nothing); the concatenation of its chunks is the serialized body when
    the body is truthy, as every object and array is, and is empty, without
    an error, when the body is absent or falsy; a second call on the same
    request and body, made after the first stream was consumed, gives
    another stream with the whole body again, which is what [POST] hands to
    the SDK after its diagnostic read. *)
Theorem adapter_stream_is_fresh_single_pass
    (req : Request.t) (body : option json) (heap : readables) :
  let made := createIncomingMessage req body heap in
  let r := stream (fst made) in
  let consumed := snd (read_all r (snd made)) in
  let again := createIncomingMessage req body consumed in
  heap !! r = None
  /\ (forall r' : nat, (r' < length heap)%nat -> snd made !! r' = heap !! r')
  /\ fst (read_all r (snd made)) = [bodyString body]
  /\ fst (read_all r consumed) = []
  /\ (forall b : json, body = Some b -> Js.truthy b = true ->
        String.concat "" (fst (read_all r (snd made))) = JSON.stringify b)
  /\ (forall fields : list (string * json), body = Some (JObj fields) ->
        String.concat "" (fst (read_all r (snd made)))
        = JSON.stringify (JObj fields))
  /\ (body = None \/ (exists b : json, body = Some b /\ Js.truthy b = false) ->
        String.concat "" (fst (read_all r (snd made))) = "")
  /\ stream (fst again) <> r
  /\ fst (read_all (stream (fst again)) (snd again)) = [bodyString body]
  /\ (forall (b : json) (transport : nat) (w : world),
        let prepared := prepare_initialize req b transport w in
        streams (cs_world (snd prepared)) !! stream (fst prepared)
        = Some [bodyString (Some b)]).
Proof.
  intros made r consumed again.
  destruct (Readable_from_fresh [bodyString body] heap) as (Hnew & Hat & Hold).
  assert (Hread : snd made !! r = Some [bodyString body]) by exact Hat.
  destruct (read_all_yields r (snd made) _ Hread) as (Hfirst & Hsecond & Hother).
  split; [exact Hnew|]. split; [exact Hold|]. split; [exact Hfirst|].
  split; [exact Hsecond|].
  assert (Hconcat : String.concat "" (fst (read_all r (snd made)))
                    = bodyString body)
    by (rewrite Hfirst; apply concat_single).
  split; [|split; [|split; [|split; [|split]]]].
  - intros b -> Hb. rewrite Hconcat. simpl. rewrite Hb. reflexivity.
  - intros fields ->. rewrite Hconcat. reflexivity.
  - intros [->|(b & -> & Hb)]; rewrite Hconcat; simpl; [|rewrite Hb]; reflexivity.
  - subst again r made. simpl. unfold consumed. simpl.
    rewrite length_insert, length_app. simpl. lia.
  - destruct (Readable_from_fresh [bodyString body] consumed) as (_ & Hat2 & _).
    apply (read_all_yields _ _ _ Hat2).
  - intros b transport w prepared. subst prepared. unfold prepare_initialize.
    simpl. rewrite lookup_app_r by lia. rewrite Nat.sub_diag. reflexivity.
Qed.

Lemma adapter_stream_witness :
  String.concat ""
    (fst (read_all
            (stream (fst (createIncomingMessage
                            (post_request None (inr tools_list_body))
                            (Some tools_list_body) [])))
            (snd (createIncomingMessage
                    (post_request None (inr tools_list_body))
                    (Some tools_list_body) []))))
  = JSON.stringify tools_list_body
  /\ String.concat ""
       (fst (read_all
               (stream (fst (createIncomingMessage
                               (post_request None (inr (JBool false)))
                               (Some (JBool false)) [])))
               (snd (createIncomingMessage
                       (post_request None (inr (JBool false)))
                       (Some (JBool false)) []))))
     = "".
Proof.
  split.
  - destruct (adapter_stream_is_fresh_single_pass
                (post_request None (inr tools_list_body))
                (Some tools_list_body) [])
      as (_ & _ & _ & _ & H & _).
    apply (H tools_list_body eq_refl eq_refl).
  - destruct (adapter_stream_is_fresh_single_pass
                (post_request None (inr (JBool false)))
                (Some (JBool false)) [])
      as (_ & _ & _ & _ & _ & _ & H & _).
    apply H. right. exists (JBool false). split; reflexivity.
Defined.

End AdapterFacts.

(** ** The engine against the router's capabilities *)

Ltac case_if :=
  match goal with
  | |- context [if ?b then _ else _] => destruct b
  end.

Section EngineFacts.

Context `{Platform}.

Variables (transport : nat) (message : Adapter.IncomingMessage).

Lemma handle_Do {A : Type} (o : op A) (k : A -> engine) (st : call_state) :
  handle transport message (Do o k) st
  = handle transport message (k (fst (perform transport message o st)))
      (snd (perform transport message o st)).
Proof. simpl. destruct (perform transport message o st). reflexivity. Qed.

(** What a capability leaves of the collector: the call it makes on the
    sink, if any, has been made. *)
Lemma perform_response {A : Type} (o : op A) (st : call_state) :
  cs_response (snd (perform transport message o st))
  = Collector.run (call_of o) (cs_response st).
Proof.
  destruct o as [| | |[sid|]| |call| | | |]; simpl; try reflexivity.
  case_if; reflexivity.
Qed.

Lemma perform_world {A : Type} (o : op A) (st : call_state) :
  call_of o <> [] ->
  cs_world (snd (perform transport message o st)) = cs_world st.
Proof.
  destruct o as [| | |[sid|]| |call| | | |]; simpl; try congruence.
Qed.

(** The collector at the end of a run has seen the calls of the run. *)
Lemma handle_response (e : engine) (st : call_state) :
  cs_response (snd (handle transport message e st))
  = Collector.run (responds transport message e st) (cs_response st).
Proof.
  revert st. induction e as [| |A o k IH]; intros st; try reflexivity.
  rewrite handle_Do, IH, perform_response. simpl responds.
  rewrite run_app. reflexivity.
Qed.

Lemma perform_uuidCount {A : Type} (o : op A) (st : call_state) :
  (uuidCount (cs_world st)
   <= uuidCount (cs_world (snd (perform transport message o st))))%nat.
Proof.
  destruct o as [| | |[sid|]| |call| | | |]; simpl; try lia.
  case_if; simpl; lia.
Qed.

Lemma handle_uuidCount (e : engine) (st : call_state) :
  (uuidCount (cs_world st)
   <= uuidCount (cs_world (snd (handle transport message e st))))%nat.
Proof.
  revert st. induction e as [| |A o k IH]; intros st;
    [simpl; lia|simpl; lia|].
  rewrite handle_Do. etransitivity; [apply (perform_uuidCount o)|apply IH].
Qed.

End EngineFacts.

(** ** The request router *)

Section RouterFacts.

Context `{Platform}.

Lemma get_method_not_null (body : json) :
  body <> JNull -> exists x, Js.get body "method" = inr x.
Proof. destruct body; simpl; eauto. congruence. Qed.

Lemma get_id_not_null (body : json) :
  body <> JNull -> exists x, Js.get body "id" = inr x.
Proof. destruct body; simpl; eauto. congruence. Qed.

(** The initialization branch is taken by every decoded body that
    [isInitializeRequest] accepts, whatever the session header. *)
Lemma POST_try_initialize (req : Request.t) (body : json) (b : behaviour)
    (w : world) :
  Request.json req = inr body -> body <> JNull ->
  isInitializeRequest body = true ->
  POST_try req b w
  = POST_initialize req body
      (Headers.get "mcp-session-id" (Request.headers req)) b w.
Proof.
  intros Hjson Hnull Hinit. unfold POST_try. rewrite Hjson.
  destruct (get_method_not_null body Hnull) as [x ->]. rewrite Hinit.
  reflexivity.
Qed.

Lemma POST_initialize_connected (req : Request.t) (body : json)
    (sessionId : option string) (b : behaviour) (w : world) :
  connect b = None ->
  POST_initialize req body sessionId b w
  = dispatch (fst (initialize_call req body sessionId w)) (handleRequest b)
      (snd (initialize_call req body sessionId w)).
Proof.
  intros Hc. unfold POST_initialize, initialize_call.
  destruct (new_transport (discard_existing sessionId w)) as [t w2].
  rewrite Hc. reflexivity.
Qed.

Lemma uuidCount_discard_existing (sessionId : option string) (w : world) :
  uuidCount (discard_existing sessionId w) = uuidCount w.
Proof.
  unfold discard_existing. destruct sessionId; [|reflexivity].
  case_if; reflexivity.
Qed.

Lemma transportCount_discard (sessionId : option string) (w : world) :
  transportCount (discard_existing sessionId w) = transportCount w.
Proof.
  unfold discard_existing. destruct sessionId; [|reflexivity].
  case_if; reflexivity.
Qed.

Lemma initialize_call_transport (req : Request.t) (body : json)
    (sessionId : option string) (w : world) :
  fst (initialize_call req body sessionId w) = transportCount w.
Proof. unfold initialize_call, new_transport. simpl. apply transportCount_discard. Qed.

Lemma initialize_call_fresh (req : Request.t) (body : json)
    (sessionId : option string) (w : world) :
  let prepared := snd (initialize_call req body sessionId w) in
  uuidCount (cs_world (snd prepared)) = uuidCount w
  /\ cs_response (snd prepared) = Collector.createServerResponse.
Proof.
  unfold initialize_call, new_transport, prepare_initialize. simpl.
  split; [apply uuidCount_discard_existing|reflexivity].
Qed.


Lemma deliver_settled (s : Collector.state) (r0 : NextResponse) :
  Collector.responsePromise s = Some r0 ->
  200 <= status r0 <= 599 ->
  Response.null_body_status (status r0) = false ->
  exists r : NextResponse,
    deliver s = inr (Responded r)
    /\ status r = status r0
    /\ body r = Some (Response.text r0)
    /\ forall name : string,
         lower name ∉ "content-type" :: map fst cors_headers ->
         Headers.get name (headers r) = Headers.get name (headers r0).
Proof.
  intros Hs Hrange Hnull. unfold deliver, Collector.getResponse. rewrite Hs.
  unfold Response.new, Response.unsigned_short.
  rewrite Z.mod_small by lia.
  destruct (Z.ltb_spec (status r0) 200); [lia|].
  destruct (Z.ltb_spec 599 (status r0)); [lia|]. simpl. rewrite Hnull.
  eexists. split; [reflexivity|]. split; [reflexivity|].
  split; [reflexivity|]. intros name Hname.
  repeat (apply not_elem_of_cons in Hname as [? Hname]).
  rewrite get_setCorsHeaders by assumption.
  rewrite get_Response_make by assumption.
  apply get_copy.
Qed.


Lemma snd_POST (req : Request.t) (b : behaviour) (w : world) :
  snd (POST req b w) = snd (POST_try req b w).
Proof. unfold POST. destruct (POST_try req b w) as [[err|out] w']; reflexivity. Qed.

Lemma snd_dispatch (transport : nat) (e : engine)
    (prepared : Adapter.IncomingMessage * call_state) :
  snd (dispatch transport e prepared)
  = cs_world (snd (handle transport (fst prepared) e (snd prepared))).
Proof.
  unfold dispatch.
  destruct (handle transport (fst prepared) e (snd prepared)) as [[err|] st];
    reflexivity.
Qed.

(** The answers made by the route itself name no session. *)
Lemma json_names_no_session (value : json) (code : Z) :
  Headers.get "mcp-session-id"
    (headers (setCorsHeaders (Response.json value code))) = None.
Proof. reflexivity. Qed.

End RouterFacts.

(** ** The answer to an initialization *)

Section InitializeFacts.

Context `{Platform}.

(** [dispatch] hands on what [handleRequest] rejects with, and otherwise
    delivers what the calls of the run have left in the collector. *)
Lemma dispatch_outcome (transport : nat) (e : engine)
    (prepared : Adapter.IncomingMessage * call_state) :
  cs_response (snd prepared) = Collector.createServerResponse ->
  fst (dispatch transport e prepared)
  = match fst (handle transport (fst prepared) e (snd prepared)) with
    | Some err => inl err
    | None =>
        deliver
          (Collector.run (responds transport (fst prepared) e (snd prepared))
             Collector.createServerResponse)
    end.
Proof.
  intros Hnew. unfold dispatch.
  pose proof (handle_response transport (fst prepared) e (snd prepared)) as Hr.
  rewrite Hnew in Hr.
  destruct (handle transport (fst prepared) e (snd prepared)) as [[err|] st];
    [reflexivity|].
  simpl in Hr. simpl. rewrite Hr. reflexivity.
Qed.

(** A response that [deliver] gives back names a session only if the
    response in the collector does. *)
Lemma deliver_session (s : Collector.state) (r : NextResponse) :
  deliver s = inr (Responded r) ->
  exists r0 : NextResponse,
    Collector.responsePromise s = Some r0
    /\ Headers.get "mcp-session-id" (headers r)
       = Headers.get "mcp-session-id" (headers r0).
Proof.
  unfold deliver, Collector.getResponse.
  destruct (Collector.responsePromise s) as [r0|]; [|discriminate].
  destruct (Response.new _ _ _) as [f|final] eqn:Hnew; [discriminate|].
  intros [= <-]. exists r0. split; [reflexivity|].
  unfold Response.new in Hnew.
  destruct (_ || _)%bool; [discriminate|].
  destruct (Response.null_body_status _); [discriminate|].
  injection Hnew as <-.
  rewrite get_setCorsHeaders by (simpl; discriminate).
  rewrite get_Response_make by (simpl; discriminate).
  apply get_copy.
Qed.

(** What the collector holds after the answer of the SDK's error
    handler. *)
Lemma error_answer_collected (report : string) :
  exists r0 : NextResponse,
    Collector.getResponse
      (Collector.run
         [Collector.CallWriteHead 400 None None;
          Collector.CallEnd (Some (Text report))]
         Collector.createServerResponse)
    = Some r0
    /\ status r0 = 400
    /\ Headers.get "mcp-session-id" (headers r0) = None.
Proof.
  assert (Hok : Collector.throws
                  (Collector.run [Collector.CallWriteHead 400 None None]
                     Collector.createServerResponse)
                  (Collector.CallEnd (Some (Text report))) = None).
  { apply throws_after. simpl.
    destruct (with_body _ _); reflexivity. }
  destruct (resolved_after [Collector.CallWriteHead 400 None None]
              (Some (Text report)) [] eq_refl Hok) as (h & Hr & Hget).
  eexists. split; [exact Hr|]. split; [reflexivity|].
  rewrite get_Response_make by (simpl; discriminate).
  rewrite Hget. reflexivity.
Qed.

End InitializeFacts.

(** C1, on the run the SDK's transport makes over the response object of
    [createServerResponse].  The transport draws a session id and has it
    registered, then fails on the [on] method the object lacks and answers
    400: [POST] hands that answer on, and the response names no session,
    although one is registered under the new id.  For every engine, a
    session id in the response of an initialization is one the engine has
    put into the headers of the collector before the [end] that resolves
    the promise: the handler adds none. *)
Theorem initialize_is_answered_without_session_id `{Platform}
    (req : Request.t) (body : json) (w : world) (report : string) :
  Request.json req = inr body -> body <> JNull ->
  isInitializeRequest body = true ->
  let call :=
    initialize_call req body
      (Headers.get "mcp-session-id" (Request.headers req)) w in
  (exists r : NextResponse,
     fst (POST req (engine_ok (initialize_without_on report)) w) = Responded r
     /\ status r = 400
     /\ Headers.get "mcp-session-id" (headers r) = None)
  /\ transports (snd (POST req (engine_ok (initialize_without_on report)) w))
       !! randomUUID (uuidCount w) = Some (transportCount w)
  /\ (forall (b : behaviour) (r : NextResponse) (sid : string),
        fst (POST req b w) = Responded r ->
        Headers.get "mcp-session-id" (headers r) = Some sid ->
        exists (pre : list Collector.call) (c : option chunk)
               (post : list Collector.call),
          responds (fst call) (fst (snd call)) (handleRequest b) (snd (snd call))
          = pre ++ Collector.CallEnd c :: post
          /\ match
               Headers.values_of "mcp-session-id"
                 (HeaderRecord.entries
                    (Collector.headers
                       (Collector.run pre Collector.createServerResponse)))
             with
             | [] => None
             | vs => Some (Headers.combine (map Headers.normalize vs))
             end = Some sid).
Proof.
  intros Hjson Hnull Hinit call.
  pose proof (initialize_call_fresh req body
                (Headers.get "mcp-session-id" (Request.headers req)) w)
    as [Huuid Hnew].
  fold call in Huuid, Hnew. cbv zeta in Huuid, Hnew.
  pose proof (initialize_call_transport req body
                (Headers.get "mcp-session-id" (Request.headers req)) w) as Ht.
  fold call in Ht.
  assert (Hdispatched :
            forall b : behaviour,
              connect b = None ->
              POST_try req b w
              = dispatch (fst call) (handleRequest b) (snd call)).
  { intros b Hc. rewrite (POST_try_initialize req body _ w Hjson Hnull Hinit).
    apply POST_initialize_connected, Hc. }
  assert (Hfailed :
            forall (b : behaviour) (err : thrown),
              connect b = Some err -> fst (POST_try req b w) = inl err).
  { intros b err Hc. rewrite (POST_try_initialize req body _ w Hjson Hnull Hinit).
    unfold POST_initialize. destruct (new_transport _) as [t w2].
    rewrite Hc. reflexivity. }
  clearbody call.
  split; [|split].
  - unfold POST. rewrite Hdispatched by reflexivity.
    destruct (dispatch (fst call) _ (snd call)) as [res w'] eqn:Hd.
    pose proof (dispatch_outcome (fst call)
                  (handleRequest (engine_ok (initialize_without_on report)))
                  (snd call) Hnew) as Hout.
    rewrite Hd in Hout. cbn [fst] in Hout.
    change (handleRequest (engine_ok (initialize_without_on report)))
      with (initialize_without_on report) in Hout.
    change (fst (handle (fst call) (fst (snd call))
                   (initialize_without_on report) (snd (snd call))))
      with (@None thrown) in Hout.
    change (responds (fst call) (fst (snd call))
              (initialize_without_on report) (snd (snd call)))
      with [Collector.CallWriteHead 400 None None;
            Collector.CallEnd (Some (Text report))] in Hout.
    subst res.
    destruct (error_answer_collected report) as (r0 & Hr0 & Hstatus0 & Hget0).
    destruct (deliver_settled _ _ Hr0) as (r & -> & Hstatus & _ & Hget);
      [rewrite Hstatus0; lia|rewrite Hstatus0; reflexivity|].
    exists r. split; [reflexivity|]. split; [congruence|].
    rewrite Hget; [exact Hget0|].
    apply (proj1 (bool_decide_eq_false _)). reflexivity.
  - rewrite snd_POST, Hdispatched by reflexivity.
    rewrite snd_dispatch.
    change (handleRequest (engine_ok (initialize_without_on report)))
      with (initialize_without_on report).
    unfold initialize_without_on, Adapter.read_all. simpl.
    rewrite Huuid, Ht. apply lookup_insert_eq.
  - intros b r sid Hresp Hsid.
    assert (Hcaught : forall err : thrown,
              fst (POST_try req b w) = inl err -> False).
    { intros err Herr. unfold POST in Hresp.
      destruct (POST_try req b w) as [res w']. simpl in Herr. subst res.
      simpl in Hresp. injection Hresp as <-.
      rewrite json_names_no_session in Hsid. discriminate. }
    destruct (connect b) as [err|] eqn:Hc; [destruct (Hcaught err (Hfailed b err Hc))|].
    pose proof (dispatch_outcome (fst call) (handleRequest b) (snd call) Hnew)
      as Hout.
    rewrite <- (Hdispatched b Hc) in Hout.
    destruct (fst (handle (fst call) (fst (snd call)) (handleRequest b)
                    (snd (snd call)))) as [err|];
      [destruct (Hcaught err Hout)|].
    destruct (deliver _) as [err|[r'|]] eqn:Hdeliver;
      [destruct (Hcaught err Hout)| |].
    + assert (r' = r) as ->.
      { unfold POST in Hresp. destruct (POST_try req b w) as [res w'].
        simpl in Hout. subst res. simpl in Hresp. congruence. }
      destruct (deliver_session _ _ Hdeliver) as (r0 & Hr0 & Hget).
      destruct (settled_by_end _ Collector.createServerResponse _ eq_refl Hr0)
        as (pre & c & post & Hcalls & Hp & Hok & Hres).
      exists pre, c, post. split; [exact Hcalls|].
      destruct (resolved_after pre c [] Hp Hok) as (h & Hmade & Hh).
      unfold Collector.getResponse in Hmade. rewrite Hres in Hmade.
      injection Hmade as ->.
      rewrite get_Response_make in Hget by (simpl; discriminate).
      rewrite <- Hsid, Hget, Hh. reflexivity.
    + unfold POST in Hresp. destruct (POST_try req b w) as [res w'].
      simpl in Hout. subst res. simpl in Hresp. discriminate.
Qed.

Lemma initialize_answer_witness :
  exists r : NextResponse,
    fst (@POST production (post_request None (inr initialize_body))
           (engine_ok (initialize_without_on "res.on is not a function"))
           no_sessions) = Responded r
    /\ status r = 400
    /\ Headers.get "mcp-session-id" (headers r) = None.
Proof.
  destruct (@initialize_is_answered_without_session_id production
              (post_request None (inr initialize_body)) initialize_body
              no_sessions "res.on is not a function"
              eq_refl ltac:(discriminate) eq_refl)
    as (Hanswer & _).
  exact Hanswer.
Defined.

(** ** The registry over a call *)

Section RegistryFacts.

Context `{Platform}.

Variables (transport : nat) (message : Adapter.IncomingMessage).



Lemma perform_transportCount {A : Type} (o : op A) (st : call_state) :
  transportCount (cs_world (snd (perform transport message o st)))
  = transportCount (cs_world st).
Proof.
  destruct o as [| | |[sid|]| |call| | | |]; simpl; try reflexivity.
  case_if; reflexivity.
Qed.



Lemma sound_delete (sid : string) (w : world) :
  registry_sound w -> registry_sound (transports_delete sid w).
Proof.
  intros Hw k t. simpl. intros Hl.
  apply lookup_delete_Some in Hl as [_ Hl]. apply (Hw k t Hl).
Qed.

Lemma perform_sound {A : Type} (o : op A) (st : call_state) :
  match o with
  | onsessioninitialized sid =>
      exists n : nat, (n < uuidCount (cs_world st))%nat /\ sid = randomUUID n
  | _ => True
  end ->
  sound_during transport st ->
  sound_during transport (snd (perform transport message o st)).
Proof.
  unfold sound_during.
  destruct o as [|sid'|sid'|[sid'|]| |call| | | |]; simpl;
    intros Ho [Hs Ht]; try (split; assumption).
  - split; [|exact Ht]. intros k t Hl. simpl in *.
    destruct (Hs k t Hl) as (Hlt & n & Hn & ->).
    split; [exact Hlt|]. exists n. split; [lia|reflexivity].
  - split; [|exact Ht]. intros k t. simpl. intros Hl.
    apply lookup_insert_Some in Hl as [[<- <-]|[_ Hl]].
    + split; [exact Ht|exact Ho].
    + apply (Hs k t Hl).
  - split; [|exact Ht]. apply (sound_delete sid' _ Hs).
  - case_if; simpl; [|split; assumption].
    split; [|exact Ht]. apply (sound_delete sid' _ Hs).
Qed.

Lemma handle_sound (e : engine) (st : call_state) :
  announces_drawn_ids transport message e st ->
  sound_during transport st ->
  sound_during transport (snd (handle transport message e st)).
Proof.
  revert st. induction e as [| |A o k IH]; intros st Hdrawn Hs;
    [exact Hs|exact Hs|].
  rewrite handle_Do. destruct Hdrawn as [Ho Hk].
  apply IH; [exact Hk|]. apply perform_sound; assumption.
Qed.

End RegistryFacts.

Section ReinitializeFacts.

Context `{Platform}.

Lemma truthy_string_nonempty (sid : string) :
  sid <> "" -> Js.truthy_string (Some sid) = true.
Proof.
  intros Hne. simpl. destruct (String.eqb_spec sid ""); [contradiction|reflexivity].
Qed.

Lemma transports_has_true (sid : string) (t : nat) (w : world) :
  transports w !! sid = Some t -> transports_has sid w = true.
Proof.
  intros Hl. unfold transports_has. apply bool_decide_eq_true. eauto.
Qed.

Lemma transports_has_false (sid : string) (w : world) :
  transports w !! sid = None -> transports_has sid w = false.
Proof.
  intros Hl. unfold transports_has. apply bool_decide_eq_false.
  rewrite Hl. intros [x Hx]. discriminate.
Qed.


Lemma sound_discard (sessionId : option string) (w : world) :
  registry_sound w -> registry_sound (discard_existing sessionId w).
Proof.
  intros Hw. unfold discard_existing. destruct sessionId as [sid|]; [|exact Hw].
  case_if; [apply sound_delete, Hw|exact Hw].
Qed.

(** The state in which an initialization calls the engine: the registry
    is the one left by the clean-up, one more transport exists. *)
Lemma initialize_call_world (req : Request.t) (body : json)
    (sessionId : option string) (w : world) :
  let call := initialize_call req body sessionId w in
  let w1 := discard_existing sessionId w in
  fst call = transportCount w
  /\ transports (cs_world (snd (snd call))) = transports w1
  /\ transportCount (cs_world (snd (snd call))) = S (transportCount w)
  /\ uuidCount (cs_world (snd (snd call))) = uuidCount w
  /\ trace (cs_world (snd (snd call)))
     = trace w1
       ++ [SdkNewTransport (transportCount w); SdkConnect (transportCount w);
           SdkHandleRequest (transportCount w)
             (Adapter.stream (fst (snd call)))].
Proof.
  unfold initialize_call, new_transport, prepare_initialize. simpl.
  rewrite transportCount_discard, uuidCount_discard_existing.
  repeat split; try reflexivity.
  rewrite <- !app_assoc. reflexivity.
Qed.

Lemma initialize_call_sound (req : Request.t) (body : json)
    (sessionId : option string) (w : world) :
  registry_sound w ->
  sound_during (fst (initialize_call req body sessionId w))
    (snd (snd (initialize_call req body sessionId w))).
Proof.
  intros Hw.
  destruct (initialize_call_world req body sessionId w)
    as (Ht & Htr & Hcount & Huuid & _).
  split.
  - intros sid t Hl. rewrite Htr in Hl.
    destruct (sound_discard sessionId w Hw sid t Hl) as (Hlt & n & Hn & ->).
    rewrite transportCount_discard in Hlt. rewrite Hcount, Huuid.
    rewrite uuidCount_discard_existing in Hn.
    split; [lia|]. exists n. split; [exact Hn|reflexivity].
  - rewrite Ht, Hcount. lia.
Qed.

(** The world when [connect] rejects. *)
Lemma POST_initialize_world (req : Request.t) (body : json)
    (sessionId : option string) (b : behaviour) (w : world) :
  snd (POST_initialize req body sessionId b w)
  = match connect b with
    | Some _ =>
        log (SdkConnect (transportCount w))
          (snd (new_transport (discard_existing sessionId w)))
    | None =>
        let call := initialize_call req body sessionId w in
        cs_world (snd (handle (fst call) (fst (snd call)) (handleRequest b)
                         (snd (snd call))))
    end.
Proof.
  unfold POST_initialize, initialize_call.
  pose proof (transportCount_discard sessionId w) as Hcount.
  destruct (new_transport (discard_existing sessionId w)) as [t w2] eqn:Hnew.
  unfold new_transport in Hnew. injection Hnew as Ht Hw2.
  destruct (connect b); simpl.
  - rewrite <- Ht, Hcount. reflexivity.
  - apply snd_dispatch.
Qed.

End ReinitializeFacts.

(** *** Soundness of the registry, from the start of the process on *)

Section SoundnessFacts.

Context `{Platform}.

Lemma no_sessions_sound : registry_sound no_sessions.
Proof. intros sid t Hl. simpl in Hl. rewrite lookup_empty in Hl. discriminate. Qed.

Lemma DELETE_registry_sound (req : Request.t) (w : world) :
  registry_sound w -> registry_sound (snd (DELETE req w)).
Proof.
  intros Hw. unfold DELETE.
  destruct (Headers.get "mcp-session-id" (Request.headers req)) as [sid|];
    [|exact Hw].
  repeat case_if; simpl; try exact Hw. apply sound_delete, Hw.
Qed.

Lemma prepare_continue_sound (req : Request.t) (body : json) (t : nat)
    (sid : string) (w : world) :
  registry_sound w -> transports w !! sid = Some t ->
  sound_during t (snd (prepare_continue req body t w)).
Proof.
  intros Hw Hl. split; [exact Hw|]. simpl. apply (Hw sid t Hl).
Qed.

Lemma POST_registry_sound (req : Request.t) (b : behaviour) (w : world) :
  registry_sound w -> engine_announces_drawn_ids req b w ->
  registry_sound (snd (POST req b w)).
Proof.
  intros Hw Hdrawn. rewrite snd_POST.
  unfold engine_announces_drawn_ids in Hdrawn. unfold POST_try.
  destruct (Request.json req) as [err|body]; [exact Hw|].
  destruct (Js.get body "method") as [err|x]; [exact Hw|].
  destruct (isInitializeRequest body).
  - rewrite POST_initialize_world.
    pose proof (initialize_call_sound req body
                  (Headers.get "mcp-session-id" (Request.headers req)) w Hw)
      as Hsound.
    destruct (connect b) as [cerr|].
    + intros sid t Hl. simpl in Hl.
      destruct (sound_discard _ w Hw sid t Hl) as (Hlt & n & Hn & ->).
      simpl. rewrite transportCount_discard in *.
      rewrite uuidCount_discard_existing in *.
      split; [lia|]. exists n. split; [exact Hn|reflexivity].
    + cbv zeta.
      destruct (initialize_call req body
                  (Headers.get "mcp-session-id" (Request.headers req)) w)
        as [t prepared].
      apply (handle_sound t (fst prepared) _ _ Hdrawn Hsound).
  - destruct (Headers.get "mcp-session-id" (Request.headers req)) as [sid|].
    + case_if.
      * destruct (transports w !! sid) as [t|] eqn:Hl.
        -- rewrite snd_dispatch.
           apply (handle_sound t _ _ _ Hdrawn
                    (prepare_continue_sound req body t sid w Hw Hl)).
        -- destruct (Js.get body "id"); exact Hw.
      * destruct (Js.get body "id"); exact Hw.
    + destruct (Js.get body "id"); exact Hw.
Qed.

(** An engine shaped like the SDK's transport plays its part in every
    state of the process. *)
Lemma announce_session_drawn (t : nat) (m : Adapter.IncomingMessage)
    (result : string) (st : call_state) :
  announces_drawn_ids t m (announce_session result) st.
Proof.
  simpl. repeat split.
  exists (uuidCount (cs_world st)). split; [simpl; lia|reflexivity].
Qed.

End SoundnessFacts.

(** ** An initialization over a registered session *)

Section FreshIdFacts.

Context `{Platform}.

Variables (start transport : nat) (message : Adapter.IncomingMessage).



End FreshIdFacts.



Lemma one_session_sound : @registry_sound production one_session.
Proof.
  intros sid t Hl. simpl in Hl.
  apply lookup_singleton_Some in Hl as [<- <-].
  split; [simpl; lia|]. exists 0%nat. split; [simpl; lia|reflexivity].
Qed.



(** ** Failures *)

Section FailureFacts.

Context `{Platform}.

Lemma registrations_app (xs ys : list event) :
  registrations (xs ++ ys) = registrations xs ++ registrations ys.
Proof. unfold registrations. apply flat_map_app. Qed.

Lemma events_since_app (w w' : world) (rest : list event) :
  trace w' = trace w ++ rest -> events_since w w' = rest.
Proof. unfold events_since. intros ->. apply drop_app_length. Qed.

(** Without a registration among its events, a run can only take entries
    out of the session map. *)
Lemma perform_no_registration (transport : nat)
    (message : Adapter.IncomingMessage) {A : Type} (o : op A)
    (st : call_state) :
  exists rest : list event,
    trace (cs_world (snd (perform transport message o st)))
    = trace (cs_world st) ++ rest
    /\ (registrations rest = [] ->
        transports (cs_world (snd (perform transport message o st)))
        ⊆ transports (cs_world st)).
Proof.
  destruct o as [|sid'|sid'|[sid'|]| |call| | | |]; simpl;
    try (exists []; rewrite app_nil_r; split; [reflexivity|intros _; reflexivity]).
  - eexists. split; [reflexivity|]. discriminate.
  - eexists. split; [reflexivity|]. intros _. apply delete_subseteq.
  - case_if; simpl.
    + eexists. split; [reflexivity|]. intros _. apply delete_subseteq.
    + exists []. rewrite app_nil_r. split; [reflexivity|intros _; reflexivity].
Qed.

Lemma handle_no_registration (transport : nat)
    (message : Adapter.IncomingMessage) (e : engine) (st : call_state) :
  exists rest : list event,
    trace (cs_world (snd (handle transport message e st)))
    = trace (cs_world st) ++ rest
    /\ (registrations rest = [] ->
        transports (cs_world (snd (handle transport message e st)))
        ⊆ transports (cs_world st)).
Proof.
  revert st. induction e as [| |A o k IH]; intros st;
    try (exists []; rewrite app_nil_r; split; [reflexivity|intros _; reflexivity]).
  rewrite handle_Do.
  destruct (IH (fst (perform transport message o st))
              (snd (perform transport message o st))) as (rest2 & -> & H2).
  destruct (perform_no_registration transport message o st) as (rest1 & -> & H1).
  exists (rest1 ++ rest2). split; [rewrite app_assoc; reflexivity|].
  rewrite registrations_app. intros Hnil.
  apply app_eq_nil in Hnil as [Hn1 Hn2].
  etransitivity; [apply H2, Hn2|apply H1, Hn1].
Qed.

Lemma discard_subseteq (sessionId : option string) (w : world) :
  transports (discard_existing sessionId w) ⊆ transports w
  /\ exists rest : list event,
       trace (discard_existing sessionId w) = trace w ++ rest
       /\ registrations rest = [].
Proof.
  unfold discard_existing. destruct sessionId as [sid|].
  - case_if; simpl.
    + split; [apply delete_subseteq|]. eexists. split; reflexivity.
    + split; [reflexivity|]. exists []. rewrite app_nil_r. split; reflexivity.
  - split; [reflexivity|]. exists []. rewrite app_nil_r. split; reflexivity.
Qed.

(** A rejection of the engine leaves the [try] block as an exception. *)
Lemma POST_try_engine_raises (req : Request.t) (body : json) (b : behaviour)
    (w : world) (err : thrown) :
  Request.json req = inr body -> body <> JNull ->
  engine_raises req body b w err ->
  fst (POST_try req b w) = inl err.
Proof.
  intros Hjson Hnull Hraise. unfold engine_raises in Hraise.
  unfold POST_try. rewrite Hjson.
  destruct (get_method_not_null body Hnull) as [x ->].
  destruct (isInitializeRequest body).
  - unfold POST_initialize. unfold initialize_call in Hraise.
    destruct (new_transport _) as [t w2].
    destruct Hraise as [->|[-> Hrun]]; [reflexivity|].
    unfold dispatch. destruct (handle _ _ _ _) as [res st].
    simpl in Hrun. subst res. reflexivity.
  - destruct Hraise as (sid & t & -> & Hne & Hl & Hrun).
    rewrite (truthy_string_nonempty sid Hne), (transports_has_true sid t w Hl), Hl.
    simpl. unfold dispatch. destruct (handle _ _ _ _) as [res st].
    simpl in Hrun. subst res. reflexivity.
Qed.

Lemma POST_catches (req : Request.t) (b : behaviour) (w : world)
    (err : thrown) :
  fst (POST_try req b w) = inl err ->
  fst (POST req b w)
  = Responded (setCorsHeaders (Response.json (internal_error err) 500)).
Proof.
  unfold POST. destruct (POST_try req b w) as [[e|out] w']; simpl;
    intros Heq; [injection Heq as ->; reflexivity|discriminate].
Qed.

Lemma internal_error_code (err : thrown) :
  Js.field "error" (internal_error err) ≫= Js.field "code"
  = Some (JNum (-32603)).
Proof. reflexivity. Qed.

(** An initialization without a registration leaves a registry that is
    part of the one it found. *)
Lemma POST_initialize_no_registration (req : Request.t) (body : json)
    (sessionId : option string) (b : behaviour) (w : world) :
  registrations (events_since w (snd (POST_initialize req body sessionId b w)))
  = [] ->
  transports (snd (POST_initialize req body sessionId b w)) ⊆ transports w.
Proof.
  rewrite POST_initialize_world.
  destruct (discard_subseteq sessionId w) as (Hsub & rest0 & Htrace0 & Hreg0).
  destruct (connect b).
  - intros _. unfold new_transport. simpl. exact Hsub.
  - cbv zeta.
    destruct (initialize_call_world req body sessionId w)
      as (_ & Htr & _ & _ & Htrace).
    cbv zeta in Htr, Htrace.
    destruct (handle_no_registration
                (fst (initialize_call req body sessionId w))
                (fst (snd (initialize_call req body sessionId w)))
                (handleRequest b)
                (snd (snd (initialize_call req body sessionId w))))
      as (rest & Hrest & Hshrink).
    rewrite Htrace, Htrace0 in Hrest.
    rewrite <- !app_assoc in Hrest.
    rewrite (events_since_app _ _ _ Hrest).
    rewrite !registrations_app, Hreg0. simpl.
    intros Hnil. etransitivity; [apply Hshrink, Hnil|].
    rewrite Htr. exact Hsub.
Qed.

End FailureFacts.

(** C7. When the engine raises while [POST] serves a call, the handler
    answers with status 500 and the envelope of code -32603 made from what
    was raised; and an initialization that fails without the id-assignment
    callback having put an entry into the session map leaves a map that is
    part of the one it found: no new session is registered. *)
Theorem engine_failure_is_reported `{Platform}
    (req : Request.t) (body : json) (b : behaviour) (w : world)
    (err : thrown) :
  Request.json req = inr body -> body <> JNull ->
  engine_raises req body b w err ->
  fst (POST req b w)
  = Responded (setCorsHeaders (Response.json (internal_error err) 500))
  /\ Js.field "error" (internal_error err) ≫= Js.field "code"
     = Some (JNum (-32603))
  /\ (isInitializeRequest body = true ->
      registrations (events_since w (snd (POST req b w))) = [] ->
      transports (snd (POST req b w)) ⊆ transports w).
Proof.
  intros Hjson Hnull Hraise.
  split; [apply POST_catches, (POST_try_engine_raises req body b w err);
          assumption|].
  split; [apply internal_error_code|].
  intros Hinit. rewrite snd_POST.
  rewrite (POST_try_initialize req body b w Hjson Hnull Hinit).
  apply POST_initialize_no_registration.
Qed.

Lemma sample_engine_raises :
  @engine_raises production (post_request None (inr initialize_body))
    initialize_body (engine_ok (fail_early (ErrorObject "Error" "boom")))
    one_session (ErrorObject "Error" "boom").
Proof.
  unfold engine_raises.
  change (@isInitializeRequest production initialize_body) with true.
  cbv iota.
  destruct (initialize_call _ _ _ _) as [t prepared] eqn:Hcall.
  vm_compute in Hcall. injection Hcall as <- <-.
  right. split; [reflexivity|vm_compute; reflexivity].
Defined.

Lemma engine_failure_witness :
  fst (@POST production (post_request None (inr initialize_body))
         (engine_ok (fail_early (ErrorObject "Error" "boom"))) one_session)
  = Responded
      (setCorsHeaders
         (Response.json
            (@internal_error production (ErrorObject "Error" "boom")) 500))
  /\ transports
       (snd (@POST production (post_request None (inr initialize_body))
               (engine_ok (fail_early (ErrorObject "Error" "boom"))) one_session))
     ⊆ transports one_session.
Proof.
  destruct (@engine_failure_is_reported production
              (post_request None (inr initialize_body)) initialize_body
              (engine_ok (fail_early (ErrorObject "Error" "boom"))) one_session
              (ErrorObject "Error" "boom") eq_refl ltac:(discriminate)
              sample_engine_raises)
    as (Hresp & _ & Hreg).
  split; [exact Hresp|]. apply Hreg; [reflexivity|vm_compute; reflexivity].
Defined.

(** C9. Whatever is thrown in the [try] block of [POST] (the error of
    [req.json()], a rejection of the engine, an exception of the handler's
    own code), the answer is made in the [catch].  Outside development
    mode it has status 500 and the envelope with the code, the generic
    message and no [data] member, so that the answers to any two failures
    are the same, whatever was raised; in development mode the envelope
    has in addition a [data] member with the text of the error. *)
Theorem production_hides_error_detail `{Platform} :
  (forall (req : Request.t) (b : behaviour) (w : world) (err : thrown),
     (Request.json req = inl err -> fst (POST_try req b w) = inl err)
     /\ (forall body : json,
           Request.json req = inr body -> body <> JNull ->
           engine_raises req body b w err -> fst (POST_try req b w) = inl err))
  /\ (NODE_ENV <> Some "development" ->
      (forall (req : Request.t) (b : behaviour) (w : world) (err : thrown),
         fst (POST_try req b w) = inl err ->
         fst (POST req b w)
         = Responded
             (setCorsHeaders
                (Response.json
                   (JObj [("jsonrpc", JStr "2.0");
                          ("error",
                           JObj [("code", JNum (-32603));
                                 ("message", JStr "Internal server error")]);
                          ("id", JNull)])
                   500)))
      /\ (forall err : thrown,
            Js.field "error" (internal_error err)
            = Some (JObj [("code", JNum (-32603));
                          ("message", JStr "Internal server error")]))
      /\ (forall (req1 req2 : Request.t) (b1 b2 : behaviour) (w1 w2 : world)
            (e1 e2 : thrown),
            fst (POST_try req1 b1 w1) = inl e1 ->
            fst (POST_try req2 b2 w2) = inl e2 ->
            fst (POST req1 b1 w1) = fst (POST req2 b2 w2)))
  /\ (NODE_ENV = Some "development" ->
      (forall (req : Request.t) (b : behaviour) (w : world) (err : thrown),
         fst (POST_try req b w) = inl err ->
         fst (POST req b w)
         = Responded
             (setCorsHeaders
                (Response.json
                   (JObj [("jsonrpc", JStr "2.0");
                          ("error",
                           JObj [("code", JNum (-32603));
                                 ("message", JStr "Internal server error");
                                 ("data",
                                  JObj [("error", JStr (error_text err))])]);
                          ("id", JNull)])
                   500)))
      /\ forall err : thrown,
           Js.field "error" (internal_error err) ≫= Js.field "data"
           = Some (JObj [("error", JStr (error_text err))])).
Proof.
  split; [|split].
  - intros req b w err. split.
    + intros Hjson. unfold POST_try. rewrite Hjson. reflexivity.
    + intros body. apply POST_try_engine_raises.
  - intros Hprod.
    assert (Hdev : development = false).
    { unfold development. destruct NODE_ENV as [env|]; [|reflexivity].
      destruct (String.eqb_spec env "development"); [|reflexivity].
      subst env. contradiction. }
    assert (Hsame : forall err, internal_error err
                    = JObj [("jsonrpc", JStr "2.0");
                            ("error", JObj [("code", JNum (-32603));
                                            ("message", JStr "Internal server error")]);
                            ("id", JNull)]).
    { intros err. unfold internal_error. rewrite Hdev. reflexivity. }
    split; [|split].
    + intros req b w err Herr.
      rewrite (POST_catches _ _ _ _ Herr), Hsame. reflexivity.
    + intros err. rewrite Hsame. reflexivity.
    + intros req1 req2 b1 b2 w1 w2 e1 e2 H1 H2.
      rewrite (POST_catches _ _ _ _ H1), (POST_catches _ _ _ _ H2), !Hsame.
      reflexivity.
  - intros Hdev.
    assert (Hshown : forall err, internal_error err
                     = JObj [("jsonrpc", JStr "2.0");
                             ("error",
                              JObj [("code", JNum (-32603));
                                    ("message", JStr "Internal server error");
                                    ("data",
                                     JObj [("error", JStr (error_text err))])]);
                             ("id", JNull)]).
    { intros err. unfold internal_error, development. rewrite Hdev.
      reflexivity. }
    split.
    + intros req b w err Herr.
      rewrite (POST_catches _ _ _ _ Herr), Hshown. reflexivity.
    + intros err. rewrite Hshown. reflexivity.
Qed.

Lemma production_hides_error_detail_witness :
  fst (@POST production (post_request None (inr initialize_body))
         (engine_ok (fail_early (ErrorObject "Error" "boom"))) one_session)
  = fst (@POST production (post_request None (inl (NonError "bad json")))
           (engine_ok Resolve) no_sessions)
  /\ status
       (setCorsHeaders
          (Response.json
             (JObj [("jsonrpc", JStr "2.0");
                    ("error",
                     JObj [("code", JNum (-32603));
                           ("message", JStr "Internal server error")]);
                    ("id", JNull)])
             500)) = 500
  /\ fst (@POST dev (post_request None (inr initialize_body))
            (engine_ok (fail_early (ErrorObject "Error" "boom"))) one_session)
     = Responded
         (setCorsHeaders
            (Response.json
               (JObj [("jsonrpc", JStr "2.0");
                      ("error",
                       JObj [("code", JNum (-32603));
                             ("message", JStr "Internal server error");
                             ("data", JObj [("error", JStr "boom")])]);
                      ("id", JNull)])
               500)).
Proof.
  destruct (@production_hides_error_detail production) as (_ & Hprod & _).
  destruct (@production_hides_error_detail dev) as (_ & _ & Hdev).
  split; [|split; [reflexivity|]].
  - destruct (Hprod ltac:(discriminate)) as (_ & _ & Hsame).
    apply (Hsame _ _ _ _ _ _ (ErrorObject "Error" "boom") (NonError "bad json"));
      vm_compute; reflexivity.
  - destruct (Hdev eq_refl) as [Hanswer _].
    apply (Hanswer _ _ _ (ErrorObject "Error" "boom")).
    vm_compute. reflexivity.
Defined.

(** ** Calls without a valid session *)

Section SessionFacts.

Context `{Platform}.

(** A call that is not an initialization and names no registered session
    is answered with status 400 and the envelope of code -32000; nothing
    changes. *)
Lemma POST_invalid_session (req : Request.t) (body : json) (b : behaviour)
    (w : world) :
  Request.json req = inr body -> body <> JNull ->
  isInitializeRequest body = false ->
  (Headers.get "mcp-session-id" (Request.headers req) = None
   \/ exists sid : string,
        Headers.get "mcp-session-id" (Request.headers req) = Some sid
        /\ (sid = "" \/ transports w !! sid = None)) ->
  exists id : option json,
    Js.get body "id" = inr id
    /\ POST req b w
       = (Responded
            (setCorsHeaders (Response.json (session_error (Js.or_null id)) 400)),
          w).
Proof.
  intros Hjson Hnull Hinit Hsession.
  destruct (get_id_not_null body Hnull) as [id Hid]. exists id.
  split; [exact Hid|].
  unfold POST, POST_try. rewrite Hjson.
  destruct (get_method_not_null body Hnull) as [x ->]. rewrite Hinit, Hid.
  destruct Hsession as [->|(sid & -> & [->|Hl])]; [reflexivity|reflexivity|].
  rewrite (transports_has_false sid w Hl), andb_false_r. reflexivity.
Qed.

Lemma session_error_code (id : json) :
  Js.field "error" (session_error id) ≫= Js.field "code" = Some (JNum (-32000)).
Proof. reflexivity. Qed.

End SessionFacts.

(** C2, at the decoded body [null]: the request log reads [body.method],
    which throws, and the call is answered as an internal failure (status
    500, code -32603) whether or not it names a session. *)
Theorem null_body_is_answered_as_internal_error `{Platform}
    (sessionId : option string) (b : behaviour) (w : world) :
  POST (post_request sessionId (inr JNull)) b w
  = (Responded
       (setCorsHeaders
          (Response.json
             (internal_error
                (ErrorObject "TypeError"
                   "Cannot read properties of null (reading 'method')"))
             500)), w)
  /\ status
       (setCorsHeaders
          (Response.json
             (internal_error
                (ErrorObject "TypeError"
                   "Cannot read properties of null (reading 'method')"))
             500)) = 500
  /\ Js.field "error"
       (internal_error
          (ErrorObject "TypeError"
             "Cannot read properties of null (reading 'method')"))
     ≫= Js.field "code" = Some (JNum (-32603)).
Proof. split; [reflexivity|split; reflexivity]. Qed.

(** C3. [DELETE] without a session header, or with an empty one, answers
    400; with an id that is not registered it answers 404; in both cases
    nothing changes.  With a registered id it answers 200 and removes the
    entry: that removal is the only event of the call, the SDK is not
    entered, and a following call on that id that is not an initialization
    is answered with status 400 and the envelope of code -32000. *)
Theorem DELETE_terminates_session `{Platform} (req : Request.t) (w : world) :
  (Headers.get "mcp-session-id" (Request.headers req) = None
   \/ Headers.get "mcp-session-id" (Request.headers req) = Some "" ->
   status (fst (DELETE req w)) = 400 /\ snd (DELETE req w) = w)
  /\ (forall sid : string,
        Headers.get "mcp-session-id" (Request.headers req) = Some sid ->
        sid <> "" ->
        (transports w !! sid = None ->
         status (fst (DELETE req w)) = 404 /\ snd (DELETE req w) = w)
        /\ (forall t : nat,
              transports w !! sid = Some t ->
              status (fst (DELETE req w)) = 200
              /\ snd (DELETE req w) = transports_delete sid w
              /\ transports (snd (DELETE req w)) = delete sid (transports w)
              /\ events_since w (snd (DELETE req w)) = [RegistryDelete sid]
              /\ filter (fun e => is_sdk e = true)
                   (events_since w (snd (DELETE req w))) = []
              /\ forall (next : Request.t) (body : json) (b : behaviour),
                   Request.json next = inr body -> body <> JNull ->
                   isInitializeRequest body = false ->
                   Headers.get "mcp-session-id" (Request.headers next) = Some sid ->
                   exists id : option json,
                     Js.get body "id" = inr id
                     /\ POST next b (snd (DELETE req w))
                        = (Responded
                             (setCorsHeaders
                                (Response.json (session_error (Js.or_null id))
                                   400)),
                           snd (DELETE req w))
                     /\ Js.field "error" (session_error (Js.or_null id))
                        ≫= Js.field "code" = Some (JNum (-32000)))).
Proof.
  split.
  - intros [Hnone|Hempty]; unfold DELETE; [rewrite Hnone|rewrite Hempty];
      split; reflexivity.
  - intros sid Hsid Hne. unfold DELETE. rewrite Hsid.
    rewrite (truthy_string_nonempty sid Hne). cbn [negb].
    split.
    + intros Hl. rewrite (transports_has_false sid w Hl). split; reflexivity.
    + intros t Hl. rewrite (transports_has_true sid t w Hl). cbn [negb fst snd].
      split; [reflexivity|]. split; [reflexivity|]. split; [reflexivity|].
      assert (Hev : events_since w (transports_delete sid w) = [RegistryDelete sid])
        by (apply events_since_app; reflexivity).
      split; [exact Hev|]. split; [rewrite Hev; reflexivity|].
      intros next body b Hjson Hnull Hinit Hnext.
      destruct (POST_invalid_session next body b (transports_delete sid w)
                  Hjson Hnull Hinit) as (id & Hid & HPOST).
      { right. exists sid. split; [exact Hnext|]. right.
        simpl. apply lookup_delete_eq. }
      exists id. split; [exact Hid|]. split; [exact HPOST|].
      apply session_error_code.
Qed.

Lemma DELETE_witness :
  status (fst (DELETE (delete_request None) one_session)) = 400
  /\ status (fst (DELETE (delete_request (Some "unknown")) one_session)) = 404
  /\ status (fst (DELETE (delete_request (Some (sample_randomUUID 0))) one_session))
     = 200
  /\ exists id : option json,
       @POST production
         (post_request (Some (sample_randomUUID 0)) (inr tools_list_body))
         (engine_ok (answer "{}"))
         (snd (DELETE (delete_request (Some (sample_randomUUID 0))) one_session))
       = (Responded
            (setCorsHeaders (Response.json (session_error (Js.or_null id)) 400)),
          snd (DELETE (delete_request (Some (sample_randomUUID 0))) one_session)).
Proof.
  split; [|split; [|split]].
  - destruct (@DELETE_terminates_session production (delete_request None)
                one_session) as [H _].
    apply H. left. reflexivity.
  - destruct (@DELETE_terminates_session production
                (delete_request (Some "unknown")) one_session) as [_ H].
    destruct (H "unknown" eq_refl ltac:(discriminate)) as [H404 _].
    apply H404. vm_compute. reflexivity.
  - destruct (@DELETE_terminates_session production
                (delete_request (Some (sample_randomUUID 0))) one_session)
      as [_ H].
    destruct (H (sample_randomUUID 0) eq_refl ltac:(discriminate)) as [_ H200].
    apply (H200 0%nat). vm_compute. reflexivity.
  - destruct (@DELETE_terminates_session production
                (delete_request (Some (sample_randomUUID 0))) one_session)
      as [_ H].
    destruct (H (sample_randomUUID 0) eq_refl ltac:(discriminate)) as [_ H200].
    destruct (H200 0%nat ltac:(vm_compute; reflexivity))
      as (_ & _ & _ & _ & _ & Hnext).
    destruct (Hnext (post_request (Some (sample_randomUUID 0)) (inr tools_list_body))
                tools_list_body (engine_ok (answer "{}"))
                eq_refl ltac:(discriminate) eq_refl eq_refl)
      as (id & _ & HPOST & _).
    exists id. exact HPOST.
Defined.

(** ** The grapheme counter *)

Section GraphemeFacts.

Import Graphemes.

(** Segmentation looks at the properties of the code points of the text
    and at nothing else of the table. *)
Lemma advance_ext (ucd ucd' : UnicodeData) (ctx : option context) (c : Z) :
  same_at ucd ucd' c -> advance ucd ctx c = advance ucd' ctx c.
Proof. intros (Hg & Hp & Hi). unfold advance. rewrite Hg, Hp, Hi. reflexivity. Qed.

Lemma boundary_ext (ucd ucd' : UnicodeData) (ctx : context) (c : Z) :
  same_at ucd ucd' c -> boundary ucd ctx c = boundary ucd' ctx c.
Proof. intros (Hg & Hp & Hi). unfold boundary. rewrite Hg, Hp, Hi. reflexivity. Qed.

Lemma segments_from_ext (ucd ucd' : UnicodeData) (rest : list Z) :
  Forall (same_at ucd ucd') rest ->
  forall (ctx : context) (current : list Z),
    segments_from ucd ctx current rest = segments_from ucd' ctx current rest.
Proof.
  induction 1 as [|c rest Hc Hrest IH]; intros ctx current; [reflexivity|].
  simpl. rewrite (boundary_ext ucd ucd' ctx c Hc), (advance_ext ucd ucd' _ c Hc).
  rewrite !IH. reflexivity.
Qed.

Lemma segment_ext (ucd ucd' : UnicodeData) (text : js_string) :
  Forall (same_at ucd ucd') (code_points text) ->
  segment ucd text = segment ucd' text.
Proof.
  unfold segment. destruct (code_points text) as [|c rest]; [reflexivity|].
  intros Hall. apply Forall_cons in Hall as [Hc Hrest].
  rewrite (advance_ext ucd ucd' None c Hc).
  apply segments_from_ext, Hrest.
Qed.

Lemma sample_ucd_zwj_agrees (joiner : InCB) :
  Forall (agrees (sample_ucd_zwj joiner)) documented_properties.
Proof.
  repeat constructor; simpl; try reflexivity.
  intros Hne. destruct Hne. reflexivity.
Qed.

(** A table that agrees with the documented properties gives the code
    points of the texts what the sample table gives them, with the value
    the table has for ZERO WIDTH JOINER. *)
Lemma documented_same (ucd : UnicodeData) (text : js_string) :
  Forall (agrees ucd) documented_properties ->
  Forall (fun c => c ∈ map (fun e => fst (fst e)) documented_properties)
    (code_points text) ->
  Forall (same_at ucd (sample_ucd_zwj (Indic_Conjunct_Break ucd 0x200D)))
    (code_points text).
Proof.
  intros Hall Htext. eapply Forall_impl; [exact Htext|]. intros c Hc.
  apply list_elem_of_fmap in Hc as (e & -> & He).
  pose proof (proj1 (Forall_forall _ _) Hall e He) as (Hg & Hp & Hi).
  pose proof (proj1 (Forall_forall _ _)
                (sample_ucd_zwj_agrees (Indic_Conjunct_Break ucd 0x200D)) e He)
    as (Hg' & Hp' & Hi').
  unfold same_at. rewrite Hg, Hp, Hg', Hp'.
  split; [reflexivity|]. split; [reflexivity|].
  destruct (Z.eq_dec (fst (fst e)) 0x200D) as [Heq|Hne].
  - rewrite Heq. reflexivity.
  - rewrite (Hi Hne), (Hi' Hne). reflexivity.
Qed.

Lemma count_documented (ucd : UnicodeData) (text : js_string) :
  Forall (agrees ucd) documented_properties ->
  Forall (fun c => c ∈ map (fun e => fst (fst e)) documented_properties)
    (code_points text) ->
  countJapaneseGraphemes (Some ucd) text
  = countJapaneseGraphemes
      (Some (sample_ucd_zwj (Indic_Conjunct_Break ucd 0x200D))) text.
Proof.
  intros Hall Htext. unfold countJapaneseGraphemes.
  rewrite (segment_ext ucd (sample_ucd_zwj (Indic_Conjunct_Break ucd 0x200D))
             text); [reflexivity|].
  apply documented_same; assumption.
Qed.

(** The claim as first stated does not hold in a runtime without
    [Intl.Segmenter]: the fallback counts the two code points of the flag. *)
Lemma flag_counts_two_without_segmenter :
  countJapaneseGraphemes None flag_jp <> 1%nat.
Proof. vm_compute. discriminate. Qed.

(** C8 (amended). In a runtime that has [Intl.Segmenter], with the
    character properties Unicode gives to the code points involved (before
    and after version 15.1, which gave ZERO WIDTH JOINER a value of
    Indic_Conjunct_Break), the counts are 5 for the five hiragana, 6 with
    the waving hand added, 1 for the flag, 1 for the family of four joined
    by ZWJ, and 3 for the word that starts with a surrogate pair.  In a
    runtime without it the function counts code points: 5, 6, 2, 7 and 3. *)
Theorem grapheme_counts (ucd : UnicodeData) :
  Forall (agrees ucd) documented_properties ->
  (countJapaneseGraphemes (Some ucd) konnichiwa = 5
   /\ countJapaneseGraphemes (Some ucd) konnichiwa_wave = 6
   /\ countJapaneseGraphemes (Some ucd) flag_jp = 1
   /\ countJapaneseGraphemes (Some ucd) family = 1
   /\ countJapaneseGraphemes (Some ucd) yoshinoya = 3)%nat
  /\ (countJapaneseGraphemes None konnichiwa = 5
      /\ countJapaneseGraphemes None konnichiwa_wave = 6
      /\ countJapaneseGraphemes None flag_jp = 2
      /\ countJapaneseGraphemes None family = 7
      /\ countJapaneseGraphemes None yoshinoya = 3)%nat.
Proof.
  intros Hall. split; [|repeat split; reflexivity].
  repeat split; rewrite (count_documented ucd _ Hall);
    try (destruct (Indic_Conjunct_Break ucd 0x200D); reflexivity);
    vm_compute code_points; repeat constructor;
    apply list_elem_of_In; vm_compute; tauto.
Qed.

Lemma grapheme_counts_witness :
  (countJapaneseGraphemes (Some (sample_ucd_zwj InCB_Extend)) flag_jp = 1
   /\ countJapaneseGraphemes (Some (sample_ucd_zwj InCB_Extend)) family = 1)%nat.
Proof.
  destruct (grapheme_counts (sample_ucd_zwj InCB_Extend)
              (sample_ucd_zwj_agrees InCB_Extend))
    as [(_ & _ & Hflag & Hfamily & _) _].
  split; assumption.
Defined.

End GraphemeFacts.

(** * Further properties of the helpers and of the route *)

(** ** The header record of the collector *)

Section HeaderRecordFacts.



Lemma not_inherited_not_proto (n : string) :
  n ∉ Object_prototype_names -> n <> "__proto__".
Proof.
  intros Hn ->. apply Hn. apply (proj1 (bool_decide_eq_true _)). reflexivity.
Qed.




End HeaderRecordFacts.

Section CollectorMoreFacts.

Import Collector.



(** X4. [headersSent] is false on a new collector and, after any calls, is
    true exactly when a [writeHead] or an [end] was among them: setting
    headers and writing chunks do not mark the headers as sent. *)
Theorem collector_headersSent (calls : list call) :
  headersSent (run calls createServerResponse) = existsb sends_headers calls.
Proof.
  change (existsb sends_headers calls)
    with (headersSent createServerResponse || existsb sends_headers calls)%bool.
  generalize createServerResponse.
  induction calls as [|c calls IH]; intros s; simpl existsb.
  - rewrite orb_false_r. reflexivity.
  - rewrite run_cons, IH. destruct c; simpl;
      rewrite ?orb_true_r, ?orb_true_l; reflexivity.
Qed.

End CollectorMoreFacts.

Section CollectorResponseFacts.

Lemma values_of_pair (name : string) (vs : list string) :
  Headers.values_of (lower name) (map (pair name) vs) = vs.
Proof.
  unfold Headers.values_of. induction vs as [|v vs IH]; [reflexivity|].
  simpl. rewrite filter_cons. simpl.
  destruct (decide (lower name = lower name)); [|contradiction].
  simpl. f_equal. exact IH.
Qed.

Lemma forallb_pair (name : string) (vs : list string) :
  forallb acceptable_entry (map (pair name) vs)
  = forallb (fun v => acceptable_entry (name, v)) vs.
Proof. induction vs as [|v vs IH]; [reflexivity|]. simpl. rewrite IH. reflexivity. Qed.

Lemma set_new (name : string) (value : header_value) :
  name <> "__proto__" ->
  HeaderRecord.set name value [] = [(name, value)].
Proof.
  intros Hname. unfold HeaderRecord.set.
  destruct (String.eqb_spec name "__proto__"); [contradiction|reflexivity].
Qed.

Lemma set_other (name other : string) (v value : header_value) :
  other <> "__proto__" -> other <> name ->
  HeaderRecord.set other value [(name, v)] = [(name, v); (other, value)].
Proof.
  intros Hproto Hother. unfold HeaderRecord.set.
  destruct (String.eqb_spec other "__proto__"); [contradiction|]. simpl.
  destruct (String.eqb_spec other name); [contradiction|reflexivity].
Qed.

(** A record of one property is enumerated as it is. *)
Lemma ordered_single (e : string * header_value) :
  HeaderRecord.ordered [e] = [e].
Proof.
  unfold HeaderRecord.ordered. simpl. rewrite filter_cons, filter_nil.
  destruct (HeaderRecord.array_index (fst e)) eqn:Hindex; simpl.
  - destruct (decide (Some n = None)); [discriminate|reflexivity].
  - destruct (decide (@None N = None)); [reflexivity|contradiction].
Qed.

(** A record without array indices among its names is enumerated in the
    order of creation. *)
Lemma ordered_no_index (r : header_record) :
  Forall (fun e => HeaderRecord.array_index (fst e) = None) r ->
  HeaderRecord.ordered r = r.
Proof.
  intros Hnone. unfold HeaderRecord.ordered.
  assert (Hsorted :
            forall sorted,
              foldl
                (fun sorted e =>
                   match HeaderRecord.array_index (fst e) with
                   | Some n => HeaderRecord.insert_index n e sorted
                   | None => sorted
                   end) sorted r = sorted).
  { induction Hnone as [|e r He _ IH]; intros sorted; [reflexivity|].
    simpl. rewrite He. apply IH. }
  rewrite Hsorted. simpl.
  induction Hnone as [|e r He _ IH]; [reflexivity|].
  rewrite filter_cons. destruct (decide _); [|contradiction].
  f_equal. apply IH.
  intros sorted. specialize (Hsorted sorted). simpl in Hsorted.
  rewrite He in Hsorted. exact Hsorted.
Qed.

(** Lower-casing gives a digit only from that digit. *)
Lemma ascii_lower_digit (c : ascii) :
  in_range 48 57 (ascii_lower c) = true -> ascii_lower c = c.
Proof.
  destruct c as [[] [] [] [] [] [] [] []]; vm_compute;
    intros; reflexivity || discriminate.
Qed.

Lemma digits_lower (d : string) :
  forall (acc n : N) (s : string),
    HeaderRecord.digits_value acc d = Some n -> lower s = d -> s = d.
Proof.
  induction d as [|c' d IH]; intros acc n s Hdigits Hlower.
  - destruct s; [reflexivity|discriminate].
  - destruct s as [|c s]; [discriminate|]. simpl in Hlower.
    injection Hlower as Hc Hs. simpl in Hdigits.
    destruct (in_range 48 57 c') eqn:Hrange; [|discriminate].
    rewrite <- Hc in Hrange. apply ascii_lower_digit in Hrange.
    rewrite Hrange in Hc. subst c'. f_equal. exact (IH _ _ _ Hdigits Hs).
Qed.

Lemma digit_lower (c : ascii) :
  in_range 48 57 c = true -> ascii_lower c = c.
Proof.
  destruct c as [[] [] [] [] [] [] [] []]; vm_compute;
    intros; reflexivity || discriminate.
Qed.

Lemma digits_fixed (d : string) :
  forall acc n : N, HeaderRecord.digits_value acc d = Some n -> lower d = d.
Proof.
  induction d as [|c d IH]; intros acc n Hdigits; [reflexivity|].
  simpl in Hdigits. destruct (in_range 48 57 c) eqn:Hrange; [|discriminate].
  simpl. rewrite (digit_lower c Hrange). f_equal. exact (IH _ _ Hdigits).
Qed.

(** An array index is written with digits. *)
Lemma array_index_digits (d : string) (n : N) :
  HeaderRecord.array_index d = Some n ->
  exists acc m : N, HeaderRecord.digits_value acc d = Some m.
Proof.
  intros Hindex. destruct d as [|c d]; [discriminate|].
  unfold HeaderRecord.array_index in Hindex.
  destruct (is_byte 48 c) eqn:Hzero.
  - destruct d; [|discriminate]. exists 0%N. eexists.
    unfold is_byte in Hzero. apply Nat.eqb_eq in Hzero.
    simpl. unfold in_range. rewrite Hzero. reflexivity.
  - destruct (HeaderRecord.digits_value 0 (String c d)) as [m|] eqn:Hdigits;
      [|discriminate].
    exists 0%N, m. exact Hdigits.
Qed.

(** Two names equal up to case are no array indices. *)
Lemma same_lower_no_index (name other : string) :
  other <> name -> lower other = lower name ->
  HeaderRecord.array_index name = None
  /\ HeaderRecord.array_index other = None.
Proof.
  intros Hother Hlower. split.
  - destruct (HeaderRecord.array_index name) as [n|] eqn:Hindex;
      [|reflexivity].
    exfalso. apply Hother.
    destruct (array_index_digits _ _ Hindex) as (acc & m & Hdigits).
    rewrite (digits_fixed _ _ _ Hdigits) in Hlower.
    exact (digits_lower _ _ _ _ Hdigits Hlower).
  - destruct (HeaderRecord.array_index other) as [n|] eqn:Hindex;
      [|reflexivity].
    exfalso. apply Hother. symmetry.
    destruct (array_index_digits _ _ Hindex) as (acc & m & Hdigits).
    rewrite (digits_fixed _ _ _ Hdigits) in Hlower.
    exact (digits_lower _ _ _ _ Hdigits (eq_sym Hlower)).
Qed.

(** An [end] on a new collector, after headers were set, does not throw
    when these are acceptable. *)
Lemma throws_after_headers (pre : list Collector.call) (c : option chunk) :
  Collector.last_writeHead 200 pre = 200 ->
  acceptable_headers
    (Collector.headers (Collector.run pre Collector.createServerResponse))
  = true ->
  Collector.throws (Collector.run pre Collector.createServerResponse)
    (Collector.CallEnd c) = None.
Proof.
  intros Hcode Hok. apply throws_after. rewrite Hok, Hcode.
  destruct (with_body pre c); reflexivity.
Qed.

(** X2. The headers of the response built by an [end] that finds the
    promise pending and does not throw: the value of a name (other than
    the content type, which the platform may add) is made of all the
    values the header record holds under names equal to it up to case,
    array values element by element, in the order of the record, each
    without the blanks at its ends, joined by a comma and a space; without
    such a name the header is absent.  So two names that differ only in
    case end up as one header with both values, an array value as one
    header with all its elements, and what was set under [__proto__] is
    not in the response.  When the platform refuses a name or a value
    the [end] throws and leaves the promise as it is. *)
Theorem collector_response_headers (name : string) :
  lower name <> "content-type" ->
  (forall (pre : list Collector.call) (c : option chunk)
          (post : list Collector.call),
     Collector.getResponse (Collector.run pre Collector.createServerResponse)
     = None ->
     Collector.throws (Collector.run pre Collector.createServerResponse)
       (Collector.CallEnd c) = None ->
     exists r : NextResponse,
       Collector.getResponse
         (Collector.run (pre ++ Collector.CallEnd c :: post)
            Collector.createServerResponse) = Some r
       /\ Headers.get name (headers r)
          = match Headers.values_of (lower name)
                    (HeaderRecord.entries
                       (Collector.headers
                          (Collector.run pre Collector.createServerResponse)))
            with
            | [] => None
            | vs => Some (Headers.combine (map Headers.normalize vs))
            end)
  /\ (forall (other v1 v2 : string) (c : option chunk),
        other <> name -> lower other = lower name ->
        name <> "__proto__" -> other <> "__proto__" ->
        acceptable_entry (name, v1) = true ->
        acceptable_entry (other, v2) = true ->
        exists r : NextResponse,
          Collector.getResponse
            (Collector.run
               [Collector.CallSetHeader name (Single v1);
                Collector.CallSetHeader other (Single v2);
                Collector.CallEnd c] Collector.createServerResponse) = Some r
          /\ Headers.get name (headers r)
             = Some (Headers.normalize v1 +:+ ", " +:+ Headers.normalize v2))
  /\ (forall (vs : list string) (c : option chunk),
        name <> "__proto__" ->
        forallb (fun v => acceptable_entry (name, v)) vs = true ->
        exists r : NextResponse,
          Collector.getResponse
            (Collector.run
               [Collector.CallSetHeader name (Multiple vs); Collector.CallEnd c]
               Collector.createServerResponse) = Some r
          /\ Headers.get name (headers r)
             = match vs with
               | [] => None
               | _ => Some (Headers.combine (map Headers.normalize vs))
               end)
  /\ (forall (value : header_value) (c : option chunk),
        exists r : NextResponse,
          Collector.getResponse
            (Collector.run
               [Collector.CallSetHeader "__proto__" value; Collector.CallEnd c]
               Collector.createServerResponse) = Some r
          /\ Headers.get "__proto__" (headers r) = None)
  /\ (forall (pre : list Collector.call) (c : option chunk),
        acceptable_headers
          (Collector.headers (Collector.run pre Collector.createServerResponse))
        = false ->
        (exists f : failure,
           Collector.throws (Collector.run pre Collector.createServerResponse)
             (Collector.CallEnd c) = Some f)
        /\ Collector.getResponse
             (Collector.run (pre ++ [Collector.CallEnd c])
                Collector.createServerResponse)
           = Collector.getResponse
               (Collector.run pre Collector.createServerResponse)).
Proof.
  intros Hname.
  assert (Hgeneral :
            forall (n : string) (pre : list Collector.call) (c : option chunk)
                   (post : list Collector.call),
              lower n <> "content-type" ->
              Collector.getResponse
                (Collector.run pre Collector.createServerResponse) = None ->
              Collector.throws
                (Collector.run pre Collector.createServerResponse)
                (Collector.CallEnd c) = None ->
              exists r : NextResponse,
                Collector.getResponse
                  (Collector.run (pre ++ Collector.CallEnd c :: post)
                     Collector.createServerResponse) = Some r
                /\ Headers.get n (headers r)
                   = match Headers.values_of (lower n)
                             (HeaderRecord.entries
                                (Collector.headers
                                   (Collector.run pre
                                      Collector.createServerResponse)))
                     with
                     | [] => None
                     | vs => Some (Headers.combine (map Headers.normalize vs))
                     end).
  { intros n pre c post Hn Hp Hok.
    destruct (resolved_after pre c post Hp Hok) as (h & Hr & Hget).
    eexists. split; [exact Hr|].
    rewrite get_Response_make by exact Hn. apply Hget. }
  split; [intros pre c post; apply Hgeneral, Hname|].
  split; [|split; [|split]].
  - intros other v1 v2 c Hother Hlower Hproto Hproto' Hv1 Hv2.
    assert (Hheaders :
              Collector.headers
                (Collector.run
                   [Collector.CallSetHeader name (Single v1);
                    Collector.CallSetHeader other (Single v2)]
                   Collector.createServerResponse)
              = [(name, Single v1); (other, Single v2)]).
    { simpl. rewrite (set_new name _ Hproto).
      apply set_other; assumption. }
    assert (Hentries :
              HeaderRecord.entries [(name, Single v1); (other, Single v2)]
              = [(name, v1); (other, v2)]).
    { unfold HeaderRecord.entries. rewrite ordered_no_index; [reflexivity|].
      destruct (same_lower_no_index name other Hother Hlower).
      repeat constructor; assumption. }
    destruct (Hgeneral name
                [Collector.CallSetHeader name (Single v1);
                 Collector.CallSetHeader other (Single v2)] c [] Hname eq_refl)
      as (r & Hr & Hget).
    { apply throws_after_headers; [reflexivity|].
      rewrite Hheaders. unfold acceptable_headers. rewrite Hentries. simpl.
      rewrite Hv1, Hv2. reflexivity. }
    exists r. split; [exact Hr|]. rewrite Hget, Hheaders, Hentries.
    unfold Headers.values_of. simpl. rewrite !filter_cons. simpl.
    destruct (decide (lower name = lower name)); [|contradiction].
    destruct (decide (lower other = lower name)); [|contradiction].
    reflexivity.
  - intros vs c Hproto Hvs.
    assert (Hheaders :
              Collector.headers
                (Collector.run [Collector.CallSetHeader name (Multiple vs)]
                   Collector.createServerResponse)
              = [(name, Multiple vs)])
      by apply (set_new name _ Hproto).
    destruct (Hgeneral name [Collector.CallSetHeader name (Multiple vs)] c []
                Hname eq_refl) as (r & Hr & Hget).
    { apply throws_after_headers; [reflexivity|].
      rewrite Hheaders. unfold acceptable_headers, HeaderRecord.entries.
      rewrite ordered_single. simpl.
    unfold HeaderRecord.pairs_of. simpl.
      rewrite app_nil_r, forallb_pair. exact Hvs. }
    exists r. split; [exact Hr|]. rewrite Hget, Hheaders.
    unfold HeaderRecord.entries. rewrite ordered_single. simpl.
    unfold HeaderRecord.pairs_of. simpl.
    rewrite app_nil_r, values_of_pair. destruct vs; reflexivity.
  - intros value c.
    destruct (Hgeneral "__proto__" [Collector.CallSetHeader "__proto__" value]
                c [] ltac:(discriminate) eq_refl) as (r & Hr & Hget).
    { apply throws_after_headers; reflexivity. }
    exists r. split; [exact Hr|]. rewrite Hget. reflexivity.
  - intros pre c Hno.
    destruct (Collector.throws
                (Collector.run pre Collector.createServerResponse)
                (Collector.CallEnd c)) as [f|] eqn:Hthrows.
    + split; [eauto|]. unfold Collector.getResponse.
      rewrite run_app. apply (end_throws _ c f Hthrows).
    + apply throws_after in Hthrows. rewrite Hno in Hthrows. discriminate.
Qed.

Lemma collector_response_headers_witness :
  exists r : NextResponse,
    Collector.getResponse
      (Collector.run
         [Collector.CallSetHeader "mcp-session-id" (Single " a");
          Collector.CallSetHeader "Mcp-Session-Id" (Single "b ");
          Collector.CallEnd None]
         Collector.createServerResponse) = Some r
    /\ Headers.get "mcp-session-id" (headers r) = Some "a, b".
Proof.
  destruct (collector_response_headers "mcp-session-id" ltac:(discriminate))
    as (_ & Hcase & _).
  apply (Hcase "Mcp-Session-Id" " a" "b " None ltac:(discriminate) eq_refl
           ltac:(discriminate) ltac:(discriminate) eq_refl eq_refl).
Defined.



(** X5. The body of the response built by an [end] that finds the promise
    pending and does not throw: it is absent ([undefined]) exactly when
    no [write] came before, no earlier [end] was given bytes, and this
    [end] is given no chunk or the empty string.  After a [write], of the
    empty string too, or with a chunk that is a [Buffer], an empty one
    too, there is a body, the empty text if need be. *)
Theorem collector_body_absent_or_text :
  (forall (pre : list Collector.call) (c : option chunk),
     Collector.getResponse (Collector.run pre Collector.createServerResponse)
     = None ->
     Collector.throws (Collector.run pre Collector.createServerResponse)
       (Collector.CallEnd c) = None ->
     exists r : NextResponse,
       Collector.getResponse
         (Collector.run (pre ++ [Collector.CallEnd c])
            Collector.createServerResponse) = Some r
       /\ (body r = None <-> with_body pre c = false)
       /\ (with_body pre c = true -> is_Some (body r)))
  /\ body <$> Collector.getResponse
                (Collector.run [Collector.CallWrite (Text ""); Collector.CallEnd None]
                   Collector.createServerResponse) = Some (Some "")
  /\ body <$> Collector.getResponse
                (Collector.run [Collector.CallEnd (Some (Bytes ""))]
                   Collector.createServerResponse) = Some (Some "")
  /\ body <$> Collector.getResponse
                (Collector.run [Collector.CallEnd (Some (Text ""))]
                   Collector.createServerResponse) = Some None
  /\ body <$> Collector.getResponse
                (Collector.run [Collector.CallEnd None]
                   Collector.createServerResponse) = Some None.
Proof.
  split; [|repeat split; vm_compute; reflexivity].
  intros pre c Hp Hok.
  destruct (resolved_after pre c [] Hp Hok) as (h & Hr & _).
  eexists. split; [exact Hr|]. simpl body. rewrite body_of_with_body.
  destruct (with_body pre c); split; try split; try discriminate; eauto.
Qed.

Lemma collector_body_witness :
  exists r : NextResponse,
    Collector.getResponse
      (Collector.run
         ([Collector.CallWriteHead 204 None None] ++ [Collector.CallEnd (Some (Text ""))])
         Collector.createServerResponse) = Some r
    /\ body r = None.
Proof.
  destruct collector_body_absent_or_text as (H & _).
  destruct (H [Collector.CallWriteHead 204 None None] (Some (Text ""))
              eq_refl eq_refl) as (r & Hr & Habsent & _).
  exists r. split; [exact Hr|]. apply Habsent. reflexivity.
Defined.

End CollectorResponseFacts.
(** ** The CORS headers *)

(** X6. [setCorsHeaders] gives the four CORS headers their fixed values,
    whatever the response held under these names; it leaves every other
    header, the status and the body as they were, and applying it twice is
    the same as applying it once. *)
Theorem setCorsHeaders_sets_and_keeps (r : NextResponse) :
  Forall
    (fun h => Headers.get (fst h) (headers (setCorsHeaders r)) = Some (snd h))
    cors_headers
  /\ (forall name : string,
        lower name ∉ map fst cors_headers ->
        Headers.get name (headers (setCorsHeaders r))
        = Headers.get name (headers r))
  /\ status (setCorsHeaders r) = status r
  /\ body (setCorsHeaders r) = body r
  /\ setCorsHeaders (setCorsHeaders r) = setCorsHeaders r.
Proof.
  split; [|split; [|split; [|split]]]; try reflexivity.
  - unfold cors_headers, setCorsHeaders, Headers.get, Headers.set. simpl.
    repeat constructor; simpl;
      repeat (rewrite lookup_insert_ne by discriminate);
      rewrite lookup_insert_eq; reflexivity.
  - intros name Hname. apply get_setCorsHeaders;
      intros Heq; apply Hname; rewrite Heq; simpl;
      apply list_elem_of_In; simpl; tauto.
  - unfold setCorsHeaders, Headers.set. simpl. f_equal.
    apply map_eq. intros k. rewrite !lookup_insert.
    repeat case_decide; try reflexivity; congruence.
Qed.

Lemma setCorsHeaders_witness :
  Headers.get "Content-Type"
    (headers (setCorsHeaders (Response.json (JObj []) 200)))
  = Some "application/json".
Proof.
  destruct (setCorsHeaders_sets_and_keeps (Response.json (JObj []) 200))
    as (_ & Hkeep & _).
  rewrite (Hkeep "Content-Type").
  - reflexivity.
  - apply (proj1 (bool_decide_eq_false
                     (lower "Content-Type" ∈ map fst cors_headers))).
    reflexivity.
Defined.

(** ** The adapter's message, and the earlier helpers *)

Section EarlierHelpersFacts.

(** X7. The message the adapter builds reports the request: its method,
    its URL, and its headers as the own properties of a plain object: for
    every name that no object inherits, other than [set-cookie], the
    combined value the request has under that name, under the lower-cased
    name; for [set-cookie] the last of the values; and no property for a
    header named [__proto__].  None of this depends on the body or on the
    streams that exist. *)
Theorem adapter_message_reports_request (req : Request.t)
    (body body' : option json) (heap heap' : readables) (name : string) :
  let m := fst (Adapter.createIncomingMessage req body heap) in
  Adapter.method m = Request.method req
  /\ Adapter.url m = Request.url req
  /\ (lower name ∉ Object_prototype_names -> lower name <> "set-cookie" ->
      Adapter.headers m !! lower name = Headers.get name (Request.headers req))
  /\ Adapter.headers m !! "set-cookie"
     = Request.headers req !! "set-cookie" ≫= last
  /\ Adapter.headers m !! "__proto__" = None
  /\ Adapter.headers (fst (Adapter.createIncomingMessage req body' heap'))
     = Adapter.headers m
  /\ Adapter.method (fst (Adapter.createIncomingMessage req body' heap'))
     = Adapter.method m.
Proof.
  simpl. split; [reflexivity|]. split; [reflexivity|].
  unfold Adapter.headers_record, Headers.get.
  split; [|split; [|split; [|split; reflexivity]]].
  - intros Hown Hname. apply not_inherited_not_proto in Hown.
    rewrite map_lookup_imap.
    destruct (Request.headers req !! lower name) as [vs|]; [|reflexivity].
    simpl. destruct (String.eqb_spec (lower name) "__proto__");
      [contradiction|].
    destruct (String.eqb_spec (lower name) "set-cookie");
      [contradiction|reflexivity].
  - rewrite map_lookup_imap.
    destruct (Request.headers req !! "set-cookie"); reflexivity.
  - rewrite map_lookup_imap.
    destruct (Request.headers req !! "__proto__"); reflexivity.
Qed.

Lemma adapter_message_witness :
  Adapter.headers
    (fst (Adapter.createIncomingMessage
            (post_request (Some "abc") (inr tools_list_body))
            (Some tools_list_body) []))
    !! "mcp-session-id" = Some "abc".
Proof.
  destruct (adapter_message_reports_request
              (post_request (Some "abc") (inr tools_list_body))
              (Some tools_list_body) None [] [] "Mcp-Session-Id")
    as (_ & _ & Hget & _).
  apply Hget; [|discriminate].
  apply (proj1 (bool_decide_eq_false _)). reflexivity.
Defined.

Lemma closure_step (s : Collector.state) (c : Collector.call) :
  Collector0.closure (Collector.step s c)
  = Collector0.step (Collector0.closure s) c.
Proof. destruct c; reflexivity. Qed.

Lemma closure_run (calls : list Collector.call) (s : Collector.state) :
  Collector0.closure (Collector.run calls s)
  = Collector0.run calls (Collector0.closure s).
Proof.
  revert s. induction calls as [|c calls IH]; intros s; [reflexivity|].
  rewrite run_cons, IH, closure_step. reflexivity.
Qed.

Lemma push_final_closure (c : option chunk) (s : Collector.state) :
  Collector0.chunks (Collector0.closure (Collector.end_ c s))
  = Collector.push_final c (Collector.chunks s).
Proof. reflexivity. Qed.

(** X8. The collector against its earlier version, whose [getResponse]
    builds the response from the closure whenever it is called.  Both keep
    the same closure through any calls.  An [end] of the present one that
    finds the promise pending resolves it exactly when the earlier
    [getResponse], called right after that [end], gives a response, and
    with that response; when the earlier one would be refused by the
    platform, the present [end] throws what refuses it and the promise
    stays pending.  The body of a response the earlier [getResponse] gives
    holds everything written so far, what was written after an [end]
    included. *)
Theorem collector_resolves_with_earlier_getResponse :
  (forall calls : list Collector.call,
     Collector0.closure (Collector.run calls Collector.createServerResponse)
     = Collector0.run calls Collector0.createServerResponse)
  /\ (forall (pre : list Collector.call) (c : option chunk),
        Collector.getResponse (Collector.run pre Collector.createServerResponse)
        = None ->
        match
          Collector0.getResponse
            (Collector0.run (pre ++ [Collector.CallEnd c])
               Collector0.createServerResponse)
        with
        | inr r =>
            Collector.getResponse
              (Collector.run (pre ++ [Collector.CallEnd c])
                 Collector.createServerResponse) = Some r
        | inl f =>
            Collector.throws
              (Collector.run pre Collector.createServerResponse)
              (Collector.CallEnd c) = Some f
            /\ Collector.getResponse
                 (Collector.run (pre ++ [Collector.CallEnd c])
                    Collector.createServerResponse) = None
        end)
  /\ (forall (calls : list Collector.call) (r : NextResponse),
        Collector0.getResponse
          (Collector0.run calls Collector0.createServerResponse) = inr r ->
        body r = Collector.body_of (flat_map Collector.written calls)).
Proof.
  assert (Hclosure : forall calls : list Collector.call,
            Collector0.closure
              (Collector.run calls Collector.createServerResponse)
            = Collector0.run calls Collector0.createServerResponse)
    by (intros calls; apply closure_run).
  split; [exact Hclosure|]. split.
  - intros pre c Hp. rewrite <- Hclosure, run_app.
    change (Collector.run [Collector.CallEnd c]
              (Collector.run pre Collector.createServerResponse))
      with (Collector.end_ c (Collector.run pre Collector.createServerResponse)).
    unfold Collector0.getResponse, Collector.getResponse, Collector.throws.
    rewrite push_final_closure.
    change (Collector0.statusCode (Collector0.closure (Collector.end_ c ?s)))
      with (Collector.statusCode s).
    change (Collector0.headers (Collector0.closure (Collector.end_ c ?s)))
      with (Collector.headers s).
    unfold Collector.end_. simpl Collector.responsePromise.
    unfold Collector.getResponse in Hp.
    destruct (Collector.build _ _ _) as [f|r]; rewrite Hp;
      [split; reflexivity|reflexivity].
  - intros calls r. rewrite <- Hclosure.
    unfold Collector0.getResponse, Collector.build.
    change (Collector0.chunks (Collector0.closure ?s)) with (Collector.chunks s).
    rewrite chunks_run. simpl Collector.chunks. simpl app.
    destruct (Headers.of_entries _) as [f|h]; [discriminate|].
    unfold Response.new. destruct (_ || _)%bool; [discriminate|].
    destruct (Collector.body_of _) as [text|] eqn:Hbody.
    + destruct (Response.null_body_status _); [discriminate|].
      intros [= <-]. reflexivity.
    + intros [= <-]. reflexivity.
Qed.

Lemma earlier_getResponse_witness :
  Collector.getResponse
    (Collector.run
       ([Collector.CallWrite (Text "a")] ++ [Collector.CallEnd None])
       Collector.createServerResponse)
  = Some (Response.make (Some "a") 200 ∅).
Proof.
  destruct collector_resolves_with_earlier_getResponse as (_ & H & _).
  apply (H [Collector.CallWrite (Text "a")] None eq_refl).
Defined.

(** X9. The adapter against its earlier version, whose stream pushes the
    serialized body only when the body is truthy: for every body both
    streams carry the same bytes, and the same chunks when the body is
    truthy; for an absent or falsy body the earlier stream ends without a
    chunk where the present one yields one empty chunk.  The two messages
    report the request alike. *)
Theorem adapter_carries_bytes_of_earlier (req : Request.t)
    (body : option json) (heap : readables) :
  let made := Adapter.createIncomingMessage req body heap in
  let made0 := Adapter0.createIncomingMessage req body heap in
  let chunks := fst (Adapter.read_all (Adapter.stream (fst made)) (snd made)) in
  let chunks0 :=
    fst (Adapter.read_all (Adapter0.stream (fst made0)) (snd made0)) in
  String.concat "" chunks = String.concat "" chunks0
  /\ (forall b : json, body = Some b -> Js.truthy b = true ->
        chunks = [JSON.stringify b] /\ chunks0 = [JSON.stringify b])
  /\ (body = None \/ (exists b : json, body = Some b /\ Js.truthy b = false) ->
        chunks = [""] /\ chunks0 = [])
  /\ Adapter0.headers (fst made0) = Adapter.headers (fst made)
  /\ Adapter0.method (fst made0) = Adapter.method (fst made)
  /\ Adapter0.url (fst made0) = Adapter.url (fst made).
Proof.
  intros made made0 chunks chunks0.
  assert (Hc : chunks = [Adapter.bodyString body]).
  { destruct (Readable_from_fresh [Adapter.bodyString body] heap)
      as (_ & Hat & _).
    apply (read_all_yields _ _ _ Hat). }
  assert (Hc0 : chunks0 = Adapter0.pushed body).
  { destruct (Readable_from_fresh (Adapter0.pushed body) heap) as (_ & Hat & _).
    apply (read_all_yields _ _ _ Hat). }
  rewrite Hc, Hc0. split; [|split; [|split; [|repeat split]]].
  - destruct body as [b|]; simpl; [|reflexivity].
    destruct (Js.truthy b); reflexivity.
  - intros b -> Hb. simpl. rewrite Hb. split; reflexivity.
  - intros [->|(b & -> & Hb)]; simpl; [|rewrite Hb]; split; reflexivity.
Qed.

Lemma adapter_carries_bytes_witness :
  fst (Adapter.read_all
         (Adapter0.stream
            (fst (Adapter0.createIncomingMessage
                    (post_request None (inr (JNum 0))) (Some (JNum 0)) [])))
         (snd (Adapter0.createIncomingMessage
                 (post_request None (inr (JNum 0))) (Some (JNum 0)) [])))
  = []
  /\ fst (Adapter.read_all
            (Adapter0.stream
               (fst (Adapter0.createIncomingMessage
                       (post_request None (inr tools_list_body))
                       (Some tools_list_body) [])))
            (snd (Adapter0.createIncomingMessage
                    (post_request None (inr tools_list_body))
                    (Some tools_list_body) [])))
     = [JSON.stringify tools_list_body].
Proof.
  split.
  - destruct (adapter_carries_bytes_of_earlier
                (post_request None (inr (JNum 0))) (Some (JNum 0)) [])
      as (_ & _ & Hfalsy & _).
    apply Hfalsy. right. exists (JNum 0). split; reflexivity.
  - destruct (adapter_carries_bytes_of_earlier
                (post_request None (inr tools_list_body))
                (Some tools_list_body) [])
      as (_ & Htruthy & _).
    apply (Htruthy tools_list_body eq_refl eq_refl).
Defined.

End EarlierHelpersFacts.

(** ** Calls on a registered session *)

Section DelegationFacts.

Context `{Platform}.

Lemma handle_transportCount (transport : nat)
    (message : Adapter.IncomingMessage) (e : engine) (st : call_state) :
  transportCount (cs_world (snd (handle transport message e st)))
  = transportCount (cs_world st).
Proof.
  revert st. induction e as [| |A o k IH]; intros st;
    [reflexivity|reflexivity|].
  rewrite handle_Do, IH. apply perform_transportCount.
Qed.

(** The events of a run hold no entry into the SDK: the engine is entered
    by the router only. *)
Lemma perform_no_sdk (transport : nat) (message : Adapter.IncomingMessage)
    {A : Type} (o : op A) (st : call_state) :
  exists rest : list event,
    trace (cs_world (snd (perform transport message o st)))
    = trace (cs_world st) ++ rest
    /\ Forall (fun e => is_sdk e = false) rest
    /\ Forall (fun p => snd p = transport) (registrations rest).
Proof.
  destruct o as [|sid'|sid'|[sid'|]| |call| | | |]; simpl;
    try (exists []; rewrite app_nil_r; repeat split; constructor);
    try (eexists; split; [reflexivity|]; split; repeat constructor).
  case_if; simpl.
  - eexists. split; [reflexivity|]. split; repeat constructor.
  - exists []. rewrite app_nil_r. repeat split; constructor.
Qed.

Lemma handle_no_sdk (transport : nat) (message : Adapter.IncomingMessage)
    (e : engine) (st : call_state) :
  exists rest : list event,
    trace (cs_world (snd (handle transport message e st)))
    = trace (cs_world st) ++ rest
    /\ Forall (fun e => is_sdk e = false) rest
    /\ Forall (fun p => snd p = transport) (registrations rest).
Proof.
  revert st. induction e as [| |A o k IH]; intros st;
    try (exists []; rewrite app_nil_r; repeat split; constructor).
  rewrite handle_Do.
  destruct (IH (fst (perform transport message o st))
              (snd (perform transport message o st)))
    as (rest2 & -> & Hsdk2 & Hreg2).
  destruct (perform_no_sdk transport message o st)
    as (rest1 & -> & Hsdk1 & Hreg1).
  exists (rest1 ++ rest2). split; [rewrite app_assoc; reflexivity|].
  split; [apply Forall_app; split; assumption|].
  rewrite registrations_app. apply Forall_app. split; assumption.
Qed.



End DelegationFacts.





(** ** The other answers of the route *)

Section RouteFacts.

Context `{Platform}.

Lemma POST_try_responded (req : Request.t) (b : behaviour) (w : world)
    (r : NextResponse) :
  fst (POST_try req b w) = inr (Responded r) ->
  exists r0 : NextResponse, r = setCorsHeaders r0.
Proof.
  unfold POST_try, POST_initialize, dispatch, deliver.
  repeat match goal with
         | |- context [match ?x with _ => _ end] => destruct x eqn:?
         end;
    simpl; intros Heq; try discriminate; injection Heq as <-; eauto.
Qed.

Lemma POST_responded (req : Request.t) (b : behaviour) (w : world)
    (r : NextResponse) :
  fst (POST req b w) = Responded r ->
  exists r0 : NextResponse, r = setCorsHeaders r0.
Proof.
  unfold POST. destruct (POST_try req b w) as [[err|out] w'] eqn:Htry; simpl.
  - intros [= <-]. eauto.
  - intros ->. apply (POST_try_responded req b w).
    rewrite Htry. reflexivity.
Qed.

Lemma DELETE_responded (req : Request.t) (w : world) :
  exists r0 : NextResponse, fst (DELETE req w) = setCorsHeaders r0.
Proof.
  unfold DELETE.
  repeat match goal with
         | |- context [match ?x with _ => _ end] => destruct x eqn:?
         end; simpl; eauto.
Qed.

Lemma GET_responded (req : Request.t) (w : world) :
  exists r0 : NextResponse, GET req w = setCorsHeaders r0.
Proof.
  unfold GET.
  repeat match goal with
         | |- context [match ?x with _ => _ end] => destruct x eqn:?
         end; simpl; eauto.
Qed.

Lemma cors_set (r0 : NextResponse) :
  Forall
    (fun h => Headers.get (fst h) (headers (setCorsHeaders r0)) = Some (snd h))
    cors_headers.
Proof.
  unfold cors_headers, setCorsHeaders, Headers.get, Headers.set. simpl.
  repeat constructor; simpl;
    repeat (rewrite lookup_insert_ne by discriminate);
    rewrite lookup_insert_eq; reflexivity.
Qed.

End RouteFacts.

(** X14. Every response the route gives carries the four CORS headers
    with their fixed values: the answers of [POST] on all its paths (the
    engine's answer, the invalid-session answer, the internal failure),
    those of [DELETE] and [GET], and the answer to [OPTIONS], which has
    status 204 and no body. *)
Theorem every_response_has_cors `{Platform}
    (req : Request.t) (b : behaviour) (w : world) :
  (forall r : NextResponse,
     fst (POST req b w) = Responded r ->
     Forall (fun h => Headers.get (fst h) (headers r) = Some (snd h))
       cors_headers)
  /\ Forall (fun h => Headers.get (fst h) (headers (fst (DELETE req w)))
                      = Some (snd h)) cors_headers
  /\ Forall (fun h => Headers.get (fst h) (headers (GET req w)) = Some (snd h))
       cors_headers
  /\ Forall (fun h => Headers.get (fst h) (headers OPTIONS) = Some (snd h))
       cors_headers
  /\ status OPTIONS = 204 /\ body OPTIONS = None.
Proof.
  split; [|split; [|split; [|split; [|split; reflexivity]]]].
  - intros r Hr. destruct (POST_responded req b w r Hr) as [r0 ->].
    apply cors_set.
  - destruct (DELETE_responded req w) as [r0 ->]. apply cors_set.
  - destruct (GET_responded req w) as [r0 ->]. apply cors_set.
  - apply cors_set.
Qed.

Lemma every_response_has_cors_witness :
  Forall
    (fun h =>
       Headers.get (fst h)
         (headers
            (setCorsHeaders
               (Response.json (session_error (JNum 2)) 400))) = Some (snd h))
    cors_headers.
Proof.
  destruct (@every_response_has_cors production
              (post_request None (inr tools_list_body)) (engine_ok Resolve)
              no_sessions) as [HPOST _].
  apply HPOST. reflexivity.
Defined.

(** X10. The health check: without a session header, or with an empty
    one, [GET] answers 200; with an id it answers 200 when the id is
    registered and 404 when it is not, so that for an id it answers 200
    exactly when [DELETE] would, and after a [DELETE] that removed the
    session it answers 404. *)
Theorem GET_reports_session (req : Request.t) (w : world) :
  (Headers.get "mcp-session-id" (Request.headers req) = None
   \/ Headers.get "mcp-session-id" (Request.headers req) = Some "" ->
   status (GET req w) = 200)
  /\ (forall sid : string,
        Headers.get "mcp-session-id" (Request.headers req) = Some sid ->
        sid <> "" ->
        (transports w !! sid = None -> status (GET req w) = 404)
        /\ (forall t : nat,
              transports w !! sid = Some t ->
              status (GET req w) = 200
              /\ body (GET req w)
                 = Some (JSON.stringify
                           (JObj [("status", JStr "ok");
                                  ("sessionId", JStr sid);
                                  ("message", JStr "Session is active")]))
              /\ status (GET req (snd (DELETE req w))) = 404)
        /\ (status (GET req w) = 200 <-> status (fst (DELETE req w)) = 200)).
Proof.
  split.
  - intros [Hh|Hh]; unfold GET; rewrite Hh; reflexivity.
  - intros sid Hsid Hne. unfold GET, DELETE. rewrite Hsid.
    rewrite (truthy_string_nonempty sid Hne). cbn [negb andb].
    split; [|split].
    + intros Hl. rewrite (transports_has_false sid w Hl). reflexivity.
    + intros t Hl. rewrite (transports_has_true sid t w Hl). cbn [negb snd].
      split; [reflexivity|]. split; [reflexivity|].
      rewrite transports_has_false; [reflexivity|].
      simpl. apply lookup_delete_eq.
    + destruct (transports_has sid w); simpl; split; intros Heq;
        try reflexivity; discriminate.
Qed.

Lemma GET_witness :
  status (GET (delete_request None) one_session) = 200
  /\ status (GET (delete_request (Some "unknown")) one_session) = 404
  /\ status (GET (delete_request (Some (sample_randomUUID 0))) one_session) = 200.
Proof.
  destruct (GET_reports_session (delete_request None) one_session) as [Hnone _].
  destruct (GET_reports_session (delete_request (Some "unknown")) one_session)
    as [_ Hunknown].
  destruct (GET_reports_session
              (delete_request (Some (sample_randomUUID 0))) one_session)
    as [_ Hknown].
  split; [apply Hnone; left; reflexivity|]. split.
  - destruct (Hunknown "unknown" eq_refl ltac:(discriminate)) as [H404 _].
    apply H404. vm_compute. reflexivity.
  - destruct (Hknown (sample_randomUUID 0) eq_refl ltac:(discriminate))
      as (_ & H200 & _).
    apply (H200 0%nat). vm_compute. reflexivity.
Defined.

(** X11. A request whose body cannot be decoded is answered as an internal
    failure made from the error of [req.json()], status 500 and code
    -32603, whatever session header it carries; the registry, the streams
    and the events stay as they were, and the engine is not entered. *)
Theorem undecodable_body_is_internal_error `{Platform}
    (req : Request.t) (b : behaviour) (w : world) (err : thrown) :
  Request.json req = inl err ->
  POST req b w
  = (Responded (setCorsHeaders (Response.json (internal_error err) 500)), w)
  /\ Js.field "error" (internal_error err) ≫= Js.field "code"
     = Some (JNum (-32603)).
Proof.
  intros Hjson. unfold POST, POST_try. rewrite Hjson.
  split; reflexivity.
Qed.

Lemma undecodable_body_witness :
  snd (@POST production
         (post_request (Some (sample_randomUUID 0))
            (inl (ErrorObject "SyntaxError" "Unexpected token")))
         (engine_ok (answer "{}")) one_session) = one_session.
Proof.
  destruct (@undecodable_body_is_internal_error production
              (post_request (Some (sample_randomUUID 0))
                 (inl (ErrorObject "SyntaxError" "Unexpected token")))
              (engine_ok (answer "{}")) one_session
              (ErrorObject "SyntaxError" "Unexpected token") eq_refl)
    as [HPOST _].
  rewrite HPOST. reflexivity.
Defined.

(** X16. A call that is not an initialization and has no valid session (no
    session header, an empty one, or an id that is not registered), with a
    decoded body other than [null], is answered with status 400 and the
    envelope of code -32000 and changes nothing; the envelope carries the
    [id] of the body when that is truthy and [null] otherwise, for the ids
    0, false and the empty string too. *)
Theorem call_without_session_is_rejected `{Platform}
    (req : Request.t) (decoded : json) (b : behaviour) (w : world) :
  Request.json req = inr decoded -> decoded <> JNull ->
  isInitializeRequest decoded = false ->
  (Headers.get "mcp-session-id" (Request.headers req) = None
   \/ exists sid : string,
        Headers.get "mcp-session-id" (Request.headers req) = Some sid
        /\ (sid = "" \/ transports w !! sid = None)) ->
  POST req b w
  = (Responded
       (setCorsHeaders
          (Response.json
             (session_error (Js.or_null (Js.field "id" decoded))) 400)), w)
  /\ Js.field "error" (session_error (Js.or_null (Js.field "id" decoded)))
     ≫= Js.field "code" = Some (JNum (-32000))
  /\ Js.field "id" (session_error (Js.or_null (Js.field "id" decoded)))
     = Some (Js.or_null (Js.field "id" decoded))
  /\ (forall v : json,
        Js.field "id" decoded = Some v -> Js.truthy v = true ->
        Js.or_null (Js.field "id" decoded) = v)
  /\ (Js.field "id" decoded = None
      \/ (exists v : json,
            Js.field "id" decoded = Some v /\ Js.truthy v = false) ->
      Js.or_null (Js.field "id" decoded) = JNull).
Proof.
  intros Hjson Hnull Hinit Hsession.
  destruct (POST_invalid_session req decoded b w Hjson Hnull Hinit Hsession)
    as (id & Hid & HPOST).
  assert (Hfield : id = Js.field "id" decoded).
  { destruct decoded; simpl in Hid |- *; congruence. }
  subst id. split; [exact HPOST|]. split; [reflexivity|].
  split; [reflexivity|]. split.
  - intros v -> Hv. simpl. rewrite Hv. reflexivity.
  - intros [->|(v & -> & Hv)]; simpl; [|rewrite Hv]; reflexivity.
Qed.

Lemma call_without_session_witness :
  fst (@POST production
         (post_request None
            (inr (JObj [("jsonrpc", JStr "2.0"); ("id", JNum 0);
                        ("method", JStr "tools/list")])))
         (engine_ok (answer "{}")) one_session)
  = Responded (setCorsHeaders (Response.json (session_error JNull) 400)).
Proof.
  destruct (@call_without_session_is_rejected production
              (post_request None
                 (inr (JObj [("jsonrpc", JStr "2.0"); ("id", JNum 0);
                             ("method", JStr "tools/list")])))
              (JObj [("jsonrpc", JStr "2.0"); ("id", JNum 0);
                     ("method", JStr "tools/list")])
              (engine_ok (answer "{}")) one_session
              eq_refl ltac:(discriminate) eq_refl (or_introl eq_refl))
    as (HPOST & _).
  rewrite HPOST. reflexivity.
Defined.

(** X17. The registry stays sound over the life of the process: it is
    sound at the start, [DELETE] keeps it sound, and so does [POST] as long
    as the engine announces, through the id-assigned callback, only ids
    that the generator has given.  Sound means that every registered id was
    given by the generator and every registered transport was created. *)
Theorem registry_stays_sound `{Platform} :
  registry_sound no_sessions
  /\ (forall (req : Request.t) (w : world),
        registry_sound w -> registry_sound (snd (DELETE req w)))
  /\ (forall (req : Request.t) (b : behaviour) (w : world),
        registry_sound w -> engine_announces_drawn_ids req b w ->
        registry_sound (snd (POST req b w))).
Proof.
  split; [apply no_sessions_sound|]. split.
  - apply DELETE_registry_sound.
  - apply POST_registry_sound.
Qed.

Lemma sample_engine_announces_drawn_ids :
  @engine_announces_drawn_ids production
    (post_request None (inr initialize_body))
    (engine_ok (announce_session "{}")) one_session.
Proof.
  unfold engine_announces_drawn_ids.
  change (Request.json (post_request None (inr initialize_body)))
    with (@inr thrown json initialize_body).
  cbv iota beta.
  change (@isInitializeRequest production initialize_body) with true.
  cbv iota.
  destruct (initialize_call _ _ _ _) as [t prepared].
  apply (@announce_session_drawn production).
Defined.

Lemma registry_stays_sound_witness :
  @registry_sound production
    (snd (@POST production (post_request None (inr initialize_body))
            (engine_ok (announce_session "{}")) one_session)).
Proof.
  destruct (@registry_stays_sound production) as (_ & _ & HPOST).
  apply HPOST; [apply one_session_sound|apply sample_engine_announces_drawn_ids].
Defined.

(** X18. The callbacks through which the engine reports that a session
    has ended, in any state of a call: [onsessionclosed(sid)] and [onclose],
    when the transport has a non-empty session id, each remove the entry of
    that id and no other; whichever comes second finds nothing to remove
    and changes nothing of the registry; [onclose] on a transport without a
    session id, or with an empty one, does nothing.  None of them touches
    the collector. *)
Theorem closing_callbacks_remove_session `{Platform}
    (t : nat) (m : Adapter.IncomingMessage) (sid : string) (st : call_state) :
  sid <> "" ->
  let closed := snd (perform t m (onsessionclosed sid) st) in
  let tclosed := snd (perform t m (onclose (Some sid)) st) in
  transports (cs_world closed) = delete sid (transports (cs_world st))
  /\ transports (cs_world tclosed) = delete sid (transports (cs_world st))
  /\ (forall k : string, k <> sid ->
        transports (cs_world closed) !! k = transports (cs_world st) !! k)
  /\ transports (cs_world (snd (perform t m (onclose (Some sid)) closed)))
     = transports (cs_world closed)
  /\ transports (cs_world (snd (perform t m (onsessionclosed sid) tclosed)))
     = transports (cs_world tclosed)
  /\ transports (cs_world (snd (perform t m (onsessionclosed sid) closed)))
     = transports (cs_world closed)
  /\ snd (perform t m (onclose None) st) = st
  /\ snd (perform t m (onclose (Some "")) st) = st
  /\ cs_response closed = cs_response st
  /\ cs_response tclosed = cs_response st.
Proof.
  intros Hne closed tclosed. subst closed tclosed. simpl.
  destruct (String.eqb_spec sid ""); [contradiction|]. simpl.
  rewrite !delete_delete_eq.
  repeat split; try reflexivity.
  intros k Hk. apply lookup_delete_ne. congruence.
Qed.

Lemma closing_callbacks_witness :
  transports
    (cs_world
       (snd (@perform production 0%nat
               (fst (prepare_continue
                       (post_request (Some (sample_randomUUID 0))
                          (inr tools_list_body))
                       tools_list_body 0%nat one_session))
               unit (onsessionclosed (sample_randomUUID 0))
               (snd (prepare_continue
                       (post_request (Some (sample_randomUUID 0))
                          (inr tools_list_body))
                       tools_list_body 0%nat one_session)))))
  = delete (sample_randomUUID 0) (transports one_session).
Proof.
  destruct (@closing_callbacks_remove_session production 0%nat
              (fst (prepare_continue
                      (post_request (Some (sample_randomUUID 0))
                         (inr tools_list_body))
                      tools_list_body 0%nat one_session))
              (sample_randomUUID 0)
              (snd (prepare_continue
                      (post_request (Some (sample_randomUUID 0))
                         (inr tools_list_body))
                      tools_list_body 0%nat one_session))
              ltac:(discriminate))
    as (Hclosed & _).
  exact Hclosed.
Defined.

(** X19. A [DELETE] that removes a session removes that entry only: every
    other id keeps its transport, and the counts of transports and of ids
    and the streams stay as they were; repeating it finds no session,
    answers 404 and changes nothing. *)
Theorem DELETE_removes_only_named (req : Request.t) (w : world)
    (sid : string) (t : nat) :
  Headers.get "mcp-session-id" (Request.headers req) = Some sid ->
  sid <> "" -> transports w !! sid = Some t ->
  let w' := snd (DELETE req w) in
  (forall k : string, k <> sid -> transports w' !! k = transports w !! k)
  /\ transports w' !! sid = None
  /\ transportCount w' = transportCount w
  /\ uuidCount w' = uuidCount w
  /\ streams w' = streams w
  /\ status (fst (DELETE req w')) = 404
  /\ snd (DELETE req w') = w'.
Proof.
  intros Hsid Hne Hl.
  assert (Hw' : snd (DELETE req w) = transports_delete sid w).
  { unfold DELETE. rewrite Hsid, (truthy_string_nonempty sid Hne),
      (transports_has_true sid t w Hl). reflexivity. }
  cbv zeta. rewrite Hw'.
  assert (Hgone : transports (transports_delete sid w) !! sid = None)
    by (simpl; apply lookup_delete_eq).
  split; [intros k Hk; simpl; apply lookup_delete_ne; congruence|].
  split; [exact Hgone|]. split; [reflexivity|]. split; [reflexivity|].
  split; [reflexivity|].
  unfold DELETE. rewrite Hsid, (truthy_string_nonempty sid Hne),
    (transports_has_false sid _ Hgone).
  split; reflexivity.
Qed.

Lemma DELETE_removes_only_named_witness :
  status
    (fst (DELETE (delete_request (Some (sample_randomUUID 0)))
            (snd (DELETE (delete_request (Some (sample_randomUUID 0)))
                    one_session)))) = 404.
Proof.
  destruct (DELETE_removes_only_named
              (delete_request (Some (sample_randomUUID 0))) one_session
              (sample_randomUUID 0) 0%nat eq_refl ltac:(discriminate) eq_refl)
    as (_ & _ & _ & _ & _ & H404 & _).
  exact H404.
Defined.

(** ** Initializations, whatever the engine does *)

Section InitializationFacts.

Context `{Platform}.

Lemma discard_events (sessionId : option string) (w : world) :
  exists rest : list event,
    trace (discard_existing sessionId w) = trace w ++ rest
    /\ Forall (fun e => is_sdk e = false) rest
    /\ registrations rest = [].
Proof.
  unfold discard_existing. destruct sessionId as [sid|].
  - case_if; simpl.
    + eexists. split; [reflexivity|]. split; [repeat constructor|reflexivity].
    + exists []. rewrite app_nil_r. split; [reflexivity|]. split; constructor.
  - exists []. rewrite app_nil_r. split; [reflexivity|]. split; constructor.
Qed.

Lemma filter_sdk_none (events : list event) :
  Forall (fun e => is_sdk e = false) events ->
  filter (fun e => is_sdk e = true) events = [].
Proof.
  induction 1 as [|e events He _ IH]; [reflexivity|].
  rewrite filter_cons. destruct (decide (is_sdk e = true)); [congruence|exact IH].
Qed.

Lemma transports_discard (sessionId : option string) (w : world) :
  transports (discard_existing sessionId w)
  = match sessionId with
    | Some sid => if String.eqb sid "" then transports w
                  else delete sid (transports w)
    | None => transports w
    end.
Proof.
  unfold discard_existing. destruct sessionId as [sid|]; [|reflexivity].
  simpl. destruct (String.eqb sid ""); simpl; [reflexivity|].
  unfold transports_has. case_bool_decide as Hhas; simpl; [reflexivity|].
  symmetry. apply delete_id.
  destruct (transports w !! sid) eqn:Hl; [|reflexivity].
  exfalso. apply Hhas. eauto.
Qed.

End InitializationFacts.

(** X15. An initialization creates exactly one transport, whatever the
    engine does and also when it fails: the router enters the SDK to create
    the transport, to connect it and, when [connect] resolved, to hand it
    the request on the second stream it made, and nowhere else; and every
    entry put into the registry during the call names the new transport. *)
Theorem initialization_creates_one_transport `{Platform}
    (req : Request.t) (decoded : json) (b : behaviour) (w : world) :
  Request.json req = inr decoded -> decoded <> JNull ->
  isInitializeRequest decoded = true ->
  transportCount (snd (POST req b w)) = S (transportCount w)
  /\ filter (fun e => is_sdk e = true) (events_since w (snd (POST req b w)))
     = [SdkNewTransport (transportCount w); SdkConnect (transportCount w)]
       ++ match connect b with
          | None =>
              [SdkHandleRequest (transportCount w) (S (length (streams w)))]
          | Some _ => []
          end
  /\ Forall (fun p => snd p = transportCount w)
       (registrations (events_since w (snd (POST req b w)))).
Proof.
  intros Hjson Hnull Hinit.
  rewrite snd_POST, (POST_try_initialize req decoded b w Hjson Hnull Hinit).
  rewrite POST_initialize_world.
  set (sessionId := Headers.get "mcp-session-id" (Request.headers req)).
  destruct (discard_events sessionId w) as (rest0 & Htrace0 & Hsdk0 & Hreg0).
  destruct (connect b) as [cerr|].
  - assert (Hev : events_since w
                    (log (SdkConnect (transportCount w))
                       (snd (new_transport (discard_existing sessionId w))))
                  = rest0 ++ [SdkNewTransport (transportCount w);
                              SdkConnect (transportCount w)]).
    { apply events_since_app. unfold new_transport. simpl.
      rewrite Htrace0, transportCount_discard, <- !app_assoc. reflexivity. }
    rewrite Hev. split; [simpl; rewrite transportCount_discard; reflexivity|].
    split.
    + rewrite filter_app, (filter_sdk_none rest0 Hsdk0). reflexivity.
    + rewrite registrations_app, Hreg0. constructor.
  - cbv zeta.
    destruct (initialize_call_world req decoded sessionId w)
      as (Ht & _ & Hcount & _ & Htrace).
    cbv zeta in Ht, Hcount, Htrace.
    destruct (handle_no_sdk
                (fst (initialize_call req decoded sessionId w))
                (fst (snd (initialize_call req decoded sessionId w)))
                (handleRequest b)
                (snd (snd (initialize_call req decoded sessionId w))))
      as (rest & Hrest & Hsdk & Hreg).
    rewrite Ht in Hreg.
    assert (Hstream : Adapter.stream
                        (fst (snd (initialize_call req decoded sessionId w)))
                      = S (length (streams w))).
    { unfold initialize_call, new_transport, prepare_initialize. simpl.
      rewrite length_insert, length_app. simpl.
      assert (Hs : streams (discard_existing sessionId w) = streams w).
      { unfold discard_existing. destruct sessionId; [|reflexivity].
        case_if; reflexivity. }
      rewrite Hs. lia. }
    rewrite Htrace, Htrace0, Hstream in Hrest.
    rewrite <- !app_assoc in Hrest.
    rewrite (events_since_app _ _ _ Hrest).
    rewrite handle_transportCount, Hcount.
    split; [reflexivity|]. split.
    + rewrite !filter_app, (filter_sdk_none rest0 Hsdk0),
        (filter_sdk_none rest Hsdk), app_nil_r.
      reflexivity.
    + rewrite !registrations_app, Hreg0. simpl. exact Hreg.
Qed.

Lemma initialization_creates_one_transport_witness :
  transportCount
    (snd (@POST production (post_request None (inr initialize_body))
            (engine_ok (fail_early (ErrorObject "Error" "boom"))) one_session))
  = 2%nat.
Proof.
  destruct (@initialization_creates_one_transport production
              (post_request None (inr initialize_body)) initialize_body
              (engine_ok (fail_early (ErrorObject "Error" "boom"))) one_session
              eq_refl ltac:(discriminate) eq_refl)
    as (Hcount & _).
  exact Hcount.
Defined.

(** X20. An initialization in which [server.connect] rejects is answered
    as an internal failure, and by then the session named by the request
    is gone: the registry is the one before the call without the entry
    of the non-empty id the request came with, and the same as before when
    the request came with no id or an empty one; no stream is made for the
    request. *)
Theorem failed_connect_discards_old_session `{Platform}
    (req : Request.t) (decoded : json) (b : behaviour) (w : world)
    (err : thrown) :
  Request.json req = inr decoded -> decoded <> JNull ->
  isInitializeRequest decoded = true ->
  connect b = Some err ->
  fst (POST req b w)
  = Responded (setCorsHeaders (Response.json (internal_error err) 500))
  /\ (forall sid : string,
        Headers.get "mcp-session-id" (Request.headers req) = Some sid ->
        sid <> "" ->
        transports (snd (POST req b w)) = delete sid (transports w))
  /\ (Headers.get "mcp-session-id" (Request.headers req) = None
      \/ Headers.get "mcp-session-id" (Request.headers req) = Some "" ->
      transports (snd (POST req b w)) = transports w)
  /\ streams (snd (POST req b w)) = streams w.
Proof.
  intros Hjson Hnull Hinit Hconn.
  assert (Hworld : snd (POST req b w)
                   = log (SdkConnect (transportCount w))
                       (snd (new_transport
                               (discard_existing
                                  (Headers.get "mcp-session-id"
                                     (Request.headers req)) w)))).
  { rewrite snd_POST, (POST_try_initialize req decoded b w Hjson Hnull Hinit).
    rewrite POST_initialize_world, Hconn. reflexivity. }
  split.
  - apply POST_catches.
    rewrite (POST_try_initialize req decoded b w Hjson Hnull Hinit).
    unfold POST_initialize. destruct (new_transport _) as [t w2].
    rewrite Hconn. reflexivity.
  - rewrite Hworld. unfold new_transport. simpl. rewrite transports_discard.
    split; [|split].
    + intros sid -> Hne. destruct (String.eqb_spec sid ""); [contradiction|].
      reflexivity.
    + intros [->| ->]; reflexivity.
    + unfold discard_existing.
      destruct (Headers.get "mcp-session-id" (Request.headers req));
        [|reflexivity].
      case_if; reflexivity.
Qed.

Lemma failed_connect_witness :
  transports
    (snd (@POST production
            (post_request (Some (sample_randomUUID 0)) (inr initialize_body))
            {| connect := Some (ErrorObject "Error" "Already connected");
               handleRequest := Resolve |} one_session))
  = delete (sample_randomUUID 0) (transports one_session).
Proof.
  destruct (@failed_connect_discards_old_session production
              (post_request (Some (sample_randomUUID 0)) (inr initialize_body))
              initialize_body
              {| connect := Some (ErrorObject "Error" "Already connected");
                 handleRequest := Resolve |} one_session
              (ErrorObject "Error" "Already connected")
              eq_refl ltac:(discriminate) eq_refl eq_refl)
    as (_ & Hgone & _).
  apply (Hgone (sample_randomUUID 0) eq_refl ltac:(discriminate)).
Defined.

(** ** The grapheme counter on any text *)

Section GraphemeMoreFacts.

Import Graphemes.

Lemma code_points_length_bounded (n : nat) (s : js_string) :
  (length s <= n)%nat ->
  (length (code_points s) <= length s <= 2 * length (code_points s))%nat.
Proof.
  revert s. induction n as [|n IH]; intros s Hn.
  - destruct s; simpl in *; lia.
  - destruct s as [|u [|v rest]]; simpl in *; try lia.
    destruct (high_surrogate u && low_surrogate v)%bool; simpl.
    + specialize (IH rest ltac:(simpl; lia)). lia.
    + specialize (IH (v :: rest) ltac:(simpl; lia)). simpl in IH. lia.
Qed.

Lemma code_points_no_pair (s : js_string) :
  Forall (fun u => high_surrogate u = false) s -> code_points s = s.
Proof.
  induction 1 as [|u rest Hu Hrest IH]; [reflexivity|].
  simpl. destruct rest as [|v rest']; [reflexivity|].
  rewrite Hu. simpl. f_equal. exact IH.
Qed.

(** X21. Without [Intl.Segmenter] the count is the number of code points
    of the text: at most the length of the string and at least half of it,
    equal to the length when the string has no high surrogate, and 0 for
    the empty string. *)
Theorem fallback_counts_code_points (text : js_string) :
  countJapaneseGraphemes None text = length (code_points text)
  /\ (countJapaneseGraphemes None text <= length text
      <= 2 * countJapaneseGraphemes None text)%nat
  /\ (Forall (fun u => high_surrogate u = false) text ->
      countJapaneseGraphemes None text = length text)
  /\ countJapaneseGraphemes None [] = 0%nat.
Proof.
  split; [reflexivity|]. split.
  - apply (code_points_length_bounded (length text)). lia.
  - split; [|reflexivity].
    intros Hno. simpl. rewrite (code_points_no_pair text Hno). reflexivity.
Qed.

Lemma fallback_counts_witness :
  countJapaneseGraphemes None konnichiwa = length konnichiwa.
Proof.
  destruct (fallback_counts_code_points konnichiwa) as (_ & _ & Hlen & _).
  apply Hlen. repeat constructor.
Defined.

Lemma segments_from_concat (ucd : UnicodeData) (rest : list Z) :
  forall (ctx : context) (current : list Z),
    concat (segments_from ucd ctx current rest) = rev current ++ rest.
Proof.
  induction rest as [|c rest IH]; intros ctx current; simpl.
  - rewrite !app_nil_r. reflexivity.
  - destruct (boundary ucd ctx c); simpl; rewrite IH; simpl.
    + reflexivity.
    + rewrite <- app_assoc. reflexivity.
Qed.

Lemma segments_from_length (ucd : UnicodeData) (rest : list Z) :
  forall (ctx : context) (current : list Z),
    (1 <= length (segments_from ucd ctx current rest) <= S (length rest))%nat.
Proof.
  induction rest as [|c rest IH]; intros ctx current; simpl; [lia|].
  destruct (boundary ucd ctx c); simpl.
  - specialize (IH (advance ucd (Some ctx) c) [c]). lia.
  - specialize (IH (advance ucd (Some ctx) c) (c :: current)). lia.
Qed.

Lemma segments_from_nonempty (ucd : UnicodeData) (rest : list Z) :
  forall (ctx : context) (current : list Z),
    current <> [] ->
    Forall (fun seg => seg <> []) (segments_from ucd ctx current rest).
Proof.
  assert (Hrev : forall l : list Z, l <> [] -> rev l <> []).
  { intros l Hl Hr. apply Hl. apply (f_equal (@rev Z)) in Hr.
    rewrite rev_involutive in Hr. exact Hr. }
  induction rest as [|c rest IH]; intros ctx current Hcur; simpl.
  - constructor; [apply Hrev, Hcur|constructor].
  - destruct (boundary ucd ctx c).
    + constructor; [apply Hrev, Hcur|]. apply IH. discriminate.
    + apply IH. discriminate.
Qed.

(** X22. With [Intl.Segmenter], whatever the character data: the segments
    counted are a partition of the code points of the text (none is empty,
    and one after the other they give the code points back), so the count
    is at least 1 for a text that is not empty, 0 for the empty text, and
    never more than the count of the fallback. *)
Theorem segmenter_counts_a_partition (ucd : UnicodeData) (text : js_string) :
  concat (segment ucd text) = code_points text
  /\ Forall (fun seg => seg <> []) (segment ucd text)
  /\ (countJapaneseGraphemes (Some ucd) text
      <= countJapaneseGraphemes None text)%nat
  /\ (text <> [] -> (1 <= countJapaneseGraphemes (Some ucd) text)%nat)
  /\ countJapaneseGraphemes (Some ucd) [] = 0%nat.
Proof.
  unfold countJapaneseGraphemes, segment.
  destruct (code_points text) as [|c rest] eqn:Hcp.
  - split; [reflexivity|]. split; [constructor|]. split; [simpl; lia|].
    split; [|reflexivity].
    intros Hne. destruct text as [|u [|v rest]]; [congruence| |];
      simpl in Hcp; [discriminate|].
    destruct (high_surrogate u && low_surrogate v)%bool; discriminate.
  - split; [apply segments_from_concat|].
    split; [apply segments_from_nonempty; discriminate|].
    pose proof (segments_from_length ucd rest (advance ucd None c) [c]).
    split; [simpl; lia|]. split; [intros _; lia|reflexivity].
Qed.

Lemma segmenter_counts_witness :
  (1 <= countJapaneseGraphemes (Some sample_ucd) family)%nat.
Proof.
  destruct (segmenter_counts_a_partition sample_ucd family)
    as (_ & _ & _ & Hpos & _).
  apply Hpos. discriminate.
Defined.

Lemma boundary_plain (ucd : UnicodeData) (ctx : context) (c : Z) :
  last_break ctx = Other -> emoji ctx <> EmojiZwj ->
  plain_code_point ucd c ->
  boundary ucd ctx c = true
  /\ last_break (advance ucd (Some ctx) c) = Other
  /\ emoji (advance ucd (Some ctx) c) <> EmojiZwj.
Proof.
  intros Hlast Hemoji [Hg Hi]. unfold boundary, advance. simpl.
  rewrite Hlast, Hg, Hi. simpl.
  split; [|split; [reflexivity|]].
  - destruct (conjunct ctx); simpl; destruct (emoji ctx);
      try reflexivity; contradiction.
  - destruct (Extended_Pictographic ucd c); [discriminate|].
    destruct (emoji ctx); discriminate.
Qed.

Lemma segments_from_plain (ucd : UnicodeData) (rest : list Z) :
  Forall (plain_code_point ucd) rest ->
  forall (ctx : context) (current : list Z),
    last_break ctx = Other -> emoji ctx <> EmojiZwj ->
    length (segments_from ucd ctx current rest) = S (length rest).
Proof.
  induction 1 as [|c rest Hc Hrest IH]; intros ctx current Hlast Hemoji;
    [reflexivity|].
  simpl. destruct (boundary_plain ucd ctx c Hlast Hemoji Hc) as (-> & Hnext & He).
  simpl. rewrite IH by assumption. reflexivity.
Qed.

(** X23. For a text made of plain code points (letters, kana, ideographs,
    symbols and pictographs that stand alone) the segmenter finds a
    boundary before each of them: the count is the number of code points,
    the same with and without [Intl.Segmenter]. *)
Theorem plain_text_counts_code_points (ucd : UnicodeData) (text : js_string) :
  Forall (plain_code_point ucd) (code_points text) ->
  countJapaneseGraphemes (Some ucd) text = length (code_points text)
  /\ countJapaneseGraphemes (Some ucd) text = countJapaneseGraphemes None text.
Proof.
  intros Hplain.
  assert (Hcount : countJapaneseGraphemes (Some ucd) text
                   = length (code_points text)).
  { unfold countJapaneseGraphemes, segment.
    destruct (code_points text) as [|c rest]; [reflexivity|].
    apply Forall_cons in Hplain as [[Hg Hi] Hrest].
    simpl. rewrite (segments_from_plain ucd rest Hrest); [reflexivity| |].
    - simpl. exact Hg.
    - simpl. destruct (Extended_Pictographic ucd c); discriminate. }
  split; [exact Hcount|]. rewrite Hcount. reflexivity.
Qed.

Lemma plain_text_witness :
  countJapaneseGraphemes (Some sample_ucd) yoshinoya = 3%nat.
Proof.
  destruct (plain_text_counts_code_points sample_ucd yoshinoya) as [Hcount _].
  - vm_compute code_points. repeat constructor.
  - rewrite Hcount. reflexivity.
Defined.

Lemma div2_SS (n : nat) : (S (S n) / 2 = S (n / 2))%nat.
Proof.
  replace (S (S n)) with (n + 1 * 2)%nat by lia.
  rewrite Nat.div_add by lia. lia.
Qed.

Lemma segments_from_flags (ucd : UnicodeData) (rest : list Z) :
  Forall (regional_indicator ucd) rest ->
  forall (ctx : context) (current : list Z),
    last_break ctx = Regional_Indicator ->
    length (segments_from ucd ctx current rest)
    = if ri_odd ctx then S (length rest / 2) else S (S (length rest) / 2).
Proof.
  induction 1 as [|c rest (Hg & Hp & Hi) Hrest IH]; intros ctx current Hlast.
  - simpl. destruct (ri_odd ctx); reflexivity.
  - assert (Hb : boundary ucd ctx c = negb (ri_odd ctx)).
    { unfold boundary. rewrite Hlast, Hg, Hp, Hi. simpl.
      destruct (conjunct ctx); simpl; rewrite andb_false_r;
        destruct (ri_odd ctx); reflexivity. }
    assert (Hnext : last_break (advance ucd (Some ctx) c) = Regional_Indicator
                    /\ ri_odd (advance ucd (Some ctx) c) = negb (ri_odd ctx)).
    { unfold advance. simpl. rewrite Hg. split; reflexivity. }
    destruct Hnext as [Hl Ho].
    simpl segments_from. rewrite Hb.
    destruct (ri_odd ctx) eqn:Hodd; simpl negb in *; cbv iota.
    + rewrite IH by exact Hl. rewrite Ho. simpl length. reflexivity.
    + simpl length. rewrite IH by exact Hl. rewrite Ho.
      rewrite div2_SS. reflexivity.
Qed.

(** X24. A text made of regional indicator symbols is counted in pairs,
    from the left: [n] of them give [(n + 1) / 2] graphemes with
    [Intl.Segmenter], so a row of whole flags counts one per flag, where
    the fallback counts two. *)
Theorem flags_count_in_pairs (ucd : UnicodeData) (text : js_string) :
  Forall (regional_indicator ucd) (code_points text) ->
  countJapaneseGraphemes (Some ucd) text
  = ((length (code_points text) + 1) / 2)%nat
  /\ (forall n : nat,
        length (code_points text) = (2 * n)%nat ->
        countJapaneseGraphemes (Some ucd) text = n
        /\ countJapaneseGraphemes None text = (2 * n)%nat).
Proof.
  intros Hflags.
  assert (Hcount : countJapaneseGraphemes (Some ucd) text
                   = ((length (code_points text) + 1) / 2)%nat).
  { unfold countJapaneseGraphemes, segment.
    destruct (code_points text) as [|c rest]; [reflexivity|].
    apply Forall_cons in Hflags as [(Hg & Hp & Hi) Hrest].
    rewrite (segments_from_flags ucd rest Hrest);
      [|unfold advance; simpl; rewrite Hg; reflexivity].
    unfold advance. simpl ri_odd. rewrite Hg. simpl negb. cbv iota.
    simpl length.
    replace (S (length rest) + 1)%nat with (S (S (length rest))) by lia.
    rewrite div2_SS. reflexivity. }
  split; [exact Hcount|].
  intros n Hn. rewrite Hcount. unfold countJapaneseGraphemes. rewrite Hn.
  split; [|reflexivity].
  replace (2 * n + 1)%nat with (1 + n * 2)%nat by lia.
  rewrite Nat.div_add by lia. reflexivity.
Qed.

Lemma flags_count_witness :
  countJapaneseGraphemes (Some sample_ucd) (flag_jp ++ flag_jp) = 2%nat.
Proof.
  assert (Hflags : Forall (regional_indicator sample_ucd)
                           (code_points (flag_jp ++ flag_jp))).
  { vm_compute code_points. repeat constructor. }
  destruct (flags_count_in_pairs sample_ucd (flag_jp ++ flag_jp) Hflags)
    as [_ Hn].
  apply (Hn 2%nat). reflexivity.
Defined.

End GraphemeMoreFacts.


